(** * Home energy analysis: the rules engine (rules_engine/engine.py)

    A shallow embedding of [engine.py]: the degree-day functions, the
    heat-load formulas, the [BillingPeriod] and [Home] classes, the balance-point search
    [refine_balance_point] and the outlier loop
    [calculate_balance_point_and_ua].

    Numbers.  The Python code computes with [float].  Here a number is an
    exact rational ([Q]), kept in lowest terms after every operation, so that
    two equal numbers are the same term.  Rounding is therefore outside the
    model; every comparison, branch and raised exception is kept.  The
    properties stated are chosen among those rounding leaves alone: which branch is
    taken, which values are copied or recomputed by the same operations, and
    order between results of monotone operations.  The one
    operation that leaves the rationals, the square root inside
    [statistics.pstdev], is a variable of the development: the theorems hold
    for every square-root function, and [Qsqrt] (exact on squares of decimal
    fractions) is the instance used to run the code on concrete inputs.

    Objects.  A Python attribute that the constructor does not assign
    ([bills], [avg_non_heating_usage], [uas], [avg_ua], [stdev_pct]) is an
    [option] field: reading it before it is assigned raises
    [AttributeError].

    Exceptions.  A call returns ([Ok]) or raises ([Raise]); what an
    exception leaves behind in the objects is not modelled.

    Loops.  The two [while] loops have no bound in the source; they are run
    with fuel, and [OutOfFuel] is kept apart from the exceptions the code
    raises.  Both loops are shown to end: some amount of fuel is always
    enough. *)

From Stdlib Require Import QArith Qabs Qreduction ZArith List Bool Lia Lqa.
From Stdlib Require Import Permutation Sorting.Sorted.
Import ListNotations.
Open Scope Q_scope.

(** ** Exceptions and results *)

Inductive exn : Type :=
| ZeroDivisionError
| StatisticsError
| AttributeError
| IndexError
| ValueError.

Inductive result (A : Type) : Type :=
| Ok (a : A)
| Raise (e : exn)
| OutOfFuel.

Arguments Ok {A} a.
Arguments Raise {A} e.
Arguments OutOfFuel {A}.

Definition bind {A B : Type} (m : result A) (k : A -> result B) : result B :=
  match m with
  | Ok a => k a
  | Raise e => Raise e
  | OutOfFuel => OutOfFuel
  end.

Notation "x <- m ;; k" := (bind m (fun x => k))
  (at level 61, m at next level, right associativity).
Notation "' p <- m ;; k" := (bind m (fun x => let p := x in k))
  (at level 61, p pattern, m at next level, right associativity).

(** Reading an attribute that may not have been assigned yet. *)
Definition getattr {A : Type} (o : option A) : result A :=
  match o with
  | Some a => Ok a
  | None => Raise AttributeError
  end.

(** [xs[i]] *)
Definition index {A : Type} (xs : list A) (i : nat) : result A :=
  match nth_error xs i with
  | Some a => Ok a
  | None => Raise IndexError
  end.

(** A list comprehension whose element expression can raise. *)
Fixpoint mapM {A B : Type} (f : A -> result B) (xs : list A) : result (list B) :=
  match xs with
  | [] => Ok []
  | x :: rest =>
      y <- f x ;;
      ys <- mapM f rest ;;
      Ok (y :: ys)
  end.

(** [enumerate(xs)] *)
Definition enumerate {A : Type} (xs : list A) : list (nat * A) :=
  combine (seq 0 (length xs)) xs.

(** [xs.pop(i)]: the element and the list without it. *)
Fixpoint pop {A : Type} (i : nat) (xs : list A) : result (A * list A) :=
  match xs, i with
  | [], _ => Raise IndexError
  | x :: rest, O => Ok (x, rest)
  | x :: rest, S j =>
      '(y, rest') <- pop j rest ;;
      Ok (y, x :: rest')
  end.

(** ** Arithmetic on numbers *)

Definition fadd (x y : Q) : Q := Qred (x + y).
Definition fsub (x y : Q) : Q := Qred (x - y).
Definition fmul (x y : Q) : Q := Qred (x * y).

(** [x / y]: Python raises [ZeroDivisionError] on a zero divisor. *)
Definition fdiv (x y : Q) : result Q :=
  if Qeq_bool y 0 then Raise ZeroDivisionError else Ok (Qred (x / y)).

(** [x < y] *)
Definition flt (x y : Q) : bool := negb (Qle_bool y x).

(** [abs(x)] *)
Definition fabs (x : Q) : Q := Qred (Qabs x).

Definition of_nat (n : nat) : Q := inject_Z (Z.of_nat n).

(** [sum(xs)]: starts from 0 and adds from the left. *)
Definition py_sum (xs : list Q) : Q := fold_left fadd xs 0.

(** ** statistics.mean, statistics.pstdev, numpy.argmax *)

(** The exact sum the [statistics] module works with. *)
Definition exact_sum (xs : list Q) : Q := fold_right Qplus 0 xs.

(** [statistics.mean(xs)]: raises [StatisticsError] on no data. *)
Definition mean (xs : list Q) : result Q :=
  match xs with
  | [] => Raise StatisticsError
  | _ => Ok (Qred (exact_sum xs / of_nat (length xs)))
  end.

(** [statistics.pvariance(xs)]: the mean of the squared deviations. *)
Definition pvariance (xs : list Q) : result Q :=
  mu <- mean xs ;;
  Ok (Qred (exact_sum (map (fun x => (x - mu) * (x - mu)) xs) / of_nat (length xs))).

(** [numpy.argmax(xs)]: the first index of a maximum; raises [ValueError] on
    an empty sequence. *)
Fixpoint argmax_from (best_i : nat) (best : Q) (i : nat) (xs : list Q) : nat :=
  match xs with
  | [] => best_i
  | x :: rest =>
      if flt best x then argmax_from i x (S i) rest
      else argmax_from best_i best (S i) rest
  end.

Definition argmax (xs : list Q) : result nat :=
  match xs with
  | [] => Raise ValueError
  | x :: rest => Ok (argmax_from 0 x 1 rest)
  end.

(** ** Degree days *)

Definition hdd (avg_temp balance_point : Q) : Q :=
  let diff := fsub balance_point avg_temp in
  if flt diff 0 then 0 else diff.

Definition period_hdd (avg_temps : list Q) (balance_point : Q) : Q :=
  py_sum (map (fun temp => hdd temp balance_point) avg_temps).

(** ** FuelType, BillingPeriod, Home *)

Inductive FuelType : Type := GAS | OIL | PROPANE.

(** [FuelType.value]: BTU per usage. *)
Definition fuel_value (f : FuelType) : Q :=
  match f with
  | GAS => 100000
  | OIL => 139600
  | PROPANE => 91333
  end.

(** A billing period.  The back reference [self.home] is read only while the
    period is constructed, so it is an argument of the constructor and not a
    field. *)
Record BillingPeriod : Type := {
  avg_temps : list Q;
  usage : Q;
  days : nat;
  avg_heating_usage : Q;
  total_hdd : Q;
  partial_ua : Q;
  ua : Q
}.

Record Home : Type := {
  fuel_type : FuelType;
  heat_sys_efficiency : Q;
  balance_point : Q;
  thermostat_set_point : Q;
  bills : option (list BillingPeriod);
  avg_non_heating_usage : option Q;
  uas : option (list Q);
  avg_ua : option Q;
  stdev_pct : option Q
}.

(** [Home.__init__], with the defaults [initial_balance_point=60] and
    [thermostat_set_point=68] passed explicitly by the caller. *)
Definition Home_init (fuel : FuelType) (efficiency : Q)
    (initial_balance_point thermostat : Q) : Home :=
  {| fuel_type := fuel;
     heat_sys_efficiency := efficiency;
     balance_point := initial_balance_point;
     thermostat_set_point := thermostat;
     bills := None;
     avg_non_heating_usage := None;
     uas := None;
     avg_ua := None;
     stdev_pct := None |}.

(** Attribute assignments. *)
Definition set_bills (h : Home) (bs : list BillingPeriod) : Home :=
  {| fuel_type := fuel_type h;
     heat_sys_efficiency := heat_sys_efficiency h;
     balance_point := balance_point h;
     thermostat_set_point := thermostat_set_point h;
     bills := Some bs;
     avg_non_heating_usage := avg_non_heating_usage h;
     uas := uas h;
     avg_ua := avg_ua h;
     stdev_pct := stdev_pct h |}.

Definition set_avg_non_heating_usage (h : Home) (x : Q) : Home :=
  {| fuel_type := fuel_type h;
     heat_sys_efficiency := heat_sys_efficiency h;
     balance_point := balance_point h;
     thermostat_set_point := thermostat_set_point h;
     bills := bills h;
     avg_non_heating_usage := Some x;
     uas := uas h;
     avg_ua := avg_ua h;
     stdev_pct := stdev_pct h |}.

Definition set_uas (h : Home) (xs : list Q) : Home :=
  {| fuel_type := fuel_type h;
     heat_sys_efficiency := heat_sys_efficiency h;
     balance_point := balance_point h;
     thermostat_set_point := thermostat_set_point h;
     bills := bills h;
     avg_non_heating_usage := avg_non_heating_usage h;
     uas := Some xs;
     avg_ua := avg_ua h;
     stdev_pct := stdev_pct h |}.

Definition set_avg_ua (h : Home) (x : Q) : Home :=
  {| fuel_type := fuel_type h;
     heat_sys_efficiency := heat_sys_efficiency h;
     balance_point := balance_point h;
     thermostat_set_point := thermostat_set_point h;
     bills := bills h;
     avg_non_heating_usage := avg_non_heating_usage h;
     uas := uas h;
     avg_ua := Some x;
     stdev_pct := stdev_pct h |}.

Definition set_stdev_pct (h : Home) (x : Q) : Home :=
  {| fuel_type := fuel_type h;
     heat_sys_efficiency := heat_sys_efficiency h;
     balance_point := balance_point h;
     thermostat_set_point := thermostat_set_point h;
     bills := bills h;
     avg_non_heating_usage := avg_non_heating_usage h;
     uas := uas h;
     avg_ua := avg_ua h;
     stdev_pct := Some x |}.

Definition set_balance_point (h : Home) (x : Q) : Home :=
  {| fuel_type := fuel_type h;
     heat_sys_efficiency := heat_sys_efficiency h;
     balance_point := x;
     thermostat_set_point := thermostat_set_point h;
     bills := bills h;
     avg_non_heating_usage := avg_non_heating_usage h;
     uas := uas h;
     avg_ua := avg_ua h;
     stdev_pct := stdev_pct h |}.

(** [BillingPeriod.calculate_partial_ua]: the part of UA that does not depend
    on the balance point. *)
Definition calculate_partial_ua (days : nat) (avg_heating_usage : Q)
    (home : Home) : result Q :=
  fdiv (fmul (fmul (fmul (of_nat days) avg_heating_usage)
                   (fuel_value (fuel_type home)))
             (heat_sys_efficiency home))
       24.

(** [BillingPeriod.__init__] *)
Definition BillingPeriod_init (avg_temps : list Q) (usage : Q) (home : Home)
    : result BillingPeriod :=
  let days := length avg_temps in
  per_day <- fdiv usage (of_nat days) ;;
  non_heating <- getattr (avg_non_heating_usage home) ;;
  let avg_heating_usage := fsub per_day non_heating in
  let total_hdd := period_hdd avg_temps (balance_point home) in
  partial_ua <- calculate_partial_ua days avg_heating_usage home ;;
  ua <- fdiv partial_ua total_hdd ;;
  Ok {| avg_temps := avg_temps;
        usage := usage;
        days := days;
        avg_heating_usage := avg_heating_usage;
        total_hdd := total_hdd;
        partial_ua := partial_ua;
        ua := ua |}.

(** [Home.initialize_billing_periods]: the loop over [range(len(usages))]. *)
Fixpoint append_billing_periods (indices : list nat) (temps : list (list Q))
    (usages : list Q) (h : Home) : result Home :=
  match indices with
  | [] => Ok h
  | i :: rest =>
      t <- index temps i ;;
      u <- index usages i ;;
      b <- BillingPeriod_init t u h ;;
      bs <- getattr (bills h) ;;
      append_billing_periods rest temps usages (set_bills h (bs ++ [b]))
  end.

Definition initialize_billing_periods (temps : list (list Q)) (usages : list Q)
    (avg_non_heating : Q) (h : Home) : result Home :=
  append_billing_periods (seq 0 (length usages)) temps usages
    (set_avg_non_heating_usage (set_bills h []) avg_non_heating).

(** ** While loops *)

(** What one pass through a [while] loop does: go round again, or leave the
    loop (the condition is false, or a [break]). *)
Inductive ctl (S : Type) : Type :=
| Continue (s : S)
| Break (s : S).

Arguments Continue {S} s.
Arguments Break {S} s.

Fixpoint while_loop {S : Type} (fuel : nat) (body : S -> result (ctl S))
    (s : S) : result S :=
  match fuel with
  | O => OutOfFuel
  | Datatypes.S fuel' =>
      c <- body s ;;
      match c with
      | Continue s' => while_loop fuel' body s'
      | Break s' => Ok s'
      end
  end.

(** The states at the head of the loop, in order, for at most [fuel] passes. *)
Fixpoint loop_states {S : Type} (fuel : nat) (body : S -> result (ctl S))
    (s : S) : list S :=
  s :: match fuel with
       | O => []
       | Datatypes.S fuel' =>
           match body s with
           | Ok (Continue s') => loop_states fuel' body s'
           | _ => []
           end
       end.

(** The states a loop passes through at its head, starting from [s]. *)
Inductive reaches {S : Type} (body : S -> result (ctl S)) : S -> S -> Prop :=
| reaches_here : forall s, reaches body s s
| reaches_next : forall s s' s'',
    body s = Ok (Continue s') -> reaches body s' s'' -> reaches body s s''.

Section Engine.

(** The square root used by [statistics.pstdev]. *)
Variable sqrt : Q -> Q.

(** [statistics.pstdev(xs)] *)
Definition pstdev (xs : list Q) : result Q :=
  v <- pvariance xs ;;
  Ok (sqrt v).

(** ** Home.refine_balance_point *)

(** The outcome of trying one balance point. *)
Inductive trial : Type :=
| Infeasible              (* bp_i > thermostat_set_point: break *)
| Improved (h' : Home)    (* stdev_pct_i < stdev_pct: the trial is committed *)
| NotImproved.

(** The writes of a committed trial into each bill (lines 214-216). *)
Definition store_trial (period_hdds_i uas_i : list Q) (bs : list BillingPeriod)
    : result (list BillingPeriod) :=
  mapM (fun '(n, bill) =>
          h_n <- index period_hdds_i n ;;
          ua_n <- index uas_i n ;;
          Ok {| avg_temps := avg_temps bill;
                usage := usage bill;
                days := days bill;
                avg_heating_usage := avg_heating_usage bill;
                total_hdd := h_n;
                partial_ua := partial_ua bill;
                ua := ua_n |})
       (enumerate bs).

(** The body of the loop for the direction [d] at the head of
    [directions_to_check] (lines 193-216, without the directions). *)
Definition try_balance_point (balance_point_sensitivity : Q) (d : Z) (h : Home)
    : result trial :=
  let bp_i := fadd (balance_point h) (fmul (inject_Z d) balance_point_sensitivity) in
  if flt (thermostat_set_point h) bp_i then Ok Infeasible
  else
    bs <- getattr (bills h) ;;
    let period_hdds_i := map (fun bill => period_hdd (avg_temps bill) bp_i) bs in
    uas_i <- mapM (fun '(n, bill) =>
                     h_n <- index period_hdds_i n ;;
                     fdiv (partial_ua bill) h_n)
                  (enumerate bs) ;;
    avg_ua_i <- mean uas_i ;;
    sd <- pstdev uas_i ;;
    stdev_pct_i <- fdiv sd avg_ua_i ;;
    current <- getattr (stdev_pct h) ;;
    if flt stdev_pct_i current then
      let h1 := set_stdev_pct (set_avg_ua (set_balance_point h bp_i) avg_ua_i)
                  stdev_pct_i in
      bs' <- store_trial period_hdds_i uas_i bs ;;
      Ok (Improved (set_bills h1 bs'))
    else Ok NotImproved.

(** One pass of [while directions_to_check:]. *)
Definition refine_body (balance_point_sensitivity : Q)
    (st : list Z * Home) : result (ctl (list Z * Home)) :=
  let '(directions_to_check, h) := st in
  match directions_to_check with
  | [] => Ok (Break st)
  | d :: _ =>
      t <- try_balance_point balance_point_sensitivity d h ;;
      match t with
      | Infeasible => Ok (Break st)
      | Improved h' =>
          if Nat.eqb (length directions_to_check) 2
          then Ok (Continue (removelast directions_to_check, h'))
          else Ok (Continue (directions_to_check, h'))
      | NotImproved => Ok (Continue (tl directions_to_check, h))
      end
  end.

Definition refine_balance_point (fuel : nat) (balance_point_sensitivity : Q)
    (h : Home) : result Home :=
  '(_, h') <- while_loop fuel (refine_body balance_point_sensitivity)
                ([1%Z; (-1)%Z], h) ;;
  Ok h'.

(** ** Home.calculate_balance_point_and_ua *)

(** Lines 134-136: the statistics of the bills as they stand. *)
Definition compute_statistics (h : Home) : result Home :=
  bs <- getattr (bills h) ;;
  let h1 := set_uas h (map ua bs) in
  avg <- mean (map ua bs) ;;
  let h2 := set_avg_ua h1 avg in
  sd <- pstdev (map ua bs) ;;
  pct <- fdiv sd avg ;;
  Ok (set_stdev_pct h2 pct).

(** Lines 140-146: the biggest outlier is popped and the statistics of the
    remaining bills computed.  Returns the outlier, the home without it, and
    [uas_i], [avg_ua_i], [stdev_pct_i]. *)
Definition biggest_outlier_idx (h : Home) : result nat :=
  bs <- getattr (bills h) ;;
  devs <- mapM (fun bill =>
                  avg <- getattr (avg_ua h) ;;
                  Ok (fabs (fsub (ua bill) avg)))
               bs ;;
  argmax devs.

Definition exclude_outlier (h : Home)
    : result (BillingPeriod * Home * (list Q * Q * Q)) :=
  idx <- biggest_outlier_idx h ;;
  bs <- getattr (bills h) ;;
  '(outlier, rest) <- pop idx bs ;;
  let h1 := set_bills h rest in
  let uas_i := map ua rest in
  avg_ua_i <- mean uas_i ;;
  sd <- pstdev uas_i ;;
  stdev_pct_i <- fdiv sd avg_ua_i ;;
  Ok (outlier, h1, (uas_i, avg_ua_i, stdev_pct_i)).

(** One pass of [while self.stdev_pct > stdev_pct_max:]. *)
Definition outlier_body (fuel : nat)
    (stdev_pct_max max_stdev_pct_diff next_balance_point_sensitivity : Q)
    (h : Home) : result (ctl Home) :=
  current <- getattr (stdev_pct h) ;;
  if flt stdev_pct_max current then
    '(outlier, h1, (uas_i, avg_ua_i, stdev_pct_i)) <- exclude_outlier h ;;
    if flt (fsub current stdev_pct_i) max_stdev_pct_diff then
      rest <- getattr (bills h1) ;;
      Ok (Break (set_bills h1 (rest ++ [outlier])))
    else
      let h2 := set_stdev_pct (set_avg_ua (set_uas h1 uas_i) avg_ua_i)
                  stdev_pct_i in
      h3 <- refine_balance_point fuel next_balance_point_sensitivity h2 ;;
      Ok (Continue h3)
  else Ok (Break h).

Definition calculate_balance_point_and_ua (fuel : nat)
    (initial_balance_point_sensitivity stdev_pct_max max_stdev_pct_diff
       next_balance_point_sensitivity : Q)
    (h : Home) : result Home :=
  h1 <- compute_statistics h ;;
  h2 <- refine_balance_point fuel initial_balance_point_sensitivity h1 ;;
  while_loop fuel
    (outlier_body fuel stdev_pct_max max_stdev_pct_diff
       next_balance_point_sensitivity)
    h2.

(** ** Home.calculate_balance_point_and_ua_customizable

    [bps_to_remove] is a list of objects, and [BillingPeriod] defines no
    [__eq__]: [bp not in bps_to_remove] compares the objects, not their
    fields.  Which objects of [self.bills] are in the list is given here by
    position: [removed n] tells whether the object at index [n] of
    [self.bills] is one of [bps_to_remove].  Two bills with the same data at
    different positions are told apart, as in the source. *)
Definition bills_not_in (removed : nat -> bool) (bs : list BillingPeriod)
    : list BillingPeriod :=
  map snd (filter (fun nb => negb (removed (fst nb))) (enumerate bs)).

Definition calculate_balance_point_and_ua_customizable (fuel : nat)
    (removed : nat -> bool) (balance_point_sensitivity : Q)
    (h : Home) : result Home :=
  bs <- getattr (bills h) ;;
  let customized_bills := bills_not_in removed bs in
  let h1 := set_uas h (map ua customized_bills) in
  avg <- mean (map ua customized_bills) ;;
  let h2 := set_avg_ua h1 avg in
  sd <- pstdev (map ua customized_bills) ;;
  pct <- fdiv sd avg ;;
  let h3 := set_stdev_pct h2 pct in
  refine_balance_point fuel balance_point_sensitivity (set_bills h3 customized_bills).

(** ** The trial, bill by bill

    What lines 200-205 compute from the bills at the balance point [bp]:
    [uas_i], [avg_ua_i] and [stdev_pct_i]. *)
Definition trial_statistics (bs : list BillingPeriod) (bp : Q)
    : result (list Q * Q * Q) :=
  uas_i <- mapM (fun bill =>
                   fdiv (partial_ua bill) (period_hdd (avg_temps bill) bp))
                bs ;;
  avg_ua_i <- mean uas_i ;;
  sd <- pstdev uas_i ;;
  stdev_pct_i <- fdiv sd avg_ua_i ;;
  Ok (uas_i, avg_ua_i, stdev_pct_i).

(** What lines 214-216 leave in a bill once the trial at [bp] is committed. *)
Definition resync (bp : Q) (b : BillingPeriod) : BillingPeriod :=
  {| avg_temps := avg_temps b;
     usage := usage b;
     days := days b;
     avg_heating_usage := avg_heating_usage b;
     total_hdd := period_hdd (avg_temps b) bp;
     partial_ua := partial_ua b;
     ua := Qred (partial_ua b / period_hdd (avg_temps b) bp) |}.

(** The balance point tried in the direction [d]. *)
Definition trial_point (balance_point_sensitivity : Q) (d : Z) (h : Home) : Q :=
  fadd (balance_point h) (fmul (inject_Z d) balance_point_sensitivity).

(** ** Where the aggregates are read

    [refine_balance_point] reads [self.stdev_pct] (line 207) in the home at
    the head of its loop. *)
Inductive refine_reads (balance_point_sensitivity : Q) (h0 : Home)
    : Home -> Prop :=
| refine_reads_at : forall directions h,
    reaches (refine_body balance_point_sensitivity)
      ([1%Z; (-1)%Z], h0) (directions, h) ->
    refine_reads balance_point_sensitivity h0 h.

(** [calculate_balance_point_and_ua] reads [self.stdev_pct] and
    [self.avg_ua] at the head of its loop (lines 139, 141), reads
    [self.stdev_pct] again once the outlier is popped (line 148), and calls
    [refine_balance_point] before the loop and after each exclusion. *)
Inductive calculate_reads (fuel : nat)
    (initial_balance_point_sensitivity stdev_pct_max max_stdev_pct_diff
       next_balance_point_sensitivity : Q) (h0 : Home) : Home -> Prop :=
| reads_first_refine : forall h1 h,
    compute_statistics h0 = Ok h1 ->
    refine_reads initial_balance_point_sensitivity h1 h ->
    calculate_reads fuel initial_balance_point_sensitivity stdev_pct_max
      max_stdev_pct_diff next_balance_point_sensitivity h0 h
| reads_loop_head : forall h1 h2 h,
    compute_statistics h0 = Ok h1 ->
    refine_balance_point fuel initial_balance_point_sensitivity h1 = Ok h2 ->
    reaches (outlier_body fuel stdev_pct_max max_stdev_pct_diff
               next_balance_point_sensitivity) h2 h ->
    calculate_reads fuel initial_balance_point_sensitivity stdev_pct_max
      max_stdev_pct_diff next_balance_point_sensitivity h0 h
| reads_outlier_popped : forall h current outlier h1 stats,
    calculate_reads fuel initial_balance_point_sensitivity stdev_pct_max
      max_stdev_pct_diff next_balance_point_sensitivity h0 h ->
    stdev_pct h = Some current ->
    flt stdev_pct_max current = true ->
    exclude_outlier h = Ok (outlier, h1, stats) ->
    calculate_reads fuel initial_balance_point_sensitivity stdev_pct_max
      max_stdev_pct_diff next_balance_point_sensitivity h0 h1
| reads_next_refine : forall h current outlier h1 uas_i avg_ua_i stdev_pct_i h',
    calculate_reads fuel initial_balance_point_sensitivity stdev_pct_max
      max_stdev_pct_diff next_balance_point_sensitivity h0 h ->
    stdev_pct h = Some current ->
    flt stdev_pct_max current = true ->
    exclude_outlier h = Ok (outlier, h1, (uas_i, avg_ua_i, stdev_pct_i)) ->
    flt (fsub current stdev_pct_i) max_stdev_pct_diff = false ->
    refine_reads next_balance_point_sensitivity
      (set_stdev_pct (set_avg_ua (set_uas h1 uas_i) avg_ua_i) stdev_pct_i) h' ->
    calculate_reads fuel initial_balance_point_sensitivity stdev_pct_max
      max_stdev_pct_diff next_balance_point_sensitivity h0 h'.

(** ** Homes the search leaves alone

    Lines 134-137: the statistics, then the first search. *)
Definition first_refinement (fuel : nat) (initial_balance_point_sensitivity : Q)
    (h : Home) : result Home :=
  h1 <- compute_statistics h ;;
  refine_balance_point fuel initial_balance_point_sensitivity h1.

(** The aggregates of [h] are the statistics of its bills at its balance
    point, and its bills are in step with that balance point. *)
Definition settled (h : Home) : Prop :=
  exists bs avg pct,
    bills h = Some bs
    /\ trial_statistics bs (balance_point h) = Ok (map ua bs, avg, pct)
    /\ avg_ua h = Some avg
    /\ stdev_pct h = Some pct.

(** The trial in the direction [d] commits nothing. *)
Definition blocked (balance_point_sensitivity : Q) (d : Z) (h : Home) : Prop :=
  try_balance_point balance_point_sensitivity d h = Ok Infeasible
  \/ try_balance_point balance_point_sensitivity d h = Ok NotImproved.

(** A search started on [h] commits nothing. *)
Definition stable (balance_point_sensitivity : Q) (h : Home) : Prop :=
  try_balance_point balance_point_sensitivity 1 h = Ok Infeasible
  \/ (try_balance_point balance_point_sensitivity 1 h = Ok NotImproved
      /\ blocked balance_point_sensitivity (-1) h).

(** What the directions still to check say about the home, when the search
    started from a settled home: a direction already dropped leads to no
    improvement. *)
Definition search_state (balance_point_sensitivity : Q)
    (st : list Z * Home) : Prop :=
  settled (snd st)
  /\ (fst st = [1%Z; (-1)%Z]
      \/ (fst st = [1%Z] /\ blocked balance_point_sensitivity (-1) (snd st))
      \/ (fst st = [(-1)%Z] /\ blocked balance_point_sensitivity 1 (snd st))
      \/ (fst st = [] /\ blocked balance_point_sensitivity 1 (snd st)
          /\ blocked balance_point_sensitivity (-1) (snd st))).

End Engine.

(** ** The invariant of the data model

    Two numbers are the same number: same numerator, same denominator. *)
Definition same (x y : Q) : bool :=
  Z.eqb (Qnum x) (Qnum y) && Pos.eqb (Qden x) (Qden y).

(** A bill reflects the balance point [bp]: its [total_hdd] is
    [period_hdd(avg_temps, bp)] and its [ua] is [partial_ua / total_hdd]. *)
Definition in_sync (bp : Q) (b : BillingPeriod) : bool :=
  same (total_hdd b) (period_hdd (avg_temps b) bp)
  && match fdiv (partial_ua b) (total_hdd b) with
     | Ok u => same (ua b) u
     | _ => false
     end.

(** Every retained bill reflects the home's current balance point. *)
Definition synced (h : Home) : bool :=
  match bills h with
  | Some bs => forallb (in_sync (balance_point h)) bs
  | None => false
  end.

(** [i] is the first index at which [xs] takes its maximum. *)
Definition first_maximum (xs : list Q) (i : nat) : Prop :=
  exists v, nth_error xs i = Some v
            /\ (forall j w, nth_error xs j = Some w -> w <= v)
            /\ (forall j w, (j < i)%nat -> nth_error xs j = Some w -> w < v).

(** ** A square root to run the code with

    [Qsqrt q] is the square root of [q] cut to 12 decimal places; it is exact
    whenever [q] is the square of a fraction with at most 12 decimals. *)
Definition Qsqrt (q : Q) : Q :=
  Qred (Z.sqrt (Qnum q * 10 ^ 24 / Zpos (Qden q)) # 10 ^ 12).

(** ** Homes to run the code on *)

(** The home a call returns, [otherwise] when it does not return. *)
Definition returned (otherwise : Home) (r : result Home) : Home :=
  match r with
  | Ok h => h
  | _ => otherwise
  end.

(** [Home(FuelType.GAS, 1)]: balance point 60, set point 68, no bills yet. *)
Definition home_fresh : Home := Home_init GAS 1 60 68.

(** [home_fresh] inside [initialize_billing_periods], before the first
    period is constructed. *)
Definition home_ready : Home :=
  set_avg_non_heating_usage (set_bills home_fresh []) 0.

(** Two periods of two days; the search climbs from 60 to the set point. *)
Definition home_rising : Home :=
  Eval vm_compute in
    returned home_fresh
      (initialize_billing_periods [[30; 40]; [40; 45]] [24; 96] 0 home_fresh).

Definition home_rising_stats : Home :=
  Eval vm_compute in returned home_fresh (compute_statistics Qsqrt home_rising).

Definition home_rising_62 : Home :=
  Eval vm_compute in
    match try_balance_point Qsqrt 2 1 home_rising_stats with
    | Ok (Improved h) => h
    | _ => home_fresh
    end.

Definition home_rising_refined : Home :=
  Eval vm_compute in
    returned home_fresh (refine_balance_point Qsqrt 10 2 home_rising_stats).

(** Two periods whose UAs agree within the default tolerance. *)
Definition home_close : Home :=
  Eval vm_compute in
    returned home_fresh
      (initialize_billing_periods [[50; 50]; [40; 45]] [24; 48] 0 home_fresh).

Definition home_close_refined : Home :=
  Eval vm_compute in returned home_fresh (first_refinement Qsqrt 10 2 home_close).

(** Balance point 67 under a set point of 68: the first trial of a search
    with sensitivity 2 is infeasible.  Two one-day periods at 66 degrees with
    UA 200000 and 300000. *)
Definition home_pair : Home :=
  Eval vm_compute in
    returned home_fresh
      (initialize_billing_periods [[66]; [66]] [48; 72] 0 (Home_init GAS 1 67 68)).

Definition home_pair_stats : Home :=
  Eval vm_compute in returned home_fresh (compute_statistics Qsqrt home_pair).


(** A home constructed with its balance point above its set point. *)
Definition home_above : Home :=
  Eval vm_compute in
    returned home_fresh
      (initialize_billing_periods [[50]] [24] 0 (Home_init GAS 1 70 68)).

Definition home_rising_final : Home :=
  Eval vm_compute in
    returned home_fresh
      (calculate_balance_point_and_ua Qsqrt 10 2 (1 # 10) (1 # 100) (1 # 2)
         home_rising).

(** The two periods of [home_pair]. *)
Definition pair_first : BillingPeriod :=
  {| avg_temps := [66];
     usage := 48;
     days := 1;
     avg_heating_usage := 48;
     total_hdd := 1;
     partial_ua := 200000;
     ua := 200000 |}.

Definition pair_second : BillingPeriod :=
  {| avg_temps := [66];
     usage := 72;
     days := 1;
     avg_heating_usage := 72;
     total_hdd := 1;
     partial_ua := 300000;
     ua := 300000 |}.

(** ** The heat-load formulas *)


Definition average_heat_load
    (design_set_point avg_indoor_temp balance_point design_temp ua : Q) : Q :=
  fmul (fsub (fsub design_set_point (fsub avg_indoor_temp balance_point))
             design_temp)
       ua.

Definition max_heat_load (design_set_point design_temp ua : Q) : Q :=
  fmul (fsub design_set_point design_temp) ua.

(** ** Loops that end *)

(** With enough fuel the loop started in [s] returns or raises. *)
Definition halts {S : Type} (body : S -> result (ctl S)) (s : S) : Prop :=
  exists fuel, while_loop fuel body s <> OutOfFuel.

(** ** What the methods leave of a bill

    The fields of a bill that are assigned once, by its constructor. *)
Definition bill_inputs (b : BillingPeriod) : list Q * Q * nat * Q * Q :=
  (avg_temps b, usage b, days b, avg_heating_usage b, partial_ua b).

(** No trial of the bills of [h] succeeds at or below [m]. *)
Definition floored (sqrt : Q -> Q) (m : Q) (h : Home) : Prop :=
  forall bs bp r,
    bills h = Some bs -> trial_statistics sqrt bs bp = Ok r -> m < bp.

(** The periods of [x] are periods of [bs0], each at most once: nothing is
    added and no input of a period is rewritten. *)
Definition kept_from (bs0 : list BillingPeriod) (x : Home) : Prop :=
  exists bs excluded,
    bills x = Some bs
    /\ Permutation (map bill_inputs bs0) (map bill_inputs bs ++ excluded).

(** There is a bill, [avg_ua] is not zero, and [stdev_pct] is assigned. *)
Definition reportable (x : Home) : Prop :=
  (exists b bs, bills x = Some (b :: bs))
  /\ (exists avg, avg_ua x = Some avg /\ ~ avg == 0)
  /\ (exists pct, stdev_pct x = Some pct).

(** [home_rising] after the customizable method, its first period
    removed. *)
Definition home_rising_custom : Home :=
  Eval vm_compute in
    returned home_fresh
      (calculate_balance_point_and_ua_customizable Qsqrt 10
         (Nat.eqb 0) 2 home_rising).

(** Three periods, the first two with the same data. *)
Definition home_twins : Home :=
  Eval vm_compute in
    returned home_fresh
      (initialize_billing_periods [[50]; [50]; [40]] [24; 24; 60] 0 home_fresh).

(** [home_twins] after the customizable method, its first period removed. *)
Definition home_twins_custom : Home :=
  Eval vm_compute in
    returned home_fresh
      (calculate_balance_point_and_ua_customizable Qsqrt 10
         (Nat.eqb 0) 2 home_twins).

(** ** Calling [calculate_balance_point_and_ua] again *)






(** ** Steps of the search *)

(** The balance point after [n] steps in the direction [d], each computed
    as line 194 computes it. *)
Definition steps_from (balance_point_sensitivity : Q) (d : Z) (n : nat)
    (bp : Q) : Q :=
  Nat.iter n (fun b => fadd b (fmul (inject_Z d) balance_point_sensitivity)) bp.

(** * Properties *)

(** ** The bills that are not removed *)

Lemma in_enumerate_snd : forall (A : Type) (xs : list A) k n x,
  In (n, x) (combine (seq k (length xs)) xs) -> In x xs.
Proof.
  intros A xs. induction xs as [|y xs IH]; intros k n x H; [destruct H|].
  cbn in H. destruct H as [H|H].
  - injection H as _ ->. left. reflexivity.
  - right. apply (IH _ _ _ H).
Qed.

Lemma bills_not_in_incl : forall removed bs, incl (bills_not_in removed bs) bs.
Proof.
  intros removed bs b H. unfold bills_not_in, enumerate in H.
  apply in_map_iff in H. destruct H as ([n x] & <- & H).
  apply filter_In in H. destruct H as [H _].
  apply (in_enumerate_snd _ _ _ _ _ H).
Qed.

Lemma filter_positions_none : forall (A : Type) (removed : nat -> bool)
    (xs : list A) k,
  (forall n, (k <= n < k + length xs)%nat -> removed n = false) ->
  map snd (filter (fun nb => negb (removed (fst nb)))
             (combine (seq k (length xs)) xs)) = xs.
Proof.
  intros A removed xs. induction xs as [|x xs IH]; intros k H; [reflexivity|].
  cbn [length seq combine filter fst]. rewrite (H k) by (cbn; lia).
  cbn. f_equal. apply IH. intros n Hn. apply H. cbn. lia.
Qed.

Lemma filter_positions_all : forall (A : Type) (removed : nat -> bool)
    (xs : list A) k,
  (forall n, (k <= n < k + length xs)%nat -> removed n = true) ->
  map snd (filter (fun nb => negb (removed (fst nb)))
             (combine (seq k (length xs)) xs)) = [].
Proof.
  intros A removed xs. induction xs as [|x xs IH]; intros k H; [reflexivity|].
  cbn [length seq combine filter fst]. rewrite (H k) by (cbn; lia).
  cbn. apply IH. intros n Hn. apply H. cbn. lia.
Qed.

Lemma filter_positions_in : forall (A : Type) (removed : nat -> bool)
    (xs : list A) k n x,
  nth_error xs n = Some x -> removed (k + n)%nat = false ->
  In x (map snd (filter (fun nb => negb (removed (fst nb)))
                   (combine (seq k (length xs)) xs))).
Proof.
  intros A removed xs. induction xs as [|y xs IH]; intros k n x Hn Hr.
  - destruct n; discriminate.
  - cbn [length seq combine filter fst]. destruct n as [|n].
    + cbn in Hn. injection Hn as ->. rewrite Nat.add_0_r in Hr. rewrite Hr.
      left. reflexivity.
    + cbn in Hn.
      assert (Hin : In x (map snd (filter (fun nb => negb (removed (fst nb)))
                                     (combine (seq (S k) (length xs)) xs)))).
      { apply (IH (S k) n x Hn). rewrite <- Hr. f_equal. lia. }
      destruct (negb (removed k)); [right; exact Hin|exact Hin].
Qed.

Lemma bills_not_in_position : forall removed bs n b,
  nth_error bs n = Some b -> removed n = false ->
  In b (bills_not_in removed bs).
Proof.
  intros removed bs n b Hn Hr.
  apply (filter_positions_in _ removed bs 0 n b Hn Hr).
Qed.

Lemma bills_not_in_none : forall removed bs,
  (forall n, (n < length bs)%nat -> removed n = false) ->
  bills_not_in removed bs = bs.
Proof.
  intros removed bs H. apply filter_positions_none.
  intros n Hn. apply H. lia.
Qed.

Lemma bills_not_in_all : forall removed bs,
  (forall n, (n < length bs)%nat -> removed n = true) ->
  bills_not_in removed bs = [].
Proof.
  intros removed bs H. apply filter_positions_all.
  intros n Hn. apply H. lia.
Qed.

(** ** Numbers *)

Lemma flt_true : forall x y, flt x y = true <-> x < y.
Proof.
  intros x y. unfold flt. rewrite negb_true_iff.
  split; intro H.
  - apply Qnot_le_lt. intro Hle. apply Qle_bool_iff in Hle. congruence.
  - destruct (Qle_bool y x) eqn:E; [|reflexivity].
    apply Qle_bool_iff in E. exfalso. apply (Qlt_not_le _ _ H E).
Qed.

Lemma flt_false : forall x y, flt x y = false <-> y <= x.
Proof.
  intros x y. unfold flt. rewrite negb_false_iff. apply Qle_bool_iff.
Qed.

Lemma fdiv_zero : forall x y, y == 0 -> fdiv x y = Raise ZeroDivisionError.
Proof.
  intros x y H. unfold fdiv. apply Qeq_bool_iff in H. rewrite H. reflexivity.
Qed.

Lemma fdiv_nonzero : forall x y, ~ y == 0 -> fdiv x y = Ok (Qred (x / y)).
Proof.
  intros x y H. unfold fdiv. destruct (Qeq_bool y 0) eqn:E; [|reflexivity].
  apply Qeq_bool_iff in E. contradiction.
Qed.

Lemma fdiv_inv : forall x y r, fdiv x y = Ok r -> ~ y == 0 /\ r = Qred (x / y).
Proof.
  intros x y r. unfold fdiv. destruct (Qeq_bool y 0) eqn:E; [discriminate|].
  intro H. injection H as <-. split; [|reflexivity].
  intro Hy. apply Qeq_bool_iff in Hy. congruence.
Qed.

Lemma same_true : forall x y, same x y = true <-> x = y.
Proof.
  intros [a b] [c d]. unfold same. simpl. rewrite andb_true_iff, Z.eqb_eq, Pos.eqb_eq.
  split; [intros [-> ->]; reflexivity | intro H; injection H; auto].
Qed.

Lemma of_nat_zero : forall n, of_nat n == 0 -> n = O.
Proof.
  intros n H. unfold of_nat, Qeq in H. simpl in H. lia.
Qed.

(** ** Degree days *)

Lemma hdd_nonneg : forall t bp, 0 <= hdd t bp.
Proof.
  intros t bp. unfold hdd. cbv zeta.
  destruct (flt (fsub bp t) 0) eqn:E.
  - apply Qle_refl.
  - apply flt_false in E. exact E.
Qed.

Example hdd_above : hdd 70 60 = 0.
Proof. reflexivity. Qed.

Example hdd_below : hdd 50 60 = 10.
Proof. reflexivity. Qed.

Example period_hdd_three_days : period_hdd [50; 55; 65] 60 = 15.
Proof. reflexivity. Qed.

Lemma hdd_value : forall t bp,
  (bp - t < 0 -> hdd t bp = 0) /\ (0 <= bp - t -> hdd t bp == bp - t).
Proof.
  intros t bp. unfold hdd. cbv zeta. split; intro H.
  - assert (E : flt (fsub bp t) 0 = true).
    { apply flt_true. unfold fsub. rewrite Qred_correct. exact H. }
    rewrite E. reflexivity.
  - assert (E : flt (fsub bp t) 0 = false).
    { apply flt_false. unfold fsub. rewrite Qred_correct. exact H. }
    rewrite E. unfold fsub. apply Qred_correct.
Qed.

Lemma py_sum_empty : py_sum [] = 0.
Proof. reflexivity. Qed.

Lemma period_hdd_empty : forall bp, period_hdd [] bp = 0.
Proof. reflexivity. Qed.

(** ** BillingPeriod.__init__ *)

Lemma calculate_partial_ua_ok : forall d a home,
  exists p, calculate_partial_ua d a home = Ok p.
Proof.
  intros d a home. unfold calculate_partial_ua. eexists.
  apply fdiv_nonzero. discriminate.
Qed.

Lemma BillingPeriod_init_zero_hdd : forall temps u home,
  period_hdd temps (balance_point home) == 0 ->
  exists e, BillingPeriod_init temps u home = Raise e
            /\ (avg_non_heating_usage home <> None -> e = ZeroDivisionError).
Proof.
  intros temps u home Hz. unfold BillingPeriod_init. cbv zeta.
  destruct temps as [|t temps].
  - exists ZeroDivisionError. split; [|reflexivity]. reflexivity.
  - rewrite fdiv_nonzero by (intro H; apply of_nat_zero in H; discriminate).
    cbn [bind].
    destruct (avg_non_heating_usage home) as [a|].
    + cbn [getattr bind].
      destruct (calculate_partial_ua_ok (length (t :: temps))
                  (fsub (Qred (u / of_nat (length (t :: temps)))) a) home) as [p Hp].
      rewrite Hp. cbn [bind]. rewrite (fdiv_zero _ _ Hz).
      exists ZeroDivisionError. split; reflexivity.
    + exists AttributeError. split; [reflexivity|]. intro H. congruence.
Qed.

Lemma BillingPeriod_init_positive_hdd : forall temps u home a,
  avg_non_heating_usage home = Some a ->
  0 < period_hdd temps (balance_point home) ->
  exists b, BillingPeriod_init temps u home = Ok b
            /\ avg_temps b = temps
            /\ total_hdd b = period_hdd temps (balance_point home)
            /\ fdiv (partial_ua b) (total_hdd b) = Ok (ua b).
Proof.
  intros temps u home a Ha Hpos. unfold BillingPeriod_init. cbv zeta.
  destruct temps as [|t temps].
  - rewrite period_hdd_empty in Hpos. exfalso. apply (Qlt_irrefl 0 Hpos).
  - rewrite fdiv_nonzero by (intro H; apply of_nat_zero in H; discriminate).
    cbn [bind]. rewrite Ha. cbn [getattr bind].
    destruct (calculate_partial_ua_ok (length (t :: temps))
                (fsub (Qred (u / of_nat (length (t :: temps)))) a) home) as [p Hp].
    rewrite Hp. cbn [bind].
    assert (Hnz : ~ period_hdd (t :: temps) (balance_point home) == 0).
    { intro H. rewrite H in Hpos. apply (Qlt_irrefl 0 Hpos). }
    rewrite (fdiv_nonzero _ _ Hnz). cbn [bind].
    eexists. split; [reflexivity|]. cbn.
    split; [reflexivity|]. split; [reflexivity|].
    apply fdiv_nonzero. exact Hnz.
Qed.

(** ** Comprehensions, enumerate, pop *)

Lemma mapM_ext_in : forall (A B : Type) (f g : A -> result B) xs,
  (forall x, In x xs -> f x = g x) -> mapM f xs = mapM g xs.
Proof.
  intros A B f g xs. induction xs as [|x xs IH]; intro H; [reflexivity|].
  cbn [mapM]. rewrite (H x (or_introl eq_refl)).
  rewrite IH; [reflexivity|]. intros y Hy. apply H. right. exact Hy.
Qed.

Lemma mapM_map : forall (A B C : Type) (f : B -> result C) (g : A -> B) xs,
  mapM f (map g xs) = mapM (fun x => f (g x)) xs.
Proof.
  intros A B C f g xs. induction xs as [|x xs IH]; [reflexivity|].
  cbn [mapM map]. rewrite IH. reflexivity.
Qed.

Lemma mapM_pure : forall (A B : Type) (g : A -> B) xs,
  mapM (fun x => Ok (g x)) xs = Ok (map g xs).
Proof.
  intros A B g xs. induction xs as [|x xs IH]; [reflexivity|].
  cbn [mapM map bind]. rewrite IH. reflexivity.
Qed.

Lemma mapM_length : forall (A B : Type) (f : A -> result B) xs ys,
  mapM f xs = Ok ys -> length ys = length xs.
Proof.
  intros A B f xs. induction xs as [|x xs IH]; intros ys H.
  - injection H as <-. reflexivity.
  - cbn [mapM] in H. destruct (f x) as [y| |]; try discriminate.
    cbn [bind] in H. destruct (mapM f xs) as [zs| |] eqn:E; try discriminate.
    injection H as <-. cbn. f_equal. apply IH. reflexivity.
Qed.

Lemma mapM_nth : forall (A B : Type) (f : A -> result B) xs ys n x,
  mapM f xs = Ok ys -> nth_error xs n = Some x ->
  exists y, nth_error ys n = Some y /\ f x = Ok y.
Proof.
  intros A B f xs. induction xs as [|x0 xs IH]; intros ys n x H Hn.
  - destruct n; discriminate.
  - cbn [mapM] in H. destruct (f x0) as [y0| |] eqn:E0; try discriminate.
    cbn [bind] in H. destruct (mapM f xs) as [zs| |] eqn:E; try discriminate.
    injection H as <-. destruct n as [|n].
    + injection Hn as <-. exists y0. split; [reflexivity|exact E0].
    + cbn in Hn. cbn. apply (IH zs n x eq_refl Hn).
Qed.

Lemma in_enumerate_from : forall (A : Type) (xs : list A) off n x,
  In (n, x) (combine (seq off (length xs)) xs) ->
  (off <= n)%nat /\ nth_error xs (n - off) = Some x.
Proof.
  intros A xs. induction xs as [|x0 xs IH]; intros off n x H.
  - destruct H.
  - cbn in H. destruct H as [H|H].
    + injection H as <- <-. split; [lia|]. rewrite Nat.sub_diag. reflexivity.
    + apply IH in H. destruct H as [Hle Hn]. split; [lia|].
      replace (n - off)%nat with (S (n - S off)) by lia. exact Hn.
Qed.

Lemma in_enumerate : forall (A : Type) (xs : list A) n x,
  In (n, x) (enumerate xs) -> nth_error xs n = Some x.
Proof.
  intros A xs n x H. apply in_enumerate_from in H.
  rewrite Nat.sub_0_r in H. apply H.
Qed.

Lemma map_snd_enumerate : forall (A : Type) (xs : list A),
  map snd (enumerate xs) = xs.
Proof.
  intros A xs. unfold enumerate. generalize 0%nat.
  induction xs as [|x xs IH]; intro off; [reflexivity|].
  cbn. f_equal. apply IH.
Qed.

(** A comprehension over [enumerate(xs)] that uses the index only to look
    up what belongs to the element. *)
Lemma mapM_enumerate : forall (A B : Type) (F : nat * A -> result B)
    (G : A -> result B) xs,
  (forall n x, nth_error xs n = Some x -> F (n, x) = G x) ->
  mapM F (enumerate xs) = mapM G xs.
Proof.
  intros A B F G xs H.
  rewrite (mapM_ext_in _ _ F (fun p => G (snd p))).
  - rewrite <- (mapM_map _ _ _ G snd). rewrite map_snd_enumerate. reflexivity.
  - intros [n x] Hin. cbn [snd]. apply H. apply in_enumerate. exact Hin.
Qed.

Lemma index_map : forall (A B : Type) (g : A -> B) xs n x,
  nth_error xs n = Some x -> index (map g xs) n = Ok (g x).
Proof.
  intros A B g xs n x H. unfold index. rewrite nth_error_map, H. reflexivity.
Qed.

Lemma pop_inv : forall (A : Type) (xs : list A) i y rest,
  pop i xs = Ok (y, rest) ->
  nth_error xs i = Some y
  /\ rest = firstn i xs ++ skipn (S i) xs
  /\ Permutation xs (y :: rest).
Proof.
  intros A xs. induction xs as [|x xs IH]; intros i y rest H.
  - destruct i; discriminate.
  - destruct i as [|i].
    + injection H as <- <-. repeat split. apply Permutation_refl.
    + cbn [pop] in H. destruct (pop i xs) as [[y' rest']| |] eqn:E; try discriminate.
      cbn in H. injection H as <- <-.
      destruct (IH i y' rest' E) as (Hn & Hr & Hp).
      split; [exact Hn|]. split.
      * cbn. f_equal. exact Hr.
      * eapply Permutation_trans; [apply perm_skip; exact Hp|]. apply perm_swap.
Qed.

Lemma pop_in_range : forall (A : Type) (xs : list A) i x,
  nth_error xs i = Some x -> exists rest, pop i xs = Ok (x, rest).
Proof.
  intros A xs. induction xs as [|x0 xs IH]; intros i x H.
  - destruct i; discriminate.
  - destruct i as [|i].
    + injection H as <-. eexists. reflexivity.
    + cbn in H. destruct (IH i x H) as [rest Hr]. cbn [pop]. rewrite Hr.
      eexists. reflexivity.
Qed.

(** ** numpy.argmax *)

Lemma argmax_from_first_maximum : forall xs pre best_i best,
  nth_error pre best_i = Some best ->
  (forall j w, nth_error pre j = Some w -> w <= best) ->
  (forall j w, (j < best_i)%nat -> nth_error pre j = Some w -> w < best) ->
  first_maximum (pre ++ xs) (argmax_from best_i best (length pre) xs).
Proof.
  induction xs as [|x rest IH]; intros pre best_i best Hb Hall Hbefore.
  - cbn [argmax_from]. rewrite app_nil_r. exists best. auto.
  - assert (Hlt : (best_i < length pre)%nat)
      by (apply nth_error_Some; congruence).
    cbn [argmax_from].
    replace (pre ++ x :: rest) with ((pre ++ [x]) ++ rest)
      by (rewrite <- app_assoc; reflexivity).
    replace (S (length pre)) with (length (pre ++ [x]))
      by (rewrite length_app; cbn; lia).
    destruct (flt best x) eqn:E.
    + apply flt_true in E.
      replace (length pre) with (length pre + 0)%nat at 1 by lia.
      apply IH.
      * rewrite Nat.add_0_r, nth_error_app2, Nat.sub_diag by lia. reflexivity.
      * intros j w Hj. destruct (Nat.lt_ge_cases j (length pre)) as [Hl|Hl].
        -- rewrite nth_error_app1 in Hj by exact Hl.
           apply Qlt_le_weak. eapply Qle_lt_trans; [apply (Hall j w Hj)|exact E].
        -- rewrite nth_error_app2 in Hj by exact Hl.
           destruct (j - length pre)%nat as [|k]; cbn in Hj.
           ++ injection Hj as <-. apply Qle_refl.
           ++ destruct k; discriminate.
      * intros j w Hl Hj. rewrite Nat.add_0_r in Hl.
        rewrite nth_error_app1 in Hj by exact Hl.
        eapply Qle_lt_trans; [apply (Hall j w Hj)|exact E].
    + apply flt_false in E. apply IH.
      * rewrite nth_error_app1 by exact Hlt. exact Hb.
      * intros j w Hj. destruct (Nat.lt_ge_cases j (length pre)) as [Hl|Hl].
        -- rewrite nth_error_app1 in Hj by exact Hl. apply (Hall j w Hj).
        -- rewrite nth_error_app2 in Hj by exact Hl.
           destruct (j - length pre)%nat as [|k]; cbn in Hj.
           ++ injection Hj as <-. exact E.
           ++ destruct k; discriminate.
      * intros j w Hl Hj.
        rewrite nth_error_app1 in Hj by lia. apply (Hbefore j w Hl Hj).
Qed.

Lemma argmax_first_maximum : forall xs i,
  argmax xs = Ok i -> first_maximum xs i.
Proof.
  intros [|x rest] i H; [discriminate|].
  injection H as <-.
  apply (argmax_from_first_maximum rest [x] 0%nat x).
  - reflexivity.
  - intros [|[|j]] w Hj; try discriminate. injection Hj as <-. apply Qle_refl.
  - intros j w Hj. lia.
Qed.

Lemma argmax_nonempty : forall x rest, exists i, argmax (x :: rest) = Ok i.
Proof. intros x rest. eexists. reflexivity. Qed.

(** ** While loops *)

Lemma reaches_invariant : forall (S : Type) (body : S -> result (ctl S))
    (P : S -> Prop),
  (forall s s', P s -> body s = Ok (Continue s') -> P s') ->
  forall s s', P s -> reaches body s s' -> P s'.
Proof.
  intros S body P Hstep s s' Hs Hr. induction Hr as [s|s s1 s2 Hb Hr IH].
  - exact Hs.
  - apply IH. apply (Hstep s s1 Hs Hb).
Qed.

Lemma reaches_trans : forall (S : Type) (body : S -> result (ctl S)) a b c,
  reaches body a b -> reaches body b c -> reaches body a c.
Proof.
  intros S body a b c Hab Hbc. induction Hab as [s|s s1 s2 Hb Hr IH].
  - exact Hbc.
  - eapply reaches_next; [exact Hb|]. apply IH. exact Hbc.
Qed.

(** A loop that returns left through a break at a state it reached. *)
Lemma while_loop_returns : forall (S : Type) (body : S -> result (ctl S))
    fuel s s',
  while_loop fuel body s = Ok s' ->
  exists s_last, reaches body s s_last /\ body s_last = Ok (Break s').
Proof.
  intros S body fuel. induction fuel as [|fuel IH]; intros s s' H.
  - discriminate.
  - cbn [while_loop] in H. destruct (body s) as [[s1|s1]| |] eqn:E; try discriminate.
    + cbn [bind] in H. destruct (IH s1 s' H) as (sl & Hr & Hb).
      exists sl. split; [|exact Hb]. eapply reaches_next; eassumption.
    + cbn [bind] in H. injection H as <-. exists s. split; [constructor|exact E].
Qed.

Lemma while_loop_more_fuel : forall (S : Type) (body : S -> result (ctl S))
    fuel fuel' s s',
  (fuel <= fuel')%nat ->
  while_loop fuel body s = Ok s' -> while_loop fuel' body s = Ok s'.
Proof.
  intros S body fuel. induction fuel as [|fuel IH]; intros fuel' s s' Hle H.
  - discriminate.
  - destruct fuel' as [|fuel']; [lia|].
    cbn [while_loop] in *. destruct (body s) as [[s1|s1]| |]; try discriminate.
    + cbn [bind] in *. apply IH; [lia|exact H].
    + exact H.
Qed.

Lemma loop_states_reaches : forall (S : Type) (body : S -> result (ctl S))
    fuel s s',
  In s' (loop_states fuel body s) -> reaches body s s'.
Proof.
  intros S body fuel. induction fuel as [|fuel IH]; intros s s' H.
  - destruct H as [<-|[]]. constructor.
  - cbn [loop_states] in H. destruct H as [<-|H]; [constructor|].
    destruct (body s) as [[s1|s1]| |] eqn:E; try contradiction.
    eapply reaches_next; [exact E|]. apply IH. exact H.
Qed.

(** Two states that follow each other at the head of the loop are one pass
    of the body apart. *)
Lemma loop_states_consecutive : forall (S : Type) (body : S -> result (ctl S))
    fuel s k a b,
  nth_error (loop_states fuel body s) k = Some a ->
  nth_error (loop_states fuel body s) (Datatypes.S k) = Some b ->
  reaches body s a /\ body a = Ok (Continue b).
Proof.
  intros S body fuel. induction fuel as [|fuel IH]; intros s k a b Ha Hb.
  - destruct k; cbn in Hb; [discriminate|]. destruct k; discriminate.
  - cbn [loop_states] in Ha, Hb.
    destruct (body s) as [[s1|s1]| |] eqn:E;
      try (cbn in Hb; destruct k; discriminate).
    destruct k as [|k].
    + cbn in Ha. injection Ha as <-. split; [constructor|].
      cbn in Hb. destruct fuel; cbn in Hb; injection Hb as <-; exact E.
    + cbn in Ha, Hb. destruct (IH s1 k a b Ha Hb) as [Hr Hbody].
      split; [|exact Hbody]. eapply reaches_next; eassumption.
Qed.

Section Refine.

Variable sqrt : Q -> Q.

(** ** One trial *)

Lemma store_trial_resync : forall bp bs us,
  mapM (fun b => fdiv (partial_ua b) (period_hdd (avg_temps b) bp)) bs = Ok us ->
  store_trial (map (fun b => period_hdd (avg_temps b) bp) bs) us bs
  = Ok (map (resync bp) bs).
Proof.
  intros bp bs us Hus. unfold store_trial.
  rewrite (mapM_enumerate _ _ _ (fun b => Ok (resync bp b))).
  - apply mapM_pure.
  - intros n b Hn.
    rewrite (index_map _ _ (fun b => period_hdd (avg_temps b) bp) bs n b Hn).
    cbn [bind].
    destruct (mapM_nth _ _ _ _ _ _ _ Hus Hn) as (y & Hy & Hdiv).
    unfold index. rewrite Hy. cbn [bind].
    apply fdiv_inv in Hdiv. destruct Hdiv as [_ ->]. reflexivity.
Qed.

Lemma try_balance_point_eq : forall s d h,
  try_balance_point sqrt s d h =
  if flt (thermostat_set_point h) (trial_point s d h) then Ok Infeasible
  else
    bs <- getattr (bills h) ;;
    '(uas_i, avg_ua_i, stdev_pct_i) <- trial_statistics sqrt bs (trial_point s d h) ;;
    current <- getattr (stdev_pct h) ;;
    if flt stdev_pct_i current then
      Ok (Improved
            (set_bills
               (set_stdev_pct
                  (set_avg_ua (set_balance_point h (trial_point s d h)) avg_ua_i)
                  stdev_pct_i)
               (map (resync (trial_point s d h)) bs)))
    else Ok NotImproved.
Proof.
  intros s d h. unfold try_balance_point, trial_statistics. cbv zeta.
  fold (trial_point s d h).
  destruct (flt (thermostat_set_point h) (trial_point s d h)); [reflexivity|].
  destruct (bills h) as [bs|]; [|reflexivity]. cbn [getattr bind].
  rewrite (mapM_enumerate _ _ _
             (fun b => fdiv (partial_ua b)
                         (period_hdd (avg_temps b) (trial_point s d h)))).
  2:{ intros n b Hn.
      rewrite (index_map _ _ (fun b => period_hdd (avg_temps b) (trial_point s d h))
                 bs n b Hn).
      reflexivity. }
  destruct (mapM _ bs) as [us| |] eqn:Hus; try reflexivity. cbn [bind].
  destruct (mean us) as [avg| |]; try reflexivity. cbn [bind].
  destruct (pstdev sqrt us) as [sd| |]; try reflexivity. cbn [bind].
  destruct (fdiv sd avg) as [pct| |]; try reflexivity. cbn [bind].
  destruct (stdev_pct h) as [cur|]; [|reflexivity]. cbn [getattr bind].
  destruct (flt pct cur); [|reflexivity].
  rewrite (store_trial_resync _ _ _ Hus). reflexivity.
Qed.

(** What a committed trial says about the home before and after it. *)
Lemma try_improved_inv : forall s d h h',
  try_balance_point sqrt s d h = Ok (Improved h') ->
  exists bs uas_i avg_ua_i stdev_pct_i current,
    bills h = Some bs
    /\ trial_point s d h <= thermostat_set_point h
    /\ trial_statistics sqrt bs (trial_point s d h)
       = Ok (uas_i, avg_ua_i, stdev_pct_i)
    /\ stdev_pct h = Some current
    /\ stdev_pct_i < current
    /\ h' = set_bills
              (set_stdev_pct
                 (set_avg_ua (set_balance_point h (trial_point s d h)) avg_ua_i)
                 stdev_pct_i)
              (map (resync (trial_point s d h)) bs).
Proof.
  intros s d h h' H. rewrite try_balance_point_eq in H.
  destruct (flt (thermostat_set_point h) (trial_point s d h)) eqn:Et;
    [discriminate|].
  apply flt_false in Et.
  destruct (bills h) as [bs|]; [|discriminate]. cbn [getattr bind] in H.
  destruct (trial_statistics sqrt bs (trial_point s d h))
    as [[[us avg] pct]| |] eqn:Es; try discriminate.
  cbn [bind] in H.
  destruct (stdev_pct h) as [cur|]; [|discriminate]. cbn [getattr bind] in H.
  destruct (flt pct cur) eqn:El; [|discriminate].
  apply flt_true in El. injection H as <-.
  exists bs, us, avg, pct, cur.
  split; [reflexivity|]. split; [exact Et|]. split; [exact Es|].
  split; [reflexivity|]. split; [exact El|reflexivity].
Qed.

(** ** One pass of the search loop *)

Lemma refine_body_continue : forall s dirs h dirs' h',
  refine_body sqrt s (dirs, h) = Ok (Continue (dirs', h')) ->
  exists d rest, dirs = d :: rest
    /\ ((try_balance_point sqrt s d h = Ok NotImproved
         /\ h' = h /\ dirs' = rest)
        \/ (try_balance_point sqrt s d h = Ok (Improved h')
            /\ dirs' = if Nat.eqb (length dirs) 2 then removelast dirs else dirs)).
Proof.
  intros s dirs h dirs' h' H. unfold refine_body in H.
  destruct dirs as [|d rest]; [discriminate|].
  exists d, rest. split; [reflexivity|].
  destruct (try_balance_point sqrt s d h) as [[|h1|]| |]; try discriminate;
    cbn [bind] in H.
  - right. destruct (Nat.eqb (length (d :: rest)) 2);
      injection H as <- <-; split; reflexivity.
  - left. injection H as <- <-. repeat split.
Qed.

Lemma refine_body_break : forall s dirs h st,
  refine_body sqrt s (dirs, h) = Ok (Break st) ->
  st = (dirs, h)
  /\ (dirs = []
      \/ exists d rest, dirs = d :: rest
                        /\ try_balance_point sqrt s d h = Ok Infeasible).
Proof.
  intros s dirs h st H. unfold refine_body in H.
  destruct dirs as [|d rest].
  - injection H as <-. split; [reflexivity|]. left. reflexivity.
  - destruct (try_balance_point sqrt s d h) as [[|h1|]| |] eqn:E;
      try discriminate; cbn [bind] in H.
    + injection H as <-. split; [reflexivity|]. right. exists d, rest. auto.
    + destruct (Nat.eqb (length (d :: rest)) 2); discriminate.
Qed.

Lemma refine_balance_point_returns : forall fuel s h h',
  refine_balance_point sqrt fuel s h = Ok h' ->
  exists dirs, reaches (refine_body sqrt s) ([1%Z; (-1)%Z], h) (dirs, h')
               /\ refine_body sqrt s (dirs, h') = Ok (Break (dirs, h')).
Proof.
  intros fuel s h h' H. unfold refine_balance_point in H.
  destruct (while_loop fuel (refine_body sqrt s) ([1%Z; (-1)%Z], h))
    as [[dirs hf]| |] eqn:E; try discriminate.
  cbn in H. injection H as <-.
  apply while_loop_returns in E. destruct E as ([dl hl] & Hr & Hb).
  destruct (refine_body_break _ _ _ _ Hb) as [Heq _].
  injection Heq as <- <-. exists dirs. split; [exact Hr|exact Hb].
Qed.

Lemma refine_reads_result : forall fuel s h h',
  refine_balance_point sqrt fuel s h = Ok h' -> refine_reads sqrt s h h'.
Proof.
  intros fuel s h h' H. apply refine_balance_point_returns in H.
  destruct H as (dirs & Hr & _). econstructor. exact Hr.
Qed.

(** An invariant of the home that every committed trial keeps holds of every
    home the search reads, and of the home it returns. *)
Lemma refine_reads_invariant : forall (P : Home -> Prop) s,
  (forall d h h', P h -> try_balance_point sqrt s d h = Ok (Improved h') -> P h') ->
  forall h0 h, P h0 -> refine_reads sqrt s h0 h -> P h.
Proof.
  intros P s Hstep h0 h H0 Hr. destruct Hr as [dirs h Hr].
  apply (reaches_invariant _ (refine_body sqrt s) (fun st => P (snd st)))
    with (s := ([1%Z; (-1)%Z], h0)) (s' := (dirs, h)); [|exact H0|exact Hr].
  intros [d1 h1] [d2 h2] HP Hb. cbn [snd] in *.
  apply refine_body_continue in Hb.
  destruct Hb as (d & rest & -> & [(_ & -> & _)|(Ht & _)]).
  - exact HP.
  - apply (Hstep d h1 h2 HP Ht).
Qed.

End Refine.

Section Outliers.

Variable sqrt : Q -> Q.

(** ** The outlier step *)

Lemma biggest_outlier_idx_inv : forall h idx,
  biggest_outlier_idx h = Ok idx ->
  exists bs avg,
    bills h = Some bs /\ avg_ua h = Some avg
    /\ argmax (map (fun bill => fabs (fsub (ua bill) avg)) bs) = Ok idx.
Proof.
  intros h idx H. unfold biggest_outlier_idx in H.
  destruct (bills h) as [bs|]; [|discriminate]. cbn [getattr bind] in H.
  destruct bs as [|b bs]; [discriminate|].
  destruct (avg_ua h) as [avg|]; [|discriminate].
  cbn [getattr bind] in H.
  change (fun bill : BillingPeriod => Ok (fabs (fsub (ua bill) avg)))
    with (fun bill : BillingPeriod =>
            @Ok Q ((fun bill' => fabs (fsub (ua bill') avg)) bill)) in H.
  rewrite mapM_pure in H. cbn [bind] in H.
  exists (b :: bs), avg. auto.
Qed.

Lemma exclude_outlier_inv : forall h outlier h1 uas_i avg_ua_i stdev_pct_i,
  exclude_outlier sqrt h = Ok (outlier, h1, (uas_i, avg_ua_i, stdev_pct_i)) ->
  exists bs avg idx rest sd,
    bills h = Some bs /\ avg_ua h = Some avg
    /\ argmax (map (fun bill => fabs (fsub (ua bill) avg)) bs) = Ok idx
    /\ pop idx bs = Ok (outlier, rest)
    /\ h1 = set_bills h rest
    /\ uas_i = map ua rest
    /\ mean uas_i = Ok avg_ua_i
    /\ pstdev sqrt uas_i = Ok sd
    /\ fdiv sd avg_ua_i = Ok stdev_pct_i.
Proof.
  intros h outlier h1 uas_i avg_ua_i stdev_pct_i H. unfold exclude_outlier in H.
  destruct (biggest_outlier_idx h) as [idx| |] eqn:Ei; try discriminate.
  cbn [bind] in H.
  destruct (biggest_outlier_idx_inv _ _ Ei) as (bs & avg & Hb & Ha & Harg).
  rewrite Hb in H. cbn [getattr bind] in H.
  destruct (pop idx bs) as [[o rest]| |] eqn:Ep; try discriminate.
  cbn [bind] in H. cbv zeta in H.
  destruct (mean (map ua rest)) as [m| |] eqn:Em; try discriminate.
  cbn [bind] in H.
  destruct (pstdev sqrt (map ua rest)) as [sd| |] eqn:Es; try discriminate.
  cbn [bind] in H.
  destruct (fdiv sd m) as [pct| |] eqn:Ed; try discriminate.
  cbn [bind] in H. injection H as <- <- <- <- <-.
  exists bs, avg, idx, rest, sd.
  repeat (split; [first [assumption|reflexivity]|]). exact Ed.
Qed.

(** The three ways one pass of the outlier loop can end without raising. *)
Lemma outlier_body_inv : forall fuel mx diff nxt h c,
  outlier_body sqrt fuel mx diff nxt h = Ok c ->
  exists current, stdev_pct h = Some current
  /\ ((flt mx current = false /\ c = Break h)
      \/ (flt mx current = true
          /\ exists outlier h1 uas_i avg_ua_i stdev_pct_i,
               exclude_outlier sqrt h
               = Ok (outlier, h1, (uas_i, avg_ua_i, stdev_pct_i))
               /\ ((flt (fsub current stdev_pct_i) diff = true
                    /\ exists rest, bills h1 = Some rest
                                    /\ c = Break (set_bills h1 (rest ++ [outlier])))
                   \/ (flt (fsub current stdev_pct_i) diff = false
                       /\ exists h3,
                            refine_balance_point sqrt fuel nxt
                              (set_stdev_pct
                                 (set_avg_ua (set_uas h1 uas_i) avg_ua_i)
                                 stdev_pct_i) = Ok h3
                            /\ c = Continue h3)))).
Proof.
  intros fuel mx diff nxt h c H. unfold outlier_body in H.
  destruct (stdev_pct h) as [cur|]; [|discriminate]. cbn [getattr bind] in H.
  exists cur. split; [reflexivity|].
  destruct (flt mx cur) eqn:Em.
  - right. split; [reflexivity|].
    destruct (exclude_outlier sqrt h) as [[[o h1] [[us avg] pct]]| |] eqn:Ee;
      try discriminate.
    cbn [bind] in H. exists o, h1, us, avg, pct. split; [reflexivity|].
    destruct (flt (fsub cur pct) diff) eqn:Ed.
    + left. split; [reflexivity|].
      destruct (bills h1) as [rest|]; [|discriminate]. cbn [getattr bind] in H.
      injection H as <-. exists rest. auto.
    + right. split; [reflexivity|]. cbv zeta in H.
      destruct (refine_balance_point sqrt fuel nxt _) as [h3| |] eqn:Er;
        try discriminate.
      cbn [bind] in H. injection H as <-. exists h3. auto.
  - left. injection H as <-. auto.
Qed.

(** ** Invariants of the home

    A property of the home that survives the assignments to [uas],
    [avg_ua], [stdev_pct], the removal or reordering of bills, and every
    committed trial holds wherever the two methods read the home, and of the
    home they return. *)
Section Invariant.

Variable P : Home -> Prop.
Hypothesis P_uas : forall h x, P h -> P (set_uas h x).
Hypothesis P_avg_ua : forall h x, P h -> P (set_avg_ua h x).
Hypothesis P_stdev_pct : forall h x, P h -> P (set_stdev_pct h x).
Hypothesis P_bills : forall h bs bs',
  bills h = Some bs -> incl bs' bs -> P h -> P (set_bills h bs').
Hypothesis P_trial : forall s d h h',
  P h -> try_balance_point sqrt s d h = Ok (Improved h') -> P h'.

Lemma compute_statistics_invariant : forall h h1,
  P h -> compute_statistics sqrt h = Ok h1 -> P h1.
Proof.
  intros h h1 HP H. unfold compute_statistics in H.
  destruct (bills h) as [bs|]; [|discriminate]. cbn [getattr bind] in H.
  cbv zeta in H.
  destruct (mean (map ua bs)) as [m| |]; try discriminate. cbn [bind] in H.
  destruct (pstdev sqrt (map ua bs)) as [sd| |]; try discriminate.
  cbn [bind] in H.
  destruct (fdiv sd m) as [pct| |]; try discriminate. cbn [bind] in H.
  injection H as <-. auto.
Qed.

Lemma refine_reads_keeps : forall s h0 h,
  P h0 -> refine_reads sqrt s h0 h -> P h.
Proof.
  intros s h0 h H0 Hr.
  apply (refine_reads_invariant sqrt P s) with (h0 := h0); auto.
  intros d h1 h2. apply P_trial.
Qed.

Lemma refine_balance_point_invariant : forall fuel s h h',
  P h -> refine_balance_point sqrt fuel s h = Ok h' -> P h'.
Proof.
  intros fuel s h h' HP H. apply (refine_reads_keeps s h h' HP).
  apply (refine_reads_result sqrt fuel). exact H.
Qed.

Lemma exclude_outlier_invariant : forall h outlier h1 stats,
  P h -> exclude_outlier sqrt h = Ok (outlier, h1, stats) -> P h1.
Proof.
  intros h o h1 [[us avg] pct] HP H.
  apply exclude_outlier_inv in H.
  destruct H as (bs & a & idx & rest & sd & Hb & _ & _ & Hp & -> & _).
  apply (P_bills h bs rest Hb); [|exact HP].
  apply pop_inv in Hp. destruct Hp as (_ & _ & Hperm).
  intros x Hx. apply (Permutation_in x (Permutation_sym Hperm)). right. exact Hx.
Qed.

Lemma outlier_body_invariant : forall fuel mx diff nxt h c,
  P h -> outlier_body sqrt fuel mx diff nxt h = Ok c ->
  match c with Continue h' => P h' | Break h' => P h' end.
Proof.
  intros fuel mx diff nxt h c HP H. apply outlier_body_inv in H.
  destruct H as (cur & Hc & [[_ ->]|[_ H]]); [exact HP|].
  destruct H as (o & h1 & us & avg & pct & He & H).
  pose proof (exclude_outlier_invariant _ _ _ _ HP He) as HP1.
  destruct H as [(_ & rest & Hr & ->)|(_ & h3 & Hr & ->)].
  - apply exclude_outlier_inv in He.
    destruct He as (bs & a & idx & rest' & sd & Hb & _ & _ & Hp & -> & _).
    cbn in Hr. injection Hr as ->.
    change (set_bills (set_bills h rest) (rest ++ [o]))
      with (set_bills h (rest ++ [o])).
    apply (P_bills h bs (rest ++ [o]) Hb); [|exact HP].
    apply pop_inv in Hp. destruct Hp as (_ & _ & Hperm).
    intros x Hx. apply (Permutation_in x (Permutation_sym Hperm)).
    apply in_app_or in Hx. destruct Hx as [Hx|[<-|[]]]; [right|left]; auto.
  - apply (refine_balance_point_invariant _ _ _ _ (P_stdev_pct _ _
             (P_avg_ua _ _ (P_uas _ _ HP1))) Hr).
Qed.

Lemma outlier_loop_reaches_keeps : forall fuel mx diff nxt h h',
  P h -> reaches (outlier_body sqrt fuel mx diff nxt) h h' -> P h'.
Proof.
  intros fuel mx diff nxt h h' HP Hr.
  apply (reaches_invariant _ (outlier_body sqrt fuel mx diff nxt) P)
    with (s := h); [|exact HP|exact Hr].
  intros s s' Hs Hb. apply (outlier_body_invariant _ _ _ _ _ _ Hs Hb).
Qed.

Lemma calculate_invariant : forall fuel ini mx diff nxt h h',
  P h -> calculate_balance_point_and_ua sqrt fuel ini mx diff nxt h = Ok h' ->
  P h'.
Proof.
  intros fuel ini mx diff nxt h h' HP H.
  unfold calculate_balance_point_and_ua in H.
  destruct (compute_statistics sqrt h) as [h1| |] eqn:E1; try discriminate.
  cbn [bind] in H.
  destruct (refine_balance_point sqrt fuel ini h1) as [h2| |] eqn:E2;
    try discriminate.
  cbn [bind] in H.
  apply while_loop_returns in H. destruct H as (hl & Hr & Hb).
  assert (HP2 : P h2).
  { apply (refine_balance_point_invariant _ _ _ _
             (compute_statistics_invariant _ _ HP E1) E2). }
  apply (outlier_body_invariant _ _ _ _ _ _
           (outlier_loop_reaches_keeps _ _ _ _ _ _ HP2 Hr) Hb).
Qed.

Lemma calculate_reads_invariant : forall fuel ini mx diff nxt h0 h,
  P h0 -> calculate_reads sqrt fuel ini mx diff nxt h0 h -> P h.
Proof.
  intros fuel ini mx diff nxt h0 h HP Hr.
  induction Hr as [h1 h E1 Hr|h1 h2 h E1 E2 Hr|h cur o h1 st Hr IH Hc Hm He
                  |h cur o h1 us avg pct h' Hr IH Hc Hm He Hd Hrr].
  - apply (refine_reads_keeps _ _ _ (compute_statistics_invariant _ _ HP E1) Hr).
  - apply (outlier_loop_reaches_keeps _ _ _ _ _ _
             (refine_balance_point_invariant _ _ _ _
                (compute_statistics_invariant _ _ HP E1) E2) Hr).
  - apply (exclude_outlier_invariant _ _ _ _ IH He).
  - apply (refine_reads_keeps _ _ _
             (P_stdev_pct _ _ (P_avg_ua _ _ (P_uas _ _
                (exclude_outlier_invariant _ _ _ _ IH He)))) Hrr).
Qed.

Lemma customizable_invariant : forall fuel removed s h h',
  P h ->
  calculate_balance_point_and_ua_customizable sqrt fuel removed s h = Ok h' ->
  P h'.
Proof.
  intros fuel removed s h h' HP H.
  unfold calculate_balance_point_and_ua_customizable in H.
  destruct (bills h) as [bs|] eqn:Eb; [|discriminate]. cbn [getattr bind] in H.
  cbv zeta in H.
  destruct (mean _) as [m| |]; try discriminate. cbn [bind] in H.
  destruct (pstdev sqrt _) as [sd| |]; try discriminate. cbn [bind] in H.
  destruct (fdiv sd m) as [pct| |]; try discriminate. cbn [bind] in H.
  apply (refine_balance_point_invariant _ _ _ _) in H; [exact H|].
  apply (P_bills _ bs); [exact Eb| |auto].
  apply bills_not_in_incl.
Qed.

End Invariant.
End Outliers.

(** ** Bills in step with the balance point *)

Lemma same_refl : forall x, same x x = true.
Proof. intro x. apply same_true. reflexivity. Qed.

Lemma in_sync_true : forall bp b,
  in_sync bp b = true <->
  total_hdd b = period_hdd (avg_temps b) bp
  /\ fdiv (partial_ua b) (total_hdd b) = Ok (ua b).
Proof.
  intros bp b. unfold in_sync. rewrite andb_true_iff, same_true.
  split; intros [H1 H2]; (split; [exact H1|]).
  - destruct (fdiv (partial_ua b) (total_hdd b)) as [u| |]; try discriminate.
    apply same_true in H2. congruence.
  - rewrite H2. apply same_refl.
Qed.

Lemma synced_true : forall h,
  synced h = true <->
  exists bs, bills h = Some bs
    /\ forall b, In b bs ->
         total_hdd b = period_hdd (avg_temps b) (balance_point h)
         /\ fdiv (partial_ua b) (total_hdd b) = Ok (ua b).
Proof.
  intro h. unfold synced. destruct (bills h) as [bs|].
  - rewrite forallb_forall. split.
    + intro H. exists bs. split; [reflexivity|].
      intros b Hb. apply in_sync_true. apply H. exact Hb.
    + intros (bs' & Heq & H). injection Heq as <-.
      intros b Hb. apply in_sync_true. apply H. exact Hb.
  - split; [discriminate|]. intros (bs & Heq & _). discriminate.
Qed.

Lemma in_sync_resync : forall bp b u,
  fdiv (partial_ua b) (period_hdd (avg_temps b) bp) = Ok u ->
  in_sync bp (resync bp b) = true.
Proof.
  intros bp b u H. apply in_sync_true. cbn. split; [reflexivity|].
  rewrite H. apply fdiv_inv in H. destruct H as [_ ->]. reflexivity.
Qed.

Lemma BillingPeriod_init_in_sync : forall temps u home b,
  BillingPeriod_init temps u home = Ok b ->
  in_sync (balance_point home) b = true.
Proof.
  intros temps u home b H. unfold BillingPeriod_init in H. cbv zeta in H.
  destruct (fdiv u (of_nat (length temps))) as [q| |]; try discriminate.
  cbn [bind] in H.
  destruct (avg_non_heating_usage home) as [a|]; [|discriminate].
  cbn [getattr bind] in H.
  destruct (calculate_partial_ua _ _ home) as [p| |]; try discriminate.
  cbn [bind] in H.
  destruct (fdiv p (period_hdd temps (balance_point home))) as [x| |] eqn:E;
    try discriminate.
  cbn [bind] in H. injection H as <-.
  apply in_sync_true. cbn. split; [reflexivity|exact E].
Qed.

Lemma append_billing_periods_synced : forall indices temps usages h h',
  synced h = true ->
  append_billing_periods indices temps usages h = Ok h' ->
  synced h' = true.
Proof.
  induction indices as [|i rest IH]; intros temps usages h h' Hs H.
  - injection H as <-. exact Hs.
  - cbn [append_billing_periods] in H.
    destruct (index temps i) as [t| |]; try discriminate. cbn [bind] in H.
    destruct (index usages i) as [u| |]; try discriminate. cbn [bind] in H.
    destruct (BillingPeriod_init t u h) as [b| |] eqn:Eb; try discriminate.
    cbn [bind] in H.
    destruct (bills h) as [bs|] eqn:Ebs; [|discriminate].
    cbn [getattr bind] in H.
    apply (IH _ _ _ _) in H; [exact H|].
    unfold synced in *. rewrite Ebs in Hs. cbn.
    rewrite forallb_app, Hs. cbn.
    rewrite (BillingPeriod_init_in_sync _ _ _ _ Eb). reflexivity.
Qed.

Lemma initialize_billing_periods_synced : forall temps usages a h h',
  initialize_billing_periods temps usages a h = Ok h' -> synced h' = true.
Proof.
  intros temps usages a h h' H. unfold initialize_billing_periods in H.
  apply append_billing_periods_synced in H; [exact H|reflexivity].
Qed.

Section Synced.

Variable sqrt : Q -> Q.

Lemma trial_statistics_divides : forall bs bp r b,
  trial_statistics sqrt bs bp = Ok r -> In b bs ->
  exists u, fdiv (partial_ua b) (period_hdd (avg_temps b) bp) = Ok u.
Proof.
  intros bs bp r b H Hb. unfold trial_statistics in H.
  destruct (mapM _ bs) as [us| |] eqn:E; try discriminate.
  apply In_nth_error in Hb. destruct Hb as [n Hn].
  destruct (mapM_nth _ _ _ _ _ _ _ E Hn) as (y & _ & Hy).
  exists y. exact Hy.
Qed.

Lemma committed_trial_synced : forall s d h h',
  try_balance_point sqrt s d h = Ok (Improved h') ->
  balance_point h' = trial_point s d h
  /\ thermostat_set_point h' = thermostat_set_point h
  /\ (exists bs, bills h = Some bs
                 /\ bills h' = Some (map (resync (balance_point h')) bs))
  /\ synced h' = true.
Proof.
  intros s d h h' H. apply try_improved_inv in H.
  destruct H as (bs & us & avg & pct & cur & Hb & _ & Hs & _ & _ & ->).
  cbn. split; [reflexivity|]. split; [reflexivity|].
  split; [exists bs; auto|].
  unfold synced. cbn. apply forallb_forall. intros b' Hb'.
  apply in_map_iff in Hb'. destruct Hb' as (b & <- & Hin).
  destruct (trial_statistics_divides _ _ _ _ Hs Hin) as [u Hu].
  apply (in_sync_resync _ _ _ Hu).
Qed.

Lemma synced_set_bills : forall h bs bs',
  bills h = Some bs -> incl bs' bs -> synced h = true ->
  synced (set_bills h bs') = true.
Proof.
  intros h bs bs' Hb Hincl Hs. unfold synced in *. rewrite Hb in Hs. cbn.
  rewrite forallb_forall in *. intros b Hin. apply Hs. apply Hincl. exact Hin.
Qed.

End Synced.

(** ** The exclusion that is turned down *)

Lemma fsub_correct : forall x y, fsub x y == x - y.
Proof. intros x y. apply Qred_correct. Qed.

Lemma fabs_fsub_correct : forall x y, fabs (fsub x y) == Qabs (x - y).
Proof.
  intros x y. unfold fabs. rewrite Qred_correct.
  apply Qabs_wd. apply fsub_correct.
Qed.

(** What the pass does when the exclusion is turned down. *)
Lemma rejected_exclusion : forall (sqrt : Q -> Q) fuel mx diff nxt
    h current outlier h1 uas_i avg_ua_i stdev_pct_i,
  stdev_pct h = Some current ->
  mx < current ->
  exclude_outlier sqrt h = Ok (outlier, h1, (uas_i, avg_ua_i, stdev_pct_i)) ->
  current - stdev_pct_i < diff ->
  exists bs idx,
    bills h = Some bs /\ nth_error bs idx = Some outlier
    /\ outlier_body sqrt fuel mx diff nxt h
       = Ok (Break (set_bills h
                      ((firstn idx bs ++ skipn (Datatypes.S idx) bs) ++ [outlier])))
    /\ Permutation bs
         ((firstn idx bs ++ skipn (Datatypes.S idx) bs) ++ [outlier]).
Proof.
  intros sqrt fuel mx diff nxt h cur o h1 us avg pct Hc Hmx He Hd.
  pose proof He as He'. apply exclude_outlier_inv in He'.
  destruct He' as (bs & a & idx & rest & sd & Hb & _ & _ & Hp & -> & _).
  apply pop_inv in Hp. destruct Hp as (Hn & -> & Hperm).
  exists bs, idx. split; [exact Hb|]. split; [exact Hn|]. split.
  - unfold outlier_body. rewrite Hc. cbn [getattr bind].
    apply flt_true in Hmx. rewrite Hmx. rewrite He. cbn [bind].
    assert (Hf : flt (fsub cur pct) diff = true).
    { apply flt_true. rewrite fsub_correct. exact Hd. }
    rewrite Hf. reflexivity.
  - eapply Permutation_trans; [exact Hperm|].
    apply Permutation_cons_append.
Qed.

(** ** Searching again from where a search stopped *)

Lemma hdd_equal_points : forall t bp bp', bp == bp' -> hdd t bp = hdd t bp'.
Proof.
  intros t bp bp' H. unfold hdd, fsub.
  rewrite (Qred_complete (bp - t) (bp' - t)); [reflexivity|].
  rewrite H. reflexivity.
Qed.

Lemma period_hdd_equal_points : forall temps bp bp',
  bp == bp' -> period_hdd temps bp = period_hdd temps bp'.
Proof.
  intros temps bp bp' H. unfold period_hdd. f_equal.
  apply map_ext. intro t. apply (hdd_equal_points t bp bp' H).
Qed.

Lemma step_back : forall bp d s,
  fadd (fadd bp (fmul (inject_Z d) s)) (fmul (inject_Z (- d)) s) == bp.
Proof.
  intros bp d s. unfold fadd, fmul. rewrite !Qred_correct.
  rewrite inject_Z_opp. ring.
Qed.

Section Again.

Variable sqrt : Q -> Q.

Lemma trial_statistics_equal_points : forall bs bp bp',
  bp == bp' -> trial_statistics sqrt bs bp = trial_statistics sqrt bs bp'.
Proof.
  intros bs bp bp' H. unfold trial_statistics.
  rewrite (mapM_ext_in _ _
             (fun bill => fdiv (partial_ua bill) (period_hdd (avg_temps bill) bp))
             (fun bill => fdiv (partial_ua bill) (period_hdd (avg_temps bill) bp'))).
  - reflexivity.
  - intros b _. rewrite (period_hdd_equal_points _ bp bp' H). reflexivity.
Qed.

Lemma trial_statistics_resync : forall x bs bp,
  trial_statistics sqrt (map (resync x) bs) bp = trial_statistics sqrt bs bp.
Proof.
  intros x bs bp. unfold trial_statistics. rewrite mapM_map. reflexivity.
Qed.

Lemma trial_statistics_uas : forall bs bp us avg pct,
  trial_statistics sqrt bs bp = Ok (us, avg, pct) ->
  us = map ua (map (resync bp) bs).
Proof.
  intros bs bp us avg pct H. unfold trial_statistics in H.
  destruct (mapM _ bs) as [us'| |] eqn:E; try discriminate. cbn [bind] in H.
  destruct (mean us') as [m| |]; try discriminate. cbn [bind] in H.
  destruct (pstdev sqrt us') as [sd| |]; try discriminate. cbn [bind] in H.
  destruct (fdiv sd m) as [p| |]; try discriminate. cbn [bind] in H.
  injection H as <- _ _. clear -E.
  revert us' E. induction bs as [|b bs IH]; intros us' E.
  - injection E as <-. reflexivity.
  - cbn [mapM] in E.
    destruct (fdiv (partial_ua b) (period_hdd (avg_temps b) bp)) as [u| |] eqn:Eu;
      try discriminate.
    cbn [bind] in E. destruct (mapM _ bs) as [us| |]; try discriminate.
    cbn [bind] in E. injection E as <-. cbn [map]. f_equal.
    + apply fdiv_inv in Eu. destruct Eu as [_ ->]. reflexivity.
    + apply IH. reflexivity.
Qed.

Lemma committed_trial_settled : forall s d h h',
  try_balance_point sqrt s d h = Ok (Improved h') -> settled sqrt h'.
Proof.
  intros s d h h' H. apply try_improved_inv in H.
  destruct H as (bs & us & avg & pct & cur & _ & _ & Hs & _ & _ & ->).
  exists (map (resync (trial_point s d h)) bs), avg, pct.
  cbn [bills balance_point avg_ua stdev_pct set_bills set_stdev_pct set_avg_ua
       set_balance_point].
  split; [reflexivity|]. split; [|auto].
  rewrite trial_statistics_resync, Hs.
  rewrite (trial_statistics_uas _ _ _ _ _ Hs). reflexivity.
Qed.

(** Stepping back from a committed trial is no improvement. *)
Lemma step_back_blocked : forall s d h h',
  settled sqrt h ->
  try_balance_point sqrt s d h = Ok (Improved h') ->
  blocked sqrt s (- d) h'.
Proof.
  intros s d h h' (bs0 & avg0 & pct0 & Hb0 & Hs0 & _ & Hp0) H.
  apply try_improved_inv in H.
  destruct H as (bs & us & avg & pct & cur & Hb & _ & Hs & Hc & Hlt & ->).
  rewrite Hb0 in Hb. injection Hb as <-.
  rewrite Hp0 in Hc. injection Hc as <-.
  unfold blocked. rewrite try_balance_point_eq.
  set (h' := set_bills _ _).
  assert (Hback : trial_point s (- d) h' == balance_point h).
  { unfold trial_point, h'. cbn. apply step_back. }
  destruct (flt (thermostat_set_point h') (trial_point s (- d) h'));
    [left; reflexivity|right].
  unfold h' at 1. cbn [bills set_bills getattr bind].
  rewrite trial_statistics_resync.
  rewrite (trial_statistics_equal_points _ _ _ Hback), Hs0. cbn [bind].
  unfold h' at 1. cbn [stdev_pct set_bills set_stdev_pct getattr bind].
  assert (Hf : flt pct0 pct = false).
  { apply flt_false. apply Qlt_le_weak. exact Hlt. }
  rewrite Hf. reflexivity.
Qed.

Lemma search_state_kept : forall s st st',
  search_state sqrt s st -> refine_body sqrt s st = Ok (Continue st') ->
  search_state sqrt s st'.
Proof.
  intros s [dirs h] [dirs' h'] [Hset Hd] Hb. cbn [fst snd] in *.
  apply refine_body_continue in Hb.
  destruct Hb as (d & rest & Heq & [(Ht & -> & ->)|(Ht & ->)]).
  - split; [exact Hset|]. cbn [fst snd].
    destruct Hd as [Hd|[[Hd Hbl]|[[Hd Hbl]|[Hd _]]]];
      rewrite Hd in Heq; try discriminate; injection Heq as <- <-.
    + right. right. left. split; [reflexivity|]. right. exact Ht.
    + right. right. right. split; [reflexivity|].
      split; [right; exact Ht|exact Hbl].
    + right. right. right. split; [reflexivity|].
      split; [exact Hbl|right; exact Ht].
  - split; [apply (committed_trial_settled s d h h' Ht)|]. cbn [fst snd].
    pose proof (step_back_blocked s d h h' Hset Ht) as Hback.
    destruct Hd as [Hd|[[Hd Hbl]|[[Hd Hbl]|[Hd _]]]];
      rewrite Hd in Heq; try discriminate; injection Heq as <- <-; rewrite Hd;
      cbn.
    + right. left. split; [reflexivity|exact Hback].
    + right. left. split; [reflexivity|exact Hback].
    + right. right. left. split; [reflexivity|exact Hback].
Qed.

Lemma refine_result_stable : forall fuel s h h',
  settled sqrt h -> refine_balance_point sqrt fuel s h = Ok h' ->
  settled sqrt h' /\ stable sqrt s h'.
Proof.
  intros fuel s h h' Hset H. apply refine_balance_point_returns in H.
  destruct H as (dirs & Hr & Hb).
  assert (Hst : search_state sqrt s (dirs, h')).
  { apply (reaches_invariant _ (refine_body sqrt s) (search_state sqrt s))
      with (s := ([1%Z; (-1)%Z], h)); [|split; [exact Hset|left; reflexivity]
                                       |exact Hr].
    intros st st'. apply search_state_kept. }
  destruct Hst as [Hset' Hd]. cbn [fst snd] in *. split; [exact Hset'|].
  apply refine_body_break in Hb. destruct Hb as [_ Hb]. unfold stable.
  destruct Hb as [->|(d & rest & -> & Ht)].
  - destruct Hd as [Hd|[[Hd _]|[[Hd _]|[_ [H1 H2]]]]]; try discriminate.
    destruct H1 as [H1|H1]; [left; exact H1|right; split; assumption].
  - destruct Hd as [Hd|[[Hd _]|[[Hd H1]|[Hd _]]]]; try discriminate;
      injection Hd as -> _.
    + left. exact Ht.
    + left. exact Ht.
    + destruct H1 as [H1|H1]; [left; exact H1|].
      right. split; [exact H1|left; exact Ht].
Qed.


(** The statistics of a synced home are those a trial at its own balance
    point would compute. *)
Lemma synced_own_uas : forall bp bs,
  forallb (in_sync bp) bs = true ->
  mapM (fun bill => fdiv (partial_ua bill) (period_hdd (avg_temps bill) bp)) bs
  = Ok (map ua bs).
Proof.
  intros bp bs. induction bs as [|b bs IH]; intro H; [reflexivity|].
  cbn [forallb] in H. apply andb_true_iff in H. destruct H as [Hb H].
  apply in_sync_true in Hb. destruct Hb as [Hh Hu].
  cbn [mapM map]. rewrite <- Hh, Hu. cbn [bind]. rewrite (IH H). reflexivity.
Qed.

Lemma compute_statistics_settled : forall h h1,
  synced h = true -> compute_statistics sqrt h = Ok h1 -> settled sqrt h1.
Proof.
  intros h h1 Hs H. unfold compute_statistics in H. unfold synced in Hs.
  destruct (bills h) as [bs|] eqn:Eb; [|discriminate].
  cbn [getattr bind] in H. cbv zeta in H.
  destruct (mean (map ua bs)) as [m| |] eqn:Em; try discriminate.
  cbn [bind] in H.
  destruct (pstdev sqrt (map ua bs)) as [sd| |] eqn:Esd; try discriminate.
  cbn [bind] in H.
  destruct (fdiv sd m) as [pct| |] eqn:Ep; try discriminate. cbn [bind] in H.
  injection H as <-. exists bs, m, pct. cbn.
  split; [exact Eb|]. split; [|auto].
  unfold trial_statistics. rewrite (synced_own_uas _ _ Hs). cbn [bind].
  rewrite Em. cbn [bind]. rewrite Esd. cbn [bind]. rewrite Ep. reflexivity.
Qed.




End Again.

(** ** One period left *)

Lemma pstdev_single : forall (sqrt : Q -> Q) x, pstdev sqrt [x] = Ok (sqrt 0).
Proof.
  intros sqrt x. unfold pstdev, pvariance, mean. cbn [bind map length exact_sum fold_right].
  do 2 f_equal.
  transitivity (Qred 0); [|reflexivity]. apply Qred_complete.
  rewrite Qred_correct. change (of_nat 1) with 1. field.
Qed.

(** ** The homes of the examples *)

Example home_rising_built :
  initialize_billing_periods [[30; 40]; [40; 45]] [24; 96] 0 home_fresh
  = Ok home_rising
  /\ compute_statistics Qsqrt home_rising = Ok home_rising_stats
  /\ refine_balance_point Qsqrt 10 2 home_rising_stats = Ok home_rising_refined.
Proof. repeat split; vm_compute; reflexivity. Qed.

Example home_pair_built :
  initialize_billing_periods [[66]; [66]] [48; 72] 0 (Home_init GAS 1 67 68)
  = Ok home_pair
  /\ compute_statistics Qsqrt home_pair = Ok home_pair_stats
  /\ bills home_pair = Some [pair_first; pair_second].
Proof. repeat split; vm_compute; reflexivity. Qed.

Example home_close_built :
  initialize_billing_periods [[50; 50]; [40; 45]] [24; 48] 0 home_fresh
  = Ok home_close.
Proof. vm_compute. reflexivity. Qed.

(** * The claims *)

(** C1.  A committed trial assigns the trial point to [balance_point] and,
    in the same step, rewrites every retained bill with the [total_hdd] and
    [ua] computed at that point, so the home it leaves is synced whatever
    it was before.  Hence, from a synced home, every home in which
    [refine_balance_point] or [calculate_balance_point_and_ua] reads
    [avg_ua] or [stdev_pct] is synced: each retained bill has
    [total_hdd = period_hdd avg_temps balance_point] and
    [ua = partial_ua / total_hdd].  [initialize_billing_periods] returns a
    synced home. *)
Theorem periods_follow_balance_point : forall sqrt : Q -> Q,
  (forall s d h h',
      try_balance_point sqrt s d h = Ok (Improved h') ->
      balance_point h' = trial_point s d h
      /\ (exists bs, bills h = Some bs
                     /\ bills h' = Some (map (resync (balance_point h')) bs))
      /\ synced h' = true)
  /\ (forall s h0 h,
         synced h0 = true -> refine_reads sqrt s h0 h -> synced h = true)
  /\ (forall fuel ini mx diff nxt h0 h,
         synced h0 = true ->
         calculate_reads sqrt fuel ini mx diff nxt h0 h -> synced h = true)
  /\ (forall temps usages a home h0,
         initialize_billing_periods temps usages a home = Ok h0 ->
         synced h0 = true).
Proof.
  intro sqrt.
  assert (Htrial : forall s d h h', synced h = true ->
            try_balance_point sqrt s d h = Ok (Improved h') -> synced h' = true).
  { intros s d h h' _ H. apply (committed_trial_synced sqrt s d h h' H). }
  split; [|split; [|split]].
  - intros s d h h' H.
    destruct (committed_trial_synced sqrt s d h h' H) as (H1 & _ & H2 & H3).
    auto.
  - intros s h0 h H0 Hr.
    apply (refine_reads_invariant sqrt (fun h => synced h = true) s
             (fun d h1 h2 => Htrial s d h1 h2) h0 h H0 Hr).
  - intros fuel ini mx diff nxt h0 h H0 Hr.
    apply (calculate_reads_invariant sqrt (fun h => synced h = true)
             (fun h1 x Hs => Hs) (fun h1 x Hs => Hs) (fun h1 x Hs => Hs)
             synced_set_bills Htrial fuel ini mx diff nxt h0 h H0 Hr).
  - intros temps usages a home h0 H.
    apply (initialize_billing_periods_synced _ _ _ _ _ H).
Qed.

Lemma periods_follow_balance_point_witness :
  synced home_rising_62 = true
  /\ synced home_rising_refined = true
  /\ synced home_rising_refined = true
  /\ synced home_rising = true.
Proof.
  destruct (periods_follow_balance_point Qsqrt) as (H1 & H2 & H3 & H4).
  split; [|split; [|split]].
  - apply (H1 2 1%Z home_rising_stats home_rising_62). vm_compute. reflexivity.
  - apply (H2 2 home_rising_stats); [reflexivity|].
    apply (refine_reads_result Qsqrt 10). vm_compute. reflexivity.
  - apply (H3 10%nat 2 (1 # 10) (1 # 100) (1 # 2) home_rising); [reflexivity|].
    apply (reads_loop_head Qsqrt 10 2 (1 # 10) (1 # 100) (1 # 2) home_rising
             home_rising_stats home_rising_refined home_rising_refined).
    + vm_compute. reflexivity.
    + vm_compute. reflexivity.
    + apply reaches_here.
  - apply (H4 [[30; 40]; [40; 45]] [24; 96] 0 home_fresh).
    vm_compute. reflexivity.
Defined.

(** C2.  When the trial in the direction [d] at the head of two active
    directions [[d; d']] is committed, the pass continues with [[d]] alone:
    [d'] is dropped untested.  From then on the directions are [[d]] or
    empty, so every later trial of the call is in the direction [d]. *)
Theorem untried_direction_is_dropped : forall (sqrt : Q -> Q) s d d' h h1,
  try_balance_point sqrt s d h = Ok (Improved h1) ->
  refine_body sqrt s ([d; d'], h) = Ok (Continue ([d], h1))
  /\ forall directions h2,
       reaches (refine_body sqrt s) ([d], h1) (directions, h2) ->
       (directions = [d] \/ directions = [])
       /\ forall d2, hd_error directions = Some d2 -> d2 = d.
Proof.
  intros sqrt s d d' h h1 H. split.
  - unfold refine_body. rewrite H. reflexivity.
  - intros dirs h2 Hr.
    assert (Hd : dirs = [d] \/ dirs = []).
    { apply (reaches_invariant _ (refine_body sqrt s)
               (fun st => fst st = [d] \/ fst st = []))
        with (s := ([d], h1)) (s' := (dirs, h2)); [|left; reflexivity|exact Hr].
      intros [da ha] [db hb] Hs Hb. cbn [fst] in *.
      apply refine_body_continue in Hb.
      destruct Hb as (d0 & rest & Heq & [(_ & _ & ->)|(_ & ->)]).
      - destruct Hs as [Hs|Hs]; rewrite Hs in Heq; [|discriminate].
        injection Heq as _ <-. right. reflexivity.
      - destruct Hs as [Hs|Hs]; rewrite Hs in Heq; [|discriminate].
        rewrite Hs. cbn. left. reflexivity. }
    split; [exact Hd|].
    intros d2 Hh. destruct Hd as [-> | ->]; cbn in Hh; [|discriminate].
    injection Hh as <-. reflexivity.
Qed.

Lemma untried_direction_is_dropped_witness :
  refine_body Qsqrt 2 ([1%Z; (-1)%Z], home_rising_stats)
  = Ok (Continue ([1%Z], home_rising_62))
  /\ forall directions h2,
       reaches (refine_body Qsqrt 2) ([1%Z], home_rising_62) (directions, h2) ->
       (directions = [1%Z] \/ directions = [])
       /\ forall d2, hd_error directions = Some d2 -> d2 = 1%Z.
Proof.
  apply (untried_direction_is_dropped Qsqrt 2 1%Z (-1)%Z home_rising_stats
           home_rising_62).
  vm_compute. reflexivity.
Defined.

(** C3.  In one call of [refine_balance_point] started with
    [stdev_pct = entry]: from one head of the loop to the next the home is
    either unchanged or a trial was committed, and then its [stdev_pct] is
    strictly smaller than before; every home at the head of the loop has
    [stdev_pct <= entry]; and so has the home the call returns. *)
Theorem accepted_steps_decrease_stdev_pct : forall (sqrt : Q -> Q) fuel s h entry,
  stdev_pct h = Some entry ->
  (forall k st1 st2,
      nth_error (loop_states fuel (refine_body sqrt s) ([1%Z; (-1)%Z], h)) k
      = Some st1 ->
      nth_error (loop_states fuel (refine_body sqrt s) ([1%Z; (-1)%Z], h))
        (Datatypes.S k) = Some st2 ->
      snd st2 = snd st1
      \/ exists d before after,
           try_balance_point sqrt s d (snd st1) = Ok (Improved (snd st2))
           /\ stdev_pct (snd st1) = Some before
           /\ stdev_pct (snd st2) = Some after
           /\ after < before)
  /\ (forall st,
         In st (loop_states fuel (refine_body sqrt s) ([1%Z; (-1)%Z], h)) ->
         exists x, stdev_pct (snd st) = Some x /\ x <= entry)
  /\ (forall h',
         refine_balance_point sqrt fuel s h = Ok h' ->
         exists final, stdev_pct h' = Some final /\ final <= entry).
Proof.
  intros sqrt fuel s h entry He.
  assert (Hstep : forall d h1 h2,
            try_balance_point sqrt s d h1 = Ok (Improved h2) ->
            exists before after,
              stdev_pct h1 = Some before /\ stdev_pct h2 = Some after
              /\ after < before).
  { intros d h1 h2 H. apply try_improved_inv in H.
    destruct H as (bs & us & avg & pct & cur & _ & _ & _ & Hc & Hlt & ->).
    exists cur, pct. auto. }
  assert (Hinv : forall h', refine_reads sqrt s h h' ->
            exists x, stdev_pct h' = Some x /\ x <= entry).
  { intros h' Hr.
    apply (refine_reads_invariant sqrt
             (fun h' => exists x, stdev_pct h' = Some x /\ x <= entry) s)
      with (h0 := h); [|exists entry; split; [exact He|apply Qle_refl]|exact Hr].
    intros d h1 h2 (x & Hx & Hle) Ht.
    destruct (Hstep d h1 h2 Ht) as (b & a & Hb & Ha & Hlt).
    exists a. split; [exact Ha|].
    rewrite Hx in Hb. injection Hb as <-.
    apply Qlt_le_weak. eapply Qlt_le_trans; eassumption. }
  split; [|split].
  - intros k [d1 h1] [d2 h2] H1 H2. cbn [snd].
    destruct (loop_states_consecutive _ _ _ _ _ _ _ H1 H2) as [_ Hb].
    apply refine_body_continue in Hb.
    destruct Hb as (d & rest & _ & [(_ & -> & _)|(Ht & _)]).
    + left. reflexivity.
    + right. destruct (Hstep d h1 h2 Ht) as (b & a & Hb & Ha & Hlt).
      exists d, b, a. auto.
  - intros [dirs h'] Hin. cbn [snd]. apply Hinv.
    apply loop_states_reaches in Hin. econstructor. exact Hin.
  - intros h' Hr. apply Hinv. apply (refine_reads_result sqrt fuel). exact Hr.
Qed.

Lemma accepted_steps_decrease_stdev_pct_witness :
  exists final,
    stdev_pct home_rising_refined = Some final
    /\ final <= 16499999999999999 # 23500000000000000.
Proof.
  destruct (accepted_steps_decrease_stdev_pct Qsqrt 10 2 home_rising_stats
              (16499999999999999 # 23500000000000000) eq_refl) as (_ & _ & H).
  apply H. vm_compute. reflexivity.
Defined.

(** C4, as amended.  If [balance_point <= thermostat_set_point] when
    [refine_balance_point], [calculate_balance_point_and_ua] or
    [calculate_balance_point_and_ua_customizable] is called, it still holds of
    the home the call returns. *)
Theorem balance_point_stays_within_set_point : forall (sqrt : Q -> Q)
    fuel ini mx diff nxt removed h h',
  balance_point h <= thermostat_set_point h ->
  refine_balance_point sqrt fuel ini h = Ok h'
  \/ calculate_balance_point_and_ua sqrt fuel ini mx diff nxt h = Ok h'
  \/ calculate_balance_point_and_ua_customizable sqrt fuel removed ini h = Ok h' ->
  balance_point h' <= thermostat_set_point h'.
Proof.
  intros sqrt fuel ini mx diff nxt removed h h' Hle H.
  set (P := fun x : Home => balance_point x <= thermostat_set_point x).
  assert (Ht : forall s d h1 h2, P h1 ->
            try_balance_point sqrt s d h1 = Ok (Improved h2) -> P h2).
  { intros s d h1 h2 _ Htry. unfold P.
    destruct (committed_trial_synced sqrt s d h1 h2 Htry) as (-> & -> & _).
    apply try_improved_inv in Htry.
    destruct Htry as (bs & us & avg & pct & cur & _ & Hb & _). exact Hb. }
  destruct H as [H|[H|H]].
  - apply (refine_balance_point_invariant sqrt P Ht fuel ini h h' Hle H).
  - apply (calculate_invariant sqrt P
             (fun h1 x Hs => Hs) (fun h1 x Hs => Hs) (fun h1 x Hs => Hs)
             (fun h1 bs bs' _ _ Hs => Hs) Ht fuel ini mx diff nxt h h' Hle H).
  - apply (customizable_invariant sqrt P
             (fun h1 x Hs => Hs) (fun h1 x Hs => Hs) (fun h1 x Hs => Hs)
             (fun h1 bs bs' _ _ Hs => Hs) Ht fuel removed ini h h' Hle H).
Qed.

Lemma balance_point_stays_within_set_point_witness :
  balance_point home_rising_final <= thermostat_set_point home_rising_final.
Proof.
  apply (balance_point_stays_within_set_point Qsqrt 10 2 (1 # 10) (1 # 100)
           (1 # 2) (fun _ => false) home_rising home_rising_final).
  - vm_compute. discriminate.
  - right. left. vm_compute. reflexivity.
Defined.

(** The claim as stated fails: a home constructed with its balance point
    above its set point comes back from the call as it went in. *)
Lemma balance_point_can_exceed_set_point :
  initialize_billing_periods [[50]] [24] 0 (Home_init GAS 1 70 68)
  = Ok home_above
  /\ exists h',
       calculate_balance_point_and_ua Qsqrt 4 2 (1 # 10) (1 # 100) (1 # 2)
         home_above = Ok h'
       /\ ~ balance_point h' <= thermostat_set_point h'.
Proof.
  split; [vm_compute; reflexivity|].
  eexists. split; [vm_compute; reflexivity|].
  vm_compute. intro H. apply H. reflexivity.
Qed.

(** C5.  The period a pass of the outlier loop excludes (lines 140-143) is
    the bill at an index [idx] of the retained list where [|ua - avg_ua|] is
    largest, and every bill before [idx] has a strictly smaller deviation:
    the first index of the maximum.  The retained list loses exactly that
    position. *)
Theorem outlier_is_first_largest_deviation : forall (sqrt : Q -> Q)
    h outlier h1 stats,
  exclude_outlier sqrt h = Ok (outlier, h1, stats) ->
  exists bs avg idx,
    bills h = Some bs /\ avg_ua h = Some avg
    /\ nth_error bs idx = Some outlier
    /\ (forall j b, nth_error bs j = Some b ->
          Qabs (ua b - avg) <= Qabs (ua outlier - avg))
    /\ (forall j b, (j < idx)%nat -> nth_error bs j = Some b ->
          Qabs (ua b - avg) < Qabs (ua outlier - avg))
    /\ bills h1 = Some (firstn idx bs ++ skipn (Datatypes.S idx) bs).
Proof.
  intros sqrt h o h1 [[us avg_i] pct] H. apply exclude_outlier_inv in H.
  destruct H as (bs & avg & idx & rest & sd & Hb & Ha & Harg & Hp & -> & _).
  apply pop_inv in Hp. destruct Hp as (Hn & -> & _).
  apply argmax_first_maximum in Harg. destruct Harg as (v & Hv & Hall & Hfirst).
  rewrite nth_error_map, Hn in Hv. cbn in Hv. injection Hv as <-.
  exists bs, avg, idx. repeat (split; [assumption|]).
  split; [|split; [|reflexivity]].
  - intros j b Hj. rewrite <- !fabs_fsub_correct.
    apply (Hall j). rewrite nth_error_map, Hj. reflexivity.
  - intros j b Hlt Hj. rewrite <- !fabs_fsub_correct.
    apply (Hfirst j); [exact Hlt|]. rewrite nth_error_map, Hj. reflexivity.
Qed.

Lemma outlier_is_first_largest_deviation_witness :
  exists bs avg idx,
    bills home_pair_stats = Some bs /\ avg_ua home_pair_stats = Some avg
    /\ nth_error bs idx = Some pair_first
    /\ (forall j b, nth_error bs j = Some b ->
          Qabs (ua b - avg) <= Qabs (ua pair_first - avg))
    /\ (forall j b, (j < idx)%nat -> nth_error bs j = Some b ->
          Qabs (ua b - avg) < Qabs (ua pair_first - avg))
    /\ bills (set_bills home_pair_stats [pair_second])
       = Some (firstn idx bs ++ skipn (Datatypes.S idx) bs).
Proof.
  apply (outlier_is_first_largest_deviation Qsqrt home_pair_stats pair_first
           (set_bills home_pair_stats [pair_second]) ([300000], 300000, 0)).
  vm_compute. reflexivity.
Defined.

(** C6.  When the loop is entered ([stdev_pct_max < stdev_pct]) and the
    exclusion lowers [stdev_pct] by less than [max_stdev_pct_diff], the pass
    ends in a break, whatever fuel is left for [refine_balance_point] (none
    is needed: it is not called), the loop returns at once, and the
    home returned has the [balance_point], [avg_ua], [stdev_pct] and [uas] it
    had before, and the same bills up to their order. *)
Theorem rejected_exclusion_restores_and_stops : forall (sqrt : Q -> Q)
    fuel passes mx diff nxt h current outlier h1 uas_i avg_ua_i stdev_pct_i,
  stdev_pct h = Some current ->
  mx < current ->
  exclude_outlier sqrt h = Ok (outlier, h1, (uas_i, avg_ua_i, stdev_pct_i)) ->
  current - stdev_pct_i < diff ->
  exists h' bs bs',
    outlier_body sqrt fuel mx diff nxt h = Ok (Break h')
    /\ while_loop (Datatypes.S passes) (outlier_body sqrt fuel mx diff nxt) h
       = Ok h'
    /\ balance_point h' = balance_point h
    /\ avg_ua h' = avg_ua h
    /\ stdev_pct h' = stdev_pct h
    /\ uas h' = uas h
    /\ bills h = Some bs /\ bills h' = Some bs'
    /\ Permutation bs bs'
    /\ (forall b, In b bs' <-> In b bs).
Proof.
  intros sqrt fuel passes mx diff nxt h cur o h1 us avg pct Hc Hmx He Hd.
  destruct (rejected_exclusion sqrt fuel mx diff nxt h cur o h1 us avg pct
              Hc Hmx He Hd) as (bs & idx & Hb & Hn & Hbody & Hperm).
  eexists. exists bs. eexists.
  split; [exact Hbody|]. split.
  { cbn [while_loop]. rewrite Hbody. reflexivity. }
  cbn. repeat (split; [reflexivity|]). split; [exact Hb|].
  split; [reflexivity|]. split; [exact Hperm|].
  intro b. split; intro H.
  - apply (Permutation_in b (Permutation_sym Hperm) H).
  - apply (Permutation_in b Hperm H).
Qed.

Lemma rejected_exclusion_restores_and_stops_witness :
  exists h' bs bs',
    outlier_body Qsqrt 0 (1 # 10) (1 # 2) (1 # 2) home_pair_stats
    = Ok (Break h')
    /\ while_loop 1 (outlier_body Qsqrt 0 (1 # 10) (1 # 2) (1 # 2))
         home_pair_stats = Ok h'
    /\ balance_point h' = balance_point home_pair_stats
    /\ avg_ua h' = avg_ua home_pair_stats
    /\ stdev_pct h' = stdev_pct home_pair_stats
    /\ uas h' = uas home_pair_stats
    /\ bills home_pair_stats = Some bs /\ bills h' = Some bs'
    /\ Permutation bs bs'
    /\ (forall b, In b bs' <-> In b bs).
Proof.
  apply (rejected_exclusion_restores_and_stops Qsqrt 0 0 (1 # 10) (1 # 2)
           (1 # 2) home_pair_stats (1 # 5) pair_first
           (set_bills home_pair_stats [pair_second]) [300000] 300000 0).
  - reflexivity.
  - reflexivity.
  - vm_compute. reflexivity.
  - reflexivity.
Defined.

(** The claim on a second call (C7) comes last: it uses the lemmas on the
    outlier loop of the further properties. *)

(** C8.  A period is constructed for a home that has its
    [avg_non_heating_usage]: [initialize_billing_periods], the one place
    that constructs periods, assigns it first (line 119).  Constructing a
    period whose [period_hdd] at the home's balance point is zero raises
    [ZeroDivisionError]; when [period_hdd] is positive the construction
    returns a period with [total_hdd = period_hdd] and
    [ua = partial_ua / total_hdd]. *)
Theorem billing_period_needs_degree_days : forall temps u home,
  (period_hdd temps (balance_point home) == 0 ->
   exists e, BillingPeriod_init temps u home = Raise e
             /\ (avg_non_heating_usage home <> None -> e = ZeroDivisionError))
  /\ (forall a,
        avg_non_heating_usage home = Some a ->
        0 < period_hdd temps (balance_point home) ->
        exists b, BillingPeriod_init temps u home = Ok b
                  /\ avg_temps b = temps
                  /\ total_hdd b = period_hdd temps (balance_point home)
                  /\ fdiv (partial_ua b) (total_hdd b) = Ok (ua b)).
Proof.
  intros temps u home. split.
  - apply BillingPeriod_init_zero_hdd.
  - intro a. apply BillingPeriod_init_positive_hdd.
Qed.

Lemma billing_period_needs_degree_days_witness :
  (exists e, BillingPeriod_init [70] 24 home_ready = Raise e
             /\ (avg_non_heating_usage home_ready <> None ->
                 e = ZeroDivisionError))
  /\ (exists b, BillingPeriod_init [50] 24 home_ready = Ok b
                /\ avg_temps b = [50]
                /\ total_hdd b = period_hdd [50] (balance_point home_ready)
                /\ fdiv (partial_ua b) (total_hdd b) = Ok (ua b)).
Proof.
  split.
  - apply (proj1 (billing_period_needs_degree_days [70] 24 home_ready)).
    vm_compute. reflexivity.
  - apply (proj2 (billing_period_needs_degree_days [50] 24 home_ready) 0).
    + reflexivity.
    + vm_compute. reflexivity.
Defined.

(** C9.  [pstdev] of a single value is the square root of 0.  On
    [home_pair], with the default arguments, the loop excludes the first of
    the two periods ([stdev_pct_i] is 0), and the call returns normally with
    one retained period and [stdev_pct = 0]. *)
Theorem exclusion_can_leave_one_period :
  (forall (sqrt : Q -> Q) x, pstdev sqrt [x] = Ok (sqrt 0))
  /\ bills home_pair = Some [pair_first; pair_second]
  /\ exclude_outlier Qsqrt home_pair_stats
     = Ok (pair_first, set_bills home_pair_stats [pair_second],
           ([300000], 300000, 0))
  /\ exists h',
       calculate_balance_point_and_ua Qsqrt 4 2 (1 # 10) (1 # 100) (1 # 2)
         home_pair = Ok h'
       /\ bills h' = Some [pair_second]
       /\ stdev_pct h' = Some 0.
Proof.
  split; [exact pstdev_single|].
  split; [reflexivity|].
  split; [vm_compute; reflexivity|].
  eexists. split; [vm_compute; reflexivity|]. split; reflexivity.
Qed.

(** C10.  When an exclusion is turned down, the pass leaves the retained
    list without the outlier's position and with the outlier appended at the
    end: a permutation of the list before.  On [home_pair] the two periods
    come back in the other order. *)
Theorem restored_outlier_goes_last :
  (forall (sqrt : Q -> Q) fuel mx diff nxt
          h current outlier h1 uas_i avg_ua_i stdev_pct_i,
      stdev_pct h = Some current ->
      mx < current ->
      exclude_outlier sqrt h = Ok (outlier, h1, (uas_i, avg_ua_i, stdev_pct_i)) ->
      current - stdev_pct_i < diff ->
      exists bs idx,
        bills h = Some bs /\ nth_error bs idx = Some outlier
        /\ outlier_body sqrt fuel mx diff nxt h
           = Ok (Break (set_bills h
                          ((firstn idx bs ++ skipn (Datatypes.S idx) bs)
                           ++ [outlier])))
        /\ Permutation bs
             ((firstn idx bs ++ skipn (Datatypes.S idx) bs) ++ [outlier]))
  /\ (bills home_pair_stats = Some [pair_first; pair_second]
      /\ outlier_body Qsqrt 0 (1 # 10) (1 # 2) (1 # 2) home_pair_stats
         = Ok (Break (set_bills home_pair_stats [pair_second; pair_first]))).
Proof.
  split.
  - intros sqrt fuel mx diff nxt h cur o h1 us avg pct.
    apply rejected_exclusion.
  - split; [reflexivity|]. vm_compute. reflexivity.
Qed.

Lemma restored_outlier_goes_last_witness :
  exists bs idx,
    bills home_pair_stats = Some bs /\ nth_error bs idx = Some pair_first
    /\ outlier_body Qsqrt 0 (1 # 10) (1 # 2) (1 # 2) home_pair_stats
       = Ok (Break (set_bills home_pair_stats
                      ((firstn idx bs ++ skipn (Datatypes.S idx) bs)
                       ++ [pair_first])))
    /\ Permutation bs
         ((firstn idx bs ++ skipn (Datatypes.S idx) bs) ++ [pair_first]).
Proof.
  apply (proj1 restored_outlier_goes_last Qsqrt 0%nat (1 # 10) (1 # 2) (1 # 2)
           home_pair_stats (1 # 5) pair_first
           (set_bills home_pair_stats [pair_second]) [300000] 300000 0).
  - reflexivity.
  - reflexivity.
  - vm_compute. reflexivity.
  - reflexivity.
Defined.

(** * Further properties *)

(** ** Degree days, day by day *)

Lemma fadd_correct : forall x y, fadd x y == x + y.
Proof. intros x y. apply Qred_correct. Qed.

Lemma fmul_correct : forall x y, fmul x y == x * y.
Proof. intros x y. apply Qred_correct. Qed.

Lemma fold_fadd_exact : forall xs acc,
  fold_left fadd xs acc == acc + exact_sum xs.
Proof.
  induction xs as [|x xs IH]; intro acc; cbn [fold_left exact_sum fold_right].
  - ring.
  - rewrite IH, fadd_correct. fold (exact_sum xs). ring.
Qed.

Lemma py_sum_exact : forall xs, py_sum xs == exact_sum xs.
Proof. intro xs. unfold py_sum. rewrite fold_fadd_exact. ring. Qed.

Lemma period_hdd_cons : forall t temps bp,
  period_hdd (t :: temps) bp == hdd t bp + period_hdd temps bp.
Proof.
  intros t temps bp. unfold period_hdd. rewrite !py_sum_exact. reflexivity.
Qed.

Lemma hdd_monotone : forall t bp bp', bp <= bp' -> hdd t bp <= hdd t bp'.
Proof.
  intros t bp bp' H.
  destruct (Qlt_le_dec (bp - t) 0) as [Hn|Hp].
  - rewrite (proj1 (hdd_value t bp) Hn). apply hdd_nonneg.
  - rewrite (proj2 (hdd_value t bp) Hp).
    assert (Hp' : 0 <= bp' - t) by lra.
    rewrite (proj2 (hdd_value t bp') Hp'). lra.
Qed.

Lemma hdd_zero_iff : forall t bp, hdd t bp == 0 <-> bp <= t.
Proof.
  intros t bp. destruct (Qlt_le_dec (bp - t) 0) as [Hn|Hp].
  - rewrite (proj1 (hdd_value t bp) Hn). split; intro; [lra|reflexivity].
  - rewrite (proj2 (hdd_value t bp) Hp). split; intro; lra.
Qed.

Lemma period_hdd_nonneg : forall temps bp, 0 <= period_hdd temps bp.
Proof.
  induction temps as [|t temps IH]; intro bp.
  - rewrite period_hdd_empty. lra.
  - rewrite period_hdd_cons. pose proof (hdd_nonneg t bp). specialize (IH bp). lra.
Qed.

(** X1.  The degree days of a period are never negative, and a higher
    balance point never gives fewer of them. *)
Theorem period_hdd_grows_with_balance_point : forall temps bp bp',
  bp <= bp' ->
  0 <= period_hdd temps bp /\ period_hdd temps bp <= period_hdd temps bp'.
Proof.
  intros temps bp bp' H. split; [apply period_hdd_nonneg|].
  induction temps as [|t temps IH].
  - rewrite !period_hdd_empty. lra.
  - rewrite !period_hdd_cons. pose proof (hdd_monotone t bp bp' H). lra.
Qed.

Lemma period_hdd_grows_with_balance_point_witness :
  0 <= period_hdd [50; 55; 65] 60
  /\ period_hdd [50; 55; 65] 60 <= period_hdd [50; 55; 65] 62.
Proof.
  apply (period_hdd_grows_with_balance_point [50; 55; 65] 60 62).
  vm_compute. discriminate.
Defined.

Lemma period_hdd_zero_without_day_below : forall temps bp,
  (forall t, In t temps -> bp <= t) -> period_hdd temps bp == 0.
Proof.
  induction temps as [|t temps IH]; intros bp H.
  - rewrite period_hdd_empty. reflexivity.
  - rewrite period_hdd_cons.
    assert (H1 : hdd t bp == 0) by (apply hdd_zero_iff; apply H; left; reflexivity).
    assert (H2 : period_hdd temps bp == 0).
    { apply IH. intros t' Hin. apply H. right. exact Hin. }
    lra.
Qed.

Lemma period_hdd_positive_day : forall temps bp,
  0 < period_hdd temps bp -> exists t, In t temps /\ t < bp.
Proof.
  induction temps as [|t temps IH]; intros bp H.
  - rewrite period_hdd_empty in H. exfalso. apply (Qlt_irrefl 0 H).
  - destruct (Qlt_le_dec t bp) as [Hlt|Hle].
    + exists t. split; [left; reflexivity|exact Hlt].
    + rewrite period_hdd_cons in H.
      assert (H0 : hdd t bp == 0) by (apply hdd_zero_iff; exact Hle).
      destruct (IH bp) as (t' & Hin & Ht'); [lra|].
      exists t'. split; [right; exact Hin|exact Ht'].
Qed.

(** X2.  A period has no degree days exactly when no day of it is colder
    than the balance point; a period without days has none. *)
Theorem period_hdd_zero_iff_no_day_below : forall temps bp,
  period_hdd temps bp == 0 <-> (forall t, In t temps -> bp <= t).
Proof.
  intros temps bp. split; [|apply period_hdd_zero_without_day_below].
  induction temps as [|t temps IH]; intros H t' Hin; [destruct Hin|].
  rewrite period_hdd_cons in H.
  pose proof (hdd_nonneg t bp). pose proof (period_hdd_nonneg temps bp).
  destruct Hin as [<-|Hin].
  - apply hdd_zero_iff. lra.
  - apply IH; [lra|exact Hin].
Qed.

Lemma period_hdd_zero_iff_no_day_below_witness :
  period_hdd [60; 65] 60 == 0.
Proof.
  apply (proj2 (period_hdd_zero_iff_no_day_below [60; 65] 60)).
  intros t [<-|[<-|[]]]; vm_compute; discriminate.
Defined.

(** ** The heat-load formulas *)



(** X5.  With the balance point at or below the average indoor
    temperature and [ua] not negative, the average heat load does not exceed
    the maximum heat load. *)
Theorem average_heat_load_below_max : forall dsp ait bp dt ua,
  bp <= ait -> 0 <= ua ->
  average_heat_load dsp ait bp dt ua <= max_heat_load dsp dt ua.
Proof.
  intros dsp ait bp dt ua H1 H2.
  unfold average_heat_load, max_heat_load. rewrite !fmul_correct.
  unfold fsub. rewrite !Qred_correct.
  assert (0 <= (ait - bp) * ua) by nra. lra.
Qed.

Lemma average_heat_load_below_max_witness :
  average_heat_load 70 65 60 10 500 <= max_heat_load 70 10 500.
Proof.
  apply (average_heat_load_below_max 70 65 60 10 500);
    vm_compute; discriminate.
Defined.

(** ** Constructing the periods *)

(** What the constructor computed, read back from the period. *)
Lemma BillingPeriod_init_inv : forall temps u home b,
  BillingPeriod_init temps u home = Ok b ->
  exists non_heating per_day,
    avg_non_heating_usage home = Some non_heating
    /\ fdiv u (of_nat (length temps)) = Ok per_day
    /\ avg_temps b = temps /\ usage b = u /\ days b = length temps
    /\ avg_heating_usage b = fsub per_day non_heating
    /\ total_hdd b = period_hdd temps (balance_point home)
    /\ calculate_partial_ua (length temps) (fsub per_day non_heating) home
       = Ok (partial_ua b)
    /\ fdiv (partial_ua b) (total_hdd b) = Ok (ua b).
Proof.
  intros temps u home b H. unfold BillingPeriod_init in H. cbv zeta in H.
  destruct (fdiv u (of_nat (length temps))) as [q| |] eqn:Eq; try discriminate.
  cbn [bind] in H.
  destruct (avg_non_heating_usage home) as [a|]; [|discriminate].
  cbn [getattr bind] in H.
  destruct (calculate_partial_ua _ _ home) as [p| |] eqn:Ep; try discriminate.
  cbn [bind] in H.
  destruct (fdiv p (period_hdd temps (balance_point home))) as [x| |] eqn:Ex;
    try discriminate.
  cbn [bind] in H. injection H as <-. cbn.
  exists a, q. repeat (split; [reflexivity|]).
  split; [exact Ep|exact Ex].
Qed.

Lemma BillingPeriod_init_positive : forall temps u home b,
  BillingPeriod_init temps u home = Ok b ->
  0 < period_hdd temps (balance_point home).
Proof.
  intros temps u home b H. apply BillingPeriod_init_inv in H.
  destruct H as (a & q & _ & _ & _ & _ & _ & _ & Ht & _ & Hx).
  apply fdiv_inv in Hx. destruct Hx as [Hh _]. rewrite Ht in Hh.
  pose proof (period_hdd_nonneg temps (balance_point home)) as Hn.
  destruct (Qlt_le_dec 0 (period_hdd temps (balance_point home))) as [Hp|Hp];
    [exact Hp|].
  exfalso. apply Hh. lra.
Qed.

(** X6.  A period that is constructed has at least one day, at least one
    day colder than the home's balance point, and so positive degree days.
    Its fields are the arguments and what lines 234-240 compute from them:
    the usage per day less the baseline, [calculate_partial_ua], and
    [partial_ua / total_hdd]. *)
Theorem billing_period_fields : forall temps u home b,
  BillingPeriod_init temps u home = Ok b ->
  exists non_heating per_day,
    avg_non_heating_usage home = Some non_heating
    /\ avg_temps b = temps /\ usage b = u /\ days b = length temps
    /\ (0 < days b)%nat
    /\ fdiv u (of_nat (days b)) = Ok per_day
    /\ avg_heating_usage b = fsub per_day non_heating
    /\ total_hdd b = period_hdd temps (balance_point home)
    /\ 0 < total_hdd b
    /\ (exists t, In t temps /\ t < balance_point home)
    /\ calculate_partial_ua (days b) (avg_heating_usage b) home
       = Ok (partial_ua b)
    /\ fdiv (partial_ua b) (total_hdd b) = Ok (ua b).
Proof.
  intros temps u home b H.
  pose proof (BillingPeriod_init_positive temps u home b H) as Hpos.
  apply BillingPeriod_init_inv in H.
  destruct H as (a & q & Ha & Eq & Hbt & Hbu & Hbd & Hah & Ht & Ep & Ex).
  assert (Hdays : (0 < length temps)%nat).
  { apply fdiv_inv in Eq. destruct Eq as [Hd _].
    destruct temps; [exfalso; apply Hd; reflexivity|cbn; lia]. }
  exists a, q. split; [exact Ha|]. split; [exact Hbt|]. split; [exact Hbu|].
  split; [exact Hbd|]. split; [rewrite Hbd; exact Hdays|].
  split; [rewrite Hbd; exact Eq|]. split; [exact Hah|].
  split; [exact Ht|]. split; [rewrite Ht; exact Hpos|].
  split; [apply period_hdd_positive_day; exact Hpos|].
  split; [rewrite Hbd, Hah; exact Ep|exact Ex].
Qed.

Lemma billing_period_fields_witness :
  exists non_heating per_day,
    avg_non_heating_usage (set_balance_point home_ready 67) = Some non_heating
    /\ avg_temps pair_first = [66] /\ usage pair_first = 48
    /\ days pair_first = length [66]
    /\ (0 < days pair_first)%nat
    /\ fdiv 48 (of_nat (days pair_first)) = Ok per_day
    /\ avg_heating_usage pair_first = fsub per_day non_heating
    /\ total_hdd pair_first
       = period_hdd [66] (balance_point (set_balance_point home_ready 67))
    /\ 0 < total_hdd pair_first
    /\ (exists t, In t [66]
                  /\ t < balance_point (set_balance_point home_ready 67))
    /\ calculate_partial_ua (days pair_first) (avg_heating_usage pair_first)
         (set_balance_point home_ready 67)
       = Ok (partial_ua pair_first)
    /\ fdiv (partial_ua pair_first) (total_hdd pair_first)
       = Ok (ua pair_first).
Proof.
  apply (billing_period_fields [66] 48
           (set_balance_point home_ready 67) pair_first).
  vm_compute. reflexivity.
Defined.

(** A period is constructed from the home's balance point, baseline usage,
    fuel and efficiency only. *)
Lemma BillingPeriod_init_set_bills : forall temps u h bs,
  BillingPeriod_init temps u (set_bills h bs) = BillingPeriod_init temps u h.
Proof. reflexivity. Qed.

Lemma BillingPeriod_init_returns_iff : forall temps u home,
  (exists b, BillingPeriod_init temps u home = Ok b)
  <-> (avg_non_heating_usage home <> None
       /\ 0 < period_hdd temps (balance_point home)).
Proof.
  intros temps u home. split.
  - intros [b H]. split; [|exact (BillingPeriod_init_positive _ _ _ _ H)].
    apply BillingPeriod_init_inv in H. destruct H as (a & q & Ha & _).
    congruence.
  - intros [Ha Hp]. destruct (avg_non_heating_usage home) as [a|] eqn:E;
      [|congruence].
    destruct (BillingPeriod_init_positive_hdd temps u home a E Hp) as (b & Hb & _).
    exists b. exact Hb.
Qed.

Lemma index_ok_iff : forall (A : Type) (xs : list A) i,
  (exists x, index xs i = Ok x) <-> (i < length xs)%nat.
Proof.
  intros A xs i. unfold index. split.
  - intros [x H]. apply nth_error_Some.
    destruct (nth_error xs i); [discriminate|discriminate H].
  - intro H. apply nth_error_Some in H.
    destruct (nth_error xs i) as [x|]; [exists x; reflexivity|congruence].
Qed.

Lemma index_nth_error : forall (A : Type) (xs : list A) i x,
  index xs i = Ok x <-> nth_error xs i = Some x.
Proof.
  intros A xs i x. unfold index.
  destruct (nth_error xs i) as [y|]; split; intro H;
    try discriminate; injection H as <-; reflexivity.
Qed.

(** The part of the home a period is constructed from, and what
    [initialize_billing_periods] leaves of the home. *)
Lemma append_billing_periods_returns : forall n k temps usages h h' pre a,
  bills h = Some pre ->
  avg_non_heating_usage h = Some a ->
  append_billing_periods (seq k n) temps usages h = Ok h' ->
  exists new,
    bills h' = Some (pre ++ new)
    /\ length new = n
    /\ (forall j b, nth_error new j = Some b ->
          nth_error temps (k + j) = Some (avg_temps b)
          /\ nth_error usages (k + j) = Some (usage b)
          /\ BillingPeriod_init (avg_temps b) (usage b) h = Ok b)
    /\ balance_point h' = balance_point h
    /\ thermostat_set_point h' = thermostat_set_point h
    /\ fuel_type h' = fuel_type h
    /\ heat_sys_efficiency h' = heat_sys_efficiency h
    /\ avg_non_heating_usage h' = Some a
    /\ uas h' = uas h /\ avg_ua h' = avg_ua h /\ stdev_pct h' = stdev_pct h.
Proof.
  induction n as [|n IH]; intros k temps usages h h' pre a Hb Ha H.
  - cbn in H. injection H as <-. exists []. rewrite app_nil_r.
    split; [exact Hb|]. split; [reflexivity|].
    split; [intros [|j] b Hj; discriminate|]. auto 10.
  - cbn [seq append_billing_periods] in H.
    destruct (index temps k) as [t| |] eqn:Et; try discriminate.
    cbn [bind] in H.
    destruct (index usages k) as [u| |] eqn:Eu; try discriminate.
    cbn [bind] in H.
    destruct (BillingPeriod_init t u h) as [b| |] eqn:Eb; try discriminate.
    cbn [bind] in H. rewrite Hb in H. cbn [getattr bind] in H.
    apply (IH (S k) temps usages _ h' (pre ++ [b]) a) in H;
      [|reflexivity|exact Ha].
    destruct H as (new & Hnew & Hlen & Hall & Hrest).
    exists (b :: new). rewrite <- app_assoc in Hnew.
    split; [exact Hnew|]. split; [cbn; lia|]. split; [|exact Hrest].
    pose proof (BillingPeriod_init_inv _ _ _ _ Eb) as Hf.
    destruct Hf as (_ & _ & _ & _ & Hbt & Hbu & _).
    intros [|j] b' Hj.
    + cbn in Hj. injection Hj as <-. rewrite Nat.add_0_r.
      rewrite Hbt, Hbu. apply index_nth_error in Et. apply index_nth_error in Eu.
      auto.
    + cbn in Hj. destruct (Hall j b' Hj) as (H1 & H2 & H3).
      replace (k + S j)%nat with (S k + j)%nat by lia.
      split; [exact H1|]. split; [exact H2|].
      rewrite BillingPeriod_init_set_bills in H3. exact H3.
Qed.

Lemma append_billing_periods_feasible : forall n k temps usages h a pre,
  bills h = Some pre ->
  avg_non_heating_usage h = Some a ->
  (k + n <= length temps)%nat ->
  (k + n <= length usages)%nat ->
  (forall i t, (k <= i < k + n)%nat -> nth_error temps i = Some t ->
     0 < period_hdd t (balance_point h)) ->
  exists h', append_billing_periods (seq k n) temps usages h = Ok h'.
Proof.
  induction n as [|n IH]; intros k temps usages h a pre Hb Ha Ht Hu Hall.
  - eexists. reflexivity.
  - cbn [seq append_billing_periods].
    destruct (proj2 (index_ok_iff _ temps k)) as [t Et]; [lia|].
    destruct (proj2 (index_ok_iff _ usages k)) as [u Eu]; [lia|].
    rewrite Et, Eu. cbn [bind].
    destruct (BillingPeriod_init_positive_hdd t u h a Ha) as (b & Eb & _).
    { apply (Hall k); [lia|]. apply index_nth_error. exact Et. }
    rewrite Eb. cbn [bind]. rewrite Hb. cbn [getattr bind].
    apply (IH (S k) temps usages _ a (pre ++ [b])); auto; try lia.
    intros i t' Hi Hn. apply (Hall i t'); [lia|exact Hn].
Qed.

Lemma append_billing_periods_needs : forall n k temps usages h h' a pre,
  bills h = Some pre ->
  avg_non_heating_usage h = Some a ->
  append_billing_periods (seq k n) temps usages h = Ok h' ->
  (0 < n -> k + n <= length temps)%nat
  /\ (forall i t, (k <= i < k + n)%nat -> nth_error temps i = Some t ->
        0 < period_hdd t (balance_point h)).
Proof.
  induction n as [|n IH]; intros k temps usages h h' a pre Hb Ha H.
  - split; [lia|]. intros i t Hi. lia.
  - cbn [seq append_billing_periods] in H.
    destruct (index temps k) as [t| |] eqn:Et; try discriminate.
    cbn [bind] in H.
    destruct (index usages k) as [u| |] eqn:Eu; try discriminate.
    cbn [bind] in H.
    destruct (BillingPeriod_init t u h) as [b| |] eqn:Eb; try discriminate.
    cbn [bind] in H. rewrite Hb in H. cbn [getattr bind] in H.
    apply (IH (S k) temps usages _ h' a (pre ++ [b])) in H;
      [|reflexivity|exact Ha].
    destruct H as [Hlen Hall]. cbn in Hall.
    assert (Hk : (k < length temps)%nat).
    { apply index_ok_iff. exists t. exact Et. }
    split; [intros _; destruct n; lia|].
    intros i t' Hi Hn.
    destruct (Nat.eq_dec i k) as [->|Hne].
    + apply index_nth_error in Et. rewrite Et in Hn. injection Hn as <-.
      apply (proj1 (BillingPeriod_init_returns_iff t u h)). exists b. exact Eb.
    + apply (Hall i t'); [lia|exact Hn].
Qed.

(** X7.  [initialize_billing_periods] returns exactly when there is a
    temperature list for every usage and each of those periods has positive
    degree days at the home's balance point.
    Temperature lists beyond the usages are ignored. *)
Theorem initialize_billing_periods_returns_iff : forall temps usages a h,
  (exists h', initialize_billing_periods temps usages a h = Ok h')
  <-> ((length usages <= length temps)%nat
       /\ forall i t, (i < length usages)%nat -> nth_error temps i = Some t ->
            0 < period_hdd t (balance_point h)).
Proof.
  intros temps usages a h. unfold initialize_billing_periods. split.
  - intros [h' H].
    apply (append_billing_periods_needs _ _ _ _ _ _ a []) in H;
      [|reflexivity|reflexivity].
    destruct H as [Hlen Hall]. split.
    + destruct usages; [cbn; lia|]. apply Hlen. cbn. lia.
    + intros i t Hi Hn. apply (Hall i t); [lia|exact Hn].
  - intros [Hlen Hall].
    apply (append_billing_periods_feasible _ _ _ _ _ a []);
      try reflexivity; try lia.
    intros i t Hi Hn. apply (Hall i t); [lia|exact Hn].
Qed.

(** X8.  When [initialize_billing_periods] returns, the home has one bill
    per usage, in order, the [i]-th constructed from [temps[i]] and
    [usages[i]] with the new baseline usage; the bills it had before are
    gone, and its balance point, set point, fuel and efficiency are
    untouched. *)
Theorem initialize_billing_periods_result : forall temps usages a h h',
  initialize_billing_periods temps usages a h = Ok h' ->
  exists bs,
    bills h' = Some bs
    /\ length bs = length usages
    /\ (forall i b, nth_error bs i = Some b ->
          nth_error temps i = Some (avg_temps b)
          /\ nth_error usages i = Some (usage b)
          /\ BillingPeriod_init (avg_temps b) (usage b)
               (set_avg_non_heating_usage h a) = Ok b)
    /\ avg_non_heating_usage h' = Some a
    /\ balance_point h' = balance_point h
    /\ thermostat_set_point h' = thermostat_set_point h
    /\ fuel_type h' = fuel_type h
    /\ heat_sys_efficiency h' = heat_sys_efficiency h.
Proof.
  intros temps usages a h h' H. unfold initialize_billing_periods in H.
  apply (append_billing_periods_returns _ _ _ _ _ _ [] a) in H;
    [|reflexivity|reflexivity].
  destruct H as (new & Hb & Hlen & Hall & Hbp & Htsp & Hf & He & Ha & _).
  exists new. cbn in Hb.
  split; [exact Hb|]. split; [exact Hlen|].
  split; [|auto]. intros i b Hi.
  destruct (Hall i b Hi) as (H1 & H2 & H3). auto.
Qed.

Lemma initialize_billing_periods_returns_iff_witness :
  exists h',
    initialize_billing_periods [[30; 40]; [40; 45]; [10]] [24; 96] 0 home_fresh
    = Ok h'.
Proof.
  apply (proj2 (initialize_billing_periods_returns_iff
                  [[30; 40]; [40; 45]; [10]] [24; 96] 0 home_fresh)).
  split; [cbn; lia|].
  intros [|[|i]] t Hi Hn; cbn in Hi, Hn; try lia;
    injection Hn as <-; vm_compute; reflexivity.
Defined.

Lemma initialize_billing_periods_result_witness :
  exists bs,
    bills home_rising = Some bs
    /\ length bs = length [24; 96]
    /\ (forall i b, nth_error bs i = Some b ->
          nth_error [[30; 40]; [40; 45]] i = Some (avg_temps b)
          /\ nth_error [24; 96] i = Some (usage b)
          /\ BillingPeriod_init (avg_temps b) (usage b)
               (set_avg_non_heating_usage home_fresh 0) = Ok b)
    /\ avg_non_heating_usage home_rising = Some 0
    /\ balance_point home_rising = balance_point home_fresh
    /\ thermostat_set_point home_rising = thermostat_set_point home_fresh
    /\ fuel_type home_rising = fuel_type home_fresh
    /\ heat_sys_efficiency home_rising = heat_sys_efficiency home_fresh.
Proof.
  apply (initialize_billing_periods_result [[30; 40]; [40; 45]] [24; 96] 0
           home_fresh home_rising).
  vm_compute. reflexivity.
Defined.

(** ** Loops that end *)

Lemma while_loop_settles : forall (S : Type) (body : S -> result (ctl S))
    fuel fuel' s,
  while_loop fuel body s <> OutOfFuel -> (fuel <= fuel')%nat ->
  while_loop fuel' body s = while_loop fuel body s.
Proof.
  intros S body fuel. induction fuel as [|fuel IH]; intros fuel' s H Hle.
  - exfalso. apply H. reflexivity.
  - destruct fuel' as [|fuel']; [lia|]. cbn [while_loop] in *.
    destruct (body s) as [[s1|s1]| |]; try reflexivity.
    cbn [bind] in *. apply IH; [exact H|lia].
Qed.

Lemma halts_break : forall (S : Type) (body : S -> result (ctl S)) s s',
  body s = Ok (Break s') -> halts body s.
Proof.
  intros S body s s' H. exists 1%nat. cbn [while_loop]. rewrite H. discriminate.
Qed.

Lemma halts_raise : forall (S : Type) (body : S -> result (ctl S)) s e,
  body s = Raise e -> halts body s.
Proof.
  intros S body s e H. exists 1%nat. cbn [while_loop]. rewrite H. discriminate.
Qed.

Lemma halts_continue : forall (S : Type) (body : S -> result (ctl S)) s s',
  body s = Ok (Continue s') -> halts body s' -> halts body s.
Proof.
  intros S body s s' H [fuel Hf]. exists (Datatypes.S fuel).
  cbn [while_loop]. rewrite H. exact Hf.
Qed.

(** ** Nothing but the loops uses fuel *)

Lemma mapM_uses_no_fuel : forall (A B : Type) (f : A -> result B) xs,
  (forall x, f x <> OutOfFuel) -> mapM f xs <> OutOfFuel.
Proof.
  intros A B f xs Hf. induction xs as [|x xs IH]; [discriminate|].
  cbn [mapM]. pose proof (Hf x) as Hx.
  destruct (f x) as [y| |]; [|discriminate|congruence].
  cbn [bind]. destruct (mapM f xs) as [ys| |]; [discriminate|discriminate|congruence].
Qed.

Lemma fdiv_uses_no_fuel : forall x y, fdiv x y <> OutOfFuel.
Proof. intros x y. unfold fdiv. destruct (Qeq_bool y 0); discriminate. Qed.

Lemma mean_uses_no_fuel : forall xs, mean xs <> OutOfFuel.
Proof. intros [|x xs]; discriminate. Qed.

Section Ends.

Variable sqrt : Q -> Q.

Lemma pstdev_uses_no_fuel : forall xs, pstdev sqrt xs <> OutOfFuel.
Proof.
  intro xs. unfold pstdev, pvariance.
  pose proof (mean_uses_no_fuel xs) as H.
  destruct (mean xs) as [m| |]; [discriminate|discriminate|congruence].
Qed.

Lemma trial_statistics_uses_no_fuel : forall bs bp,
  trial_statistics sqrt bs bp <> OutOfFuel.
Proof.
  intros bs bp. unfold trial_statistics.
  pose proof (mapM_uses_no_fuel _ _
                (fun bill => fdiv (partial_ua bill) (period_hdd (avg_temps bill) bp))
                bs (fun b => fdiv_uses_no_fuel _ _)) as H.
  destruct (mapM _ bs) as [us| |]; [|discriminate|congruence]. cbn [bind].
  pose proof (mean_uses_no_fuel us) as Hm.
  destruct (mean us) as [m| |]; [|discriminate|congruence]. cbn [bind].
  pose proof (pstdev_uses_no_fuel us) as Hs.
  destruct (pstdev sqrt us) as [sd| |]; [|discriminate|congruence]. cbn [bind].
  pose proof (fdiv_uses_no_fuel sd m) as Hd.
  destruct (fdiv sd m) as [p| |]; [discriminate|discriminate|congruence].
Qed.

Lemma try_balance_point_uses_no_fuel : forall s d h,
  try_balance_point sqrt s d h <> OutOfFuel.
Proof.
  intros s d h. rewrite try_balance_point_eq.
  destruct (flt (thermostat_set_point h) (trial_point s d h)); [discriminate|].
  destruct (bills h) as [bs|]; [|discriminate]. cbn [getattr bind].
  pose proof (trial_statistics_uses_no_fuel bs (trial_point s d h)) as H.
  destruct (trial_statistics sqrt bs (trial_point s d h)) as [[[us a] p]| |];
    [|discriminate|congruence].
  cbn [bind]. destruct (stdev_pct h) as [cur|]; [|discriminate].
  cbn [getattr bind]. destruct (flt p cur); discriminate.
Qed.

(** ** The search ends *)

Lemma trial_point_value : forall s d h,
  trial_point s d h == balance_point h + inject_Z d * s.
Proof.
  intros s d h. unfold trial_point. rewrite fadd_correct, fmul_correct.
  reflexivity.
Qed.

Lemma improved_facts : forall s d h h',
  try_balance_point sqrt s d h = Ok (Improved h') ->
  balance_point h' == balance_point h + inject_Z d * s
  /\ balance_point h' <= thermostat_set_point h
  /\ thermostat_set_point h' = thermostat_set_point h
  /\ exists bs r, bills h = Some bs
                  /\ bills h' = Some (map (resync (balance_point h')) bs)
                  /\ trial_statistics sqrt bs (balance_point h') = Ok r.
Proof.
  intros s d h h' H. apply try_improved_inv in H.
  destruct H as (bs & us & avg & pct & cur & Hb & Hle & Hs & _ & _ & ->).
  cbn. split; [apply trial_point_value|]. split; [exact Hle|].
  split; [reflexivity|]. exists bs, (us, avg, pct). auto.
Qed.

(** One direction left: what a pass does. *)
Lemma single_direction_pass : forall s d h,
  (exists st, refine_body sqrt s ([d], h) = Ok (Break st))
  \/ (exists e, refine_body sqrt s ([d], h) = Raise e)
  \/ refine_body sqrt s ([d], h) = Ok (Continue ([], h))
  \/ (exists h', try_balance_point sqrt s d h = Ok (Improved h')
                 /\ refine_body sqrt s ([d], h) = Ok (Continue ([d], h'))).
Proof.
  intros s d h. unfold refine_body.
  pose proof (try_balance_point_uses_no_fuel s d h) as Hf.
  destruct (try_balance_point sqrt s d h) as [[|h'|]| |]; cbn.
  - left. eexists. reflexivity.
  - right. right. right. exists h'. auto.
  - right. right. left. reflexivity.
  - right. left. eexists. reflexivity.
  - congruence.
Qed.

Lemma halts_no_direction : forall s h, halts (refine_body sqrt s) ([], h).
Proof. intros s h. apply (halts_break _ _ _ ([], h)). reflexivity. Qed.

(** Steps towards the set point: at most [n] of them fit below it. *)
Lemma halts_towards_set_point : forall n s d h,
  0 < inject_Z d * s ->
  thermostat_set_point h - balance_point h < of_nat n * (inject_Z d * s) ->
  halts (refine_body sqrt s) ([d], h).
Proof.
  induction n as [|n IH]; intros s d h Hpos Hn;
    destruct (single_direction_pass s d h)
      as [[st H]|[[e H]|[H|(h' & Ht & H)]]];
    try (apply (halts_break _ _ _ _ H));
    try (apply (halts_raise _ _ _ _ H));
    try (apply (halts_continue _ _ _ _ H); apply halts_no_direction).
  - exfalso. apply improved_facts in Ht. destruct Ht as (Hbp & Hle & _).
    change (of_nat 0) with 0 in Hn. rewrite Hbp in Hle. lra.
  - apply (halts_continue _ _ _ _ H). apply IH; [exact Hpos|].
    apply improved_facts in Ht. destruct Ht as (Hbp & _ & -> & _).
    rewrite Hbp. unfold of_nat in *.
    rewrite Nat2Z.inj_succ, <- Z.add_1_r, inject_Z_plus in Hn.
    change (inject_Z 1) with 1 in Hn. lra.
Qed.

Lemma floored_kept : forall m s d h h',
  floored sqrt m h -> try_balance_point sqrt s d h = Ok (Improved h') ->
  floored sqrt m h' /\ m < balance_point h'.
Proof.
  intros m s d h h' Hfl Ht. apply improved_facts in Ht.
  destruct Ht as (_ & _ & _ & bs & r & Hb & Hb' & Hs). split.
  - intros bs' bp r' Hbs' Hs'. rewrite Hb' in Hbs'. injection Hbs' as <-.
    rewrite trial_statistics_resync in Hs'. apply (Hfl bs bp r' Hb Hs').
  - apply (Hfl bs _ r Hb Hs).
Qed.

(** Steps away from the set point: every committed one stays above [m]. *)
Lemma halts_towards_floor : forall n s d m h,
  inject_Z d * s < 0 ->
  floored sqrt m h ->
  balance_point h - m < of_nat n * - (inject_Z d * s) ->
  halts (refine_body sqrt s) ([d], h).
Proof.
  induction n as [|n IH]; intros s d m h Hneg Hfl Hn;
    destruct (single_direction_pass s d h)
      as [[st H]|[[e H]|[H|(h' & Ht & H)]]];
    try (apply (halts_break _ _ _ _ H));
    try (apply (halts_raise _ _ _ _ H));
    try (apply (halts_continue _ _ _ _ H); apply halts_no_direction).
  - exfalso. destruct (floored_kept m s d h h' Hfl Ht) as [_ Hm].
    apply improved_facts in Ht. destruct Ht as (Hbp & _).
    change (of_nat 0) with 0 in Hn. rewrite Hbp in Hm. lra.
  - apply (halts_continue _ _ _ _ H).
    destruct (floored_kept m s d h h' Hfl Ht) as [Hfl' _].
    apply (IH s d m h' Hneg Hfl').
    apply improved_facts in Ht. destruct Ht as (Hbp & _).
    rewrite Hbp. unfold of_nat in *.
    rewrite Nat2Z.inj_succ, <- Z.add_1_r, inject_Z_plus in Hn.
    change (inject_Z 1) with 1 in Hn. lra.
Qed.

(** A step of length zero from a settled home leads nowhere new. *)
Lemma still_blocked : forall s d h,
  settled sqrt h -> inject_Z d * s == 0 -> blocked sqrt s d h.
Proof.
  intros s d h (bs & avg & pct & Hb & Hs & _ & Hp) Hz.
  unfold blocked. rewrite try_balance_point_eq.
  destruct (flt (thermostat_set_point h) (trial_point s d h));
    [left; reflexivity|right].
  rewrite Hb. cbn [getattr bind].
  assert (Hsame : trial_point s d h == balance_point h).
  { rewrite trial_point_value, Hz. ring. }
  rewrite (trial_statistics_equal_points sqrt _ _ _ Hsame), Hs. cbn [bind].
  rewrite Hp. cbn [getattr bind].
  assert (Hf : flt pct pct = false) by (apply flt_false; apply Qle_refl).
  rewrite Hf. reflexivity.
Qed.

Lemma halts_standing_still : forall s d h,
  inject_Z d * s == 0 -> halts (refine_body sqrt s) ([d], h).
Proof.
  intros s d h Hz.
  destruct (single_direction_pass s d h)
    as [[st H]|[[e H]|[H|(h' & Ht & H)]]];
    try (apply (halts_break _ _ _ _ H));
    try (apply (halts_raise _ _ _ _ H));
    try (apply (halts_continue _ _ _ _ H); apply halts_no_direction).
  apply (halts_continue _ _ _ _ H).
  pose proof (still_blocked s d h' (committed_trial_settled sqrt s d h h' Ht) Hz)
    as Hbl.
  destruct (single_direction_pass s d h')
    as [[st H']|[[e H']|[H'|(h'' & Ht' & H')]]];
    try (apply (halts_break _ _ _ _ H'));
    try (apply (halts_raise _ _ _ _ H'));
    try (apply (halts_continue _ _ _ _ H'); apply halts_no_direction).
  exfalso. destruct Hbl as [Hbl|Hbl]; congruence.
Qed.

Lemma rationals_archimedean : forall x step,
  0 < step -> exists n, x < of_nat n * step.
Proof.
  intros x step Hs.
  set (q := x / step).
  exists (Z.to_nat (Z.max 0 (Qnum q) + 1)).
  assert (Hq : q < of_nat (Z.to_nat (Z.max 0 (Qnum q) + 1))).
  { unfold of_nat. rewrite Z2Nat.id by lia.
    unfold Qlt. cbn. destruct q as [a b]. cbn. nia. }
  assert (Hx : x == q * step) by (unfold q; field; lra).
  rewrite Hx. apply Qmult_lt_r; assumption.
Qed.

Lemma lower_bound_exists : forall l : list Q,
  exists m, forall t, In t l -> m <= t.
Proof.
  induction l as [|x l [m Hm]].
  - exists 0. intros t [].
  - destruct (Qlt_le_dec x m) as [Hlt|Hle].
    + exists x. intros t [<-|Hin]; [apply Qle_refl|].
      apply Qlt_le_weak. eapply Qlt_le_trans; [exact Hlt|apply Hm; exact Hin].
    + exists m. intros t [<-|Hin]; [exact Hle|apply Hm; exact Hin].
Qed.

Lemma floor_exists : forall h, exists m, floored sqrt m h.
Proof.
  intro h. destruct (bills h) as [[|b0 bs]|] eqn:Eb.
  - exists 0. intros bs bp r Hb Hs. rewrite Eb in Hb. injection Hb as <-.
    discriminate.
  - destruct (lower_bound_exists (avg_temps b0)) as [m Hm].
    exists m. intros bs' bp r Hb Hs. rewrite Eb in Hb. injection Hb as <-.
    unfold trial_statistics in Hs. cbn [mapM] in Hs.
    destruct (fdiv (partial_ua b0) (period_hdd (avg_temps b0) bp))
      as [u| |] eqn:Eu; try discriminate.
    apply fdiv_inv in Eu. destruct Eu as [Hnz _].
    destruct (Qlt_le_dec m bp) as [Hlt|Hle]; [exact Hlt|].
    exfalso. apply Hnz. apply period_hdd_zero_without_day_below.
    intros t Hin. eapply Qle_trans; [exact Hle|apply Hm; exact Hin].
  - exists 0. intros bs bp r Hb. rewrite Eb in Hb. discriminate.
Qed.

Lemma halts_single_direction : forall s d h,
  halts (refine_body sqrt s) ([d], h).
Proof.
  intros s d h.
  destruct (Q_dec (inject_Z d * s) 0) as [[Hneg|Hpos]|Hz].
  - destruct (floor_exists h) as [m Hfl].
    destruct (rationals_archimedean (balance_point h - m) (- (inject_Z d * s)))
      as [n Hn]; [lra|].
    apply (halts_towards_floor n s d m h Hneg Hfl Hn).
  - destruct (rationals_archimedean
                (thermostat_set_point h - balance_point h) (inject_Z d * s) Hpos)
      as [n Hn].
    apply (halts_towards_set_point n s d h Hpos Hn).
  - apply (halts_standing_still s d h Hz).
Qed.

Lemma halts_search : forall s h,
  halts (refine_body sqrt s) ([1%Z; (-1)%Z], h).
Proof.
  intros s h.
  pose proof (try_balance_point_uses_no_fuel s 1 h) as Hf.
  destruct (try_balance_point sqrt s 1 h) as [[|h'|]| |] eqn:Et.
  - apply (halts_break _ _ _ ([1%Z; (-1)%Z], h)).
    unfold refine_body. rewrite Et. reflexivity.
  - apply (halts_continue _ _ _ ([1%Z], h')).
    + unfold refine_body. rewrite Et. reflexivity.
    + apply halts_single_direction.
  - apply (halts_continue _ _ _ ([(-1)%Z], h)).
    + unfold refine_body. rewrite Et. reflexivity.
    + apply halts_single_direction.
  - apply (halts_raise _ _ _ e). unfold refine_body. rewrite Et. reflexivity.
  - congruence.
Qed.

Lemma search_ends : forall s h,
  exists fuel, refine_balance_point sqrt fuel s h <> OutOfFuel.
Proof.
  intros s h. destruct (halts_search s h) as [fuel Hf].
  exists fuel. unfold refine_balance_point.
  destruct (while_loop fuel (refine_body sqrt s) ([1%Z; (-1)%Z], h))
    as [[dirs h']| |]; [discriminate|discriminate|congruence].
Qed.

(** Fuel beyond what the search needs changes nothing. *)
Lemma refine_balance_point_settles : forall fuel fuel' s h,
  refine_balance_point sqrt fuel s h <> OutOfFuel -> (fuel <= fuel')%nat ->
  refine_balance_point sqrt fuel' s h = refine_balance_point sqrt fuel s h.
Proof.
  intros fuel fuel' s h H Hle. unfold refine_balance_point in *.
  rewrite (while_loop_settles _ _ fuel fuel'); [reflexivity| |exact Hle].
  intro E. rewrite E in H. apply H. reflexivity.
Qed.

End Ends.

(** X9.  [refine_balance_point] always ends: for every home and every
    sensitivity (positive, negative or zero) there is an amount of fuel with
    which the search returns or raises, and more fuel gives the same
    result. *)
Theorem refine_balance_point_ends : forall (sqrt : Q -> Q) s h,
  exists fuel,
    refine_balance_point sqrt fuel s h <> OutOfFuel
    /\ forall fuel', (fuel <= fuel')%nat ->
         refine_balance_point sqrt fuel' s h = refine_balance_point sqrt fuel s h.
Proof.
  intros sqrt s h. destruct (search_ends sqrt s h) as [fuel Hf].
  exists fuel. split; [exact Hf|].
  intros fuel' Hle. apply refine_balance_point_settles; [exact Hf|exact Hle].
Qed.

(** ** The outlier loop ends *)

Lemma while_loop_settles_with : forall (S : Type)
    (body body' : S -> result (ctl S)) fuel fuel' s,
  (forall x, body x <> OutOfFuel -> body' x = body x) ->
  while_loop fuel body s <> OutOfFuel -> (fuel <= fuel')%nat ->
  while_loop fuel' body' s = while_loop fuel body s.
Proof.
  intros S body body' fuel. induction fuel as [|fuel IH];
    intros fuel' s Hb H Hle.
  - exfalso. apply H. reflexivity.
  - destruct fuel' as [|fuel']; [lia|]. cbn [while_loop] in *.
    assert (Hs : body s <> OutOfFuel).
    { intro E. rewrite E in H. apply H. reflexivity. }
    rewrite (Hb s Hs).
    destruct (body s) as [[s1|s1]| |]; try reflexivity.
    cbn [bind] in *. apply IH; [exact Hb|exact H|lia].
Qed.

Lemma pop_length : forall (A : Type) (xs : list A) i y rest,
  pop i xs = Ok (y, rest) -> length xs = Datatypes.S (length rest).
Proof.
  intros A xs i y rest H. apply pop_inv in H. destruct H as (_ & _ & Hp).
  apply Permutation_length in Hp. exact Hp.
Qed.

Lemma pop_uses_no_fuel : forall (A : Type) (xs : list A) i,
  pop i xs <> OutOfFuel.
Proof.
  intros A xs. induction xs as [|x xs IH]; intro i; [destruct i; discriminate|].
  destruct i as [|i]; [discriminate|]. cbn [pop].
  pose proof (IH i) as H.
  destruct (pop i xs) as [[y r]| |]; [discriminate|discriminate|congruence].
Qed.

Section OutlierLoopEnds.

Variable sqrt : Q -> Q.

Lemma compute_statistics_uses_no_fuel : forall h,
  compute_statistics sqrt h <> OutOfFuel.
Proof.
  intro h. unfold compute_statistics.
  destruct (bills h) as [bs|]; [|discriminate]. cbn [getattr bind]. cbv zeta.
  pose proof (mean_uses_no_fuel (map ua bs)) as Hm.
  destruct (mean (map ua bs)) as [m| |]; [|discriminate|congruence].
  cbn [bind].
  pose proof (pstdev_uses_no_fuel sqrt (map ua bs)) as Hs.
  destruct (pstdev sqrt (map ua bs)) as [sd| |]; [|discriminate|congruence].
  cbn [bind].
  pose proof (fdiv_uses_no_fuel sd m) as Hd.
  destruct (fdiv sd m) as [p| |]; [discriminate|discriminate|congruence].
Qed.

Lemma exclude_outlier_uses_no_fuel : forall h,
  exclude_outlier sqrt h <> OutOfFuel.
Proof.
  intro h. unfold exclude_outlier, biggest_outlier_idx.
  destruct (bills h) as [bs|]; [|discriminate]. cbn [getattr bind].
  pose proof (mapM_uses_no_fuel _ _
                (fun bill => avg <- getattr (avg_ua h) ;;
                             Ok (fabs (fsub (ua bill) avg))) bs) as Hm.
  destruct (mapM _ bs) as [devs| |];
    [|discriminate|exfalso; apply Hm; [|reflexivity];
      intro b; destruct (avg_ua h); discriminate].
  cbn [bind]. destruct devs as [|x devs]; [discriminate|]. cbn [argmax bind].
  pose proof (pop_uses_no_fuel _ bs (argmax_from 0 x 1 devs)) as Hp.
  destruct (pop _ bs) as [[o rest]| |]; [|discriminate|congruence].
  cbn [bind]. cbv zeta.
  pose proof (mean_uses_no_fuel (map ua rest)) as Hmn.
  destruct (mean (map ua rest)) as [m| |]; [|discriminate|congruence].
  cbn [bind].
  pose proof (pstdev_uses_no_fuel sqrt (map ua rest)) as Hs.
  destruct (pstdev sqrt (map ua rest)) as [sd| |]; [|discriminate|congruence].
  cbn [bind].
  pose proof (fdiv_uses_no_fuel sd m) as Hd.
  destruct (fdiv sd m) as [p| |]; [discriminate|discriminate|congruence].
Qed.

Lemma outlier_body_settles : forall fuel fuel' mx diff nxt h,
  (fuel <= fuel')%nat ->
  outlier_body sqrt fuel mx diff nxt h <> OutOfFuel ->
  outlier_body sqrt fuel' mx diff nxt h = outlier_body sqrt fuel mx diff nxt h.
Proof.
  intros fuel fuel' mx diff nxt h Hle H. unfold outlier_body in *.
  destruct (stdev_pct h) as [cur|]; [|reflexivity]. cbn [getattr bind] in *.
  destruct (flt mx cur); [|reflexivity].
  destruct (exclude_outlier sqrt h) as [[[o h1] [[us avg] pct]]| |];
    try reflexivity.
  cbn [bind] in *. destruct (flt (fsub cur pct) diff); [reflexivity|].
  cbv zeta in *.
  rewrite (refine_balance_point_settles sqrt fuel fuel'); [reflexivity| |exact Hle].
  intro E. rewrite E in H. apply H. reflexivity.
Qed.

Lemma refine_keeps_bill_count : forall fuel s h h' n,
  (exists bs, bills h = Some bs /\ length bs = n) ->
  refine_balance_point sqrt fuel s h = Ok h' ->
  exists bs', bills h' = Some bs' /\ length bs' = n.
Proof.
  intros fuel s h h' n Hn H.
  apply (refine_balance_point_invariant sqrt
           (fun x => exists bs, bills x = Some bs /\ length bs = n))
    with (2 := Hn) (3 := H).
  intros s0 d h1 h2 (bs & Hb & Hl) Ht. apply improved_facts in Ht.
  destruct Ht as (_ & _ & _ & bs1 & r & Hb1 & Hb2 & _).
  rewrite Hb in Hb1. injection Hb1 as <-.
  eexists. split; [exact Hb2|]. rewrite length_map. exact Hl.
Qed.

Lemma outlier_loop_ends : forall k mx diff nxt h,
  (forall bs, bills h = Some bs -> (length bs <= k)%nat) ->
  exists passes fuel,
    while_loop passes (outlier_body sqrt fuel mx diff nxt) h <> OutOfFuel.
Proof.
  induction k as [|k IH]; intros mx diff nxt h Hk.
  - exists 1%nat, 0%nat. cbn [while_loop]. unfold outlier_body.
    destruct (stdev_pct h) as [cur|]; [|discriminate]. cbn [getattr bind].
    destruct (flt mx cur); [|discriminate].
    pose proof (exclude_outlier_uses_no_fuel h) as Hf.
    destruct (exclude_outlier sqrt h) as [[[o h1] [[us avg] pct]]| |] eqn:Ee;
      [|discriminate|congruence].
    exfalso. apply exclude_outlier_inv in Ee.
    destruct Ee as (bs & a & idx & rest & sd & Hb & _ & _ & Hp & _).
    apply pop_length in Hp. specialize (Hk bs Hb). lia.
  - destruct (stdev_pct h) as [cur|] eqn:Ec.
    2:{ exists 1%nat, 0%nat. cbn [while_loop]. unfold outlier_body.
        rewrite Ec. discriminate. }
    destruct (flt mx cur) eqn:Em.
    2:{ exists 1%nat, 0%nat. cbn [while_loop]. unfold outlier_body.
        rewrite Ec. cbn [getattr bind]. rewrite Em. discriminate. }
    pose proof (exclude_outlier_uses_no_fuel h) as Hf.
    destruct (exclude_outlier sqrt h) as [[[o h1] [[us avg] pct]]| |] eqn:Ee;
      [|exists 1%nat, 0%nat; cbn [while_loop]; unfold outlier_body;
        rewrite Ec; cbn [getattr bind]; rewrite Em, Ee; discriminate
       |congruence].
    destruct (flt (fsub cur pct) diff) eqn:Ed.
    { exists 1%nat, 0%nat. cbn [while_loop]. unfold outlier_body.
      rewrite Ec. cbn [getattr bind]. rewrite Em, Ee. cbn [bind].
      rewrite Ed. destruct (bills h1); discriminate. }
    set (h2 := set_stdev_pct (set_avg_ua (set_uas h1 us) avg) pct).
    destruct (search_ends sqrt nxt h2) as [f0 Hf0].
    assert (Hbody : forall f, (f0 <= f)%nat ->
              outlier_body sqrt f mx diff nxt h
              = (h3 <- refine_balance_point sqrt f0 nxt h2 ;; Ok (Continue h3))).
    { intros f Hle. unfold outlier_body. rewrite Ec. cbn [getattr bind].
      rewrite Em, Ee. cbn [bind]. rewrite Ed. cbv zeta. fold h2.
      rewrite (refine_balance_point_settles sqrt f0 f nxt h2 Hf0 Hle). reflexivity. }
    destruct (refine_balance_point sqrt f0 nxt h2) as [h3| |] eqn:Er;
      [|exists 1%nat, f0; cbn [while_loop]; rewrite (Hbody f0 (le_n _));
        discriminate
       |congruence].
    pose proof Ee as Ee'. apply exclude_outlier_inv in Ee'.
    destruct Ee' as (bs & a & idx & rest & sd & Hb & _ & _ & Hp & Hh1 & _).
    apply pop_length in Hp.
    assert (Hlen : exists bs', bills h3 = Some bs' /\ length bs' = length rest).
    { apply (refine_keeps_bill_count f0 nxt h2 h3 (length rest)); [|exact Er].
      exists rest. split; [|reflexivity]. unfold h2. rewrite Hh1. reflexivity. }
    destruct Hlen as (bs3 & Hb3 & Hl3).
    destruct (IH mx diff nxt h3) as (n1 & f1 & Hn1).
    { intros bs' Hbs'. rewrite Hb3 in Hbs'. injection Hbs' as <-.
      specialize (Hk bs Hb). lia. }
    exists (Datatypes.S n1), (Nat.max f0 f1). cbn [while_loop].
    rewrite (Hbody _ (Nat.le_max_l f0 f1)). cbn [bind].
    rewrite (while_loop_settles_with _
               (outlier_body sqrt f1 mx diff nxt)
               (outlier_body sqrt (Nat.max f0 f1) mx diff nxt) n1 n1);
      [exact Hn1| |exact Hn1|lia].
    intros x Hx. apply outlier_body_settles; [apply Nat.le_max_r|exact Hx].
Qed.

Lemma calculate_settles : forall fuel fuel' ini mx diff nxt h,
  calculate_balance_point_and_ua sqrt fuel ini mx diff nxt h <> OutOfFuel ->
  (fuel <= fuel')%nat ->
  calculate_balance_point_and_ua sqrt fuel' ini mx diff nxt h
  = calculate_balance_point_and_ua sqrt fuel ini mx diff nxt h.
Proof.
  intros fuel fuel' ini mx diff nxt h H Hle.
  unfold calculate_balance_point_and_ua in *.
  destruct (compute_statistics sqrt h) as [h1| |]; try reflexivity.
  cbn [bind] in *.
  assert (Hr : refine_balance_point sqrt fuel ini h1 <> OutOfFuel).
  { intro E. rewrite E in H. apply H. reflexivity. }
  rewrite (refine_balance_point_settles sqrt fuel fuel' ini h1 Hr Hle).
  destruct (refine_balance_point sqrt fuel ini h1) as [h2| |]; try reflexivity.
  cbn [bind] in *.
  apply while_loop_settles_with; [|exact H|exact Hle].
  intros x Hx. apply outlier_body_settles; [exact Hle|exact Hx].
Qed.

End OutlierLoopEnds.

(** X10.  [calculate_balance_point_and_ua] always ends: every pass of
    the outlier loop that goes round again has excluded a period, and every
    search ends; with enough fuel the call returns or raises, and more fuel
    gives the same result. *)
Theorem calculate_balance_point_and_ua_ends : forall (sqrt : Q -> Q)
    ini mx diff nxt h,
  exists fuel,
    calculate_balance_point_and_ua sqrt fuel ini mx diff nxt h <> OutOfFuel
    /\ forall fuel', (fuel <= fuel')%nat ->
         calculate_balance_point_and_ua sqrt fuel' ini mx diff nxt h
         = calculate_balance_point_and_ua sqrt fuel ini mx diff nxt h.
Proof.
  intros sqrt ini mx diff nxt h.
  assert (Hex : exists fuel,
            calculate_balance_point_and_ua sqrt fuel ini mx diff nxt h
            <> OutOfFuel).
  { unfold calculate_balance_point_and_ua.
    pose proof (compute_statistics_uses_no_fuel sqrt h) as Hc.
    destruct (compute_statistics sqrt h) as [h1| |];
      [|exists 0%nat; discriminate|congruence].
    cbn [bind].
    destruct (search_ends sqrt ini h1) as [f0 Hf0].
    pose proof (fun f' Hle =>
                  refine_balance_point_settles sqrt f0 f' ini h1 Hf0 Hle) as Hst.
    destruct (refine_balance_point sqrt f0 ini h1) as [h2| |] eqn:Er;
      [|exists f0; rewrite Er; discriminate|congruence].
    destruct (bills h2) as [bs|] eqn:Eb.
    - destruct (outlier_loop_ends sqrt (length bs) mx diff nxt h2)
        as (n1 & f1 & Hn1).
      { intros bs' Hbs'. rewrite Eb in Hbs'. injection Hbs' as <-. lia. }
      exists (Nat.max f0 (Nat.max n1 f1)).
      rewrite (Hst _ (Nat.le_max_l _ _)). cbn [bind].
      rewrite (while_loop_settles_with _
                 (outlier_body sqrt f1 mx diff nxt)
                 (outlier_body sqrt (Nat.max f0 (Nat.max n1 f1)) mx diff nxt)
                 n1 (Nat.max f0 (Nat.max n1 f1)));
        [exact Hn1| |exact Hn1|lia].
      intros x Hx. apply outlier_body_settles; [lia|exact Hx].
    - destruct (outlier_loop_ends sqrt 0 mx diff nxt h2) as (n1 & f1 & Hn1).
      { intros bs' Hbs'. rewrite Eb in Hbs'. discriminate. }
      exists (Nat.max f0 (Nat.max n1 f1)).
      rewrite (Hst _ (Nat.le_max_l _ _)). cbn [bind].
      rewrite (while_loop_settles_with _
                 (outlier_body sqrt f1 mx diff nxt)
                 (outlier_body sqrt (Nat.max f0 (Nat.max n1 f1)) mx diff nxt)
                 n1 (Nat.max f0 (Nat.max n1 f1)));
        [exact Hn1| |exact Hn1|lia].
      intros x Hx. apply outlier_body_settles; [lia|exact Hx]. }
  destruct Hex as [fuel Hf]. exists fuel. split; [exact Hf|].
  intros fuel' Hle. apply calculate_settles; assumption.
Qed.

(** ** What the search does to the home *)



(** X12.  When the first step up already passes the set point, the search
    stops at once and returns the home as it is: the step down is never
    tried, and neither the bills nor [stdev_pct] are read. *)
Theorem infeasible_first_step_ends_search : forall (sqrt : Q -> Q) fuel s h,
  thermostat_set_point h < balance_point h + s ->
  refine_balance_point sqrt (S fuel) s h = Ok h.
Proof.
  intros sqrt fuel s h H. unfold refine_balance_point.
  cbn [while_loop refine_body]. rewrite try_balance_point_eq.
  assert (E : flt (thermostat_set_point h) (trial_point s 1 h) = true).
  { apply flt_true. rewrite trial_point_value.
    change (inject_Z 1) with 1. lra. }
  rewrite E. reflexivity.
Qed.

Lemma infeasible_first_step_ends_search_witness :
  refine_balance_point Qsqrt 1 2 home_pair_stats = Ok home_pair_stats.
Proof.
  apply (infeasible_first_step_ends_search Qsqrt 0 2 home_pair_stats).
  vm_compute. reflexivity.
Defined.

(** X13.  The search moves the balance point by repeated steps in one
    direction: the balance point it returns is the one at entry after [n]
    updates [balance_point + d * sensitivity], all with the same [d], 1 or
    -1. *)
Theorem search_walks_one_way : forall (sqrt : Q -> Q) fuel s h h',
  refine_balance_point sqrt fuel s h = Ok h' ->
  exists (d : Z) (n : nat),
    (d = 1%Z \/ d = (-1)%Z)
    /\ balance_point h' = steps_from s d n (balance_point h).
Proof.
  intros sqrt fuel s h h' H. apply refine_balance_point_returns in H.
  destruct H as (dirs & Hr & _).
  set (walked := fun (d : Z) (x : Home) => exists n : nat,
                   balance_point x = steps_from s d n (balance_point h)).
  set (I := fun st : list Z * Home =>
              (fst st = [1%Z; (-1)%Z] /\ balance_point (snd st) = balance_point h)
              \/ (fst st = [1%Z] /\ walked 1%Z (snd st))
              \/ (fst st = [(-1)%Z] /\ walked (-1)%Z (snd st))
              \/ (fst st = []
                  /\ (walked 1%Z (snd st) \/ walked (-1)%Z (snd st)))).
  assert (Hstep : forall d x x', walked d x ->
            try_balance_point sqrt s d x = Ok (Improved x') -> walked d x').
  { intros d x x' [n Hn] Ht. apply try_improved_inv in Ht.
    destruct Ht as (bs & us & avg & pct & cur & _ & _ & _ & _ & _ & ->).
    exists (S n). cbn [balance_point set_bills set_stdev_pct set_avg_ua
                        set_balance_point].
    unfold trial_point. rewrite Hn. reflexivity. }
  assert (Hinv : I (dirs, h')).
  { apply (reaches_invariant _ (refine_body sqrt s) I)
      with (s := ([1%Z; (-1)%Z], h)); [| |exact Hr].
    - intros [d1 h1] [d2 h2] Hst Hb. unfold I in *. cbn [fst snd] in *.
      apply refine_body_continue in Hb.
      destruct Hb as (d & rest & Heq & [(_ & -> & ->)|(Ht & ->)]).
      + destruct Hst as [[Hd Hu]|[[Hd Hu]|[[Hd Hu]|[Hd _]]]];
          rewrite Hd in Heq; try discriminate; injection Heq as <- <-.
        * right. right. left. split; [reflexivity|].
          exists 0%nat. exact Hu.
        * right. right. right. split; [reflexivity|]. left. exact Hu.
        * right. right. right. split; [reflexivity|]. right. exact Hu.
      + destruct Hst as [[Hd Hu]|[[Hd Hu]|[[Hd Hu]|[Hd _]]]];
          rewrite Hd in Heq; try discriminate; injection Heq as <- <-;
          rewrite Hd; cbn [length Nat.eqb removelast].
        * right. left. split; [reflexivity|].
          apply (Hstep 1%Z h1 h2); [exists 0%nat; exact Hu|exact Ht].
        * right. left. split; [reflexivity|]. apply (Hstep 1%Z h1 h2 Hu Ht).
        * right. right. left. split; [reflexivity|].
          apply (Hstep (-1)%Z h1 h2 Hu Ht).
    - left. split; reflexivity. }
  unfold I in Hinv. cbn [fst snd] in Hinv.
  destruct Hinv as [[_ Hu]|[[_ [n Hn]]|[[_ [n Hn]]|[_ [[n Hn]|[n Hn]]]]]].
  - exists 1%Z, 0%nat. split; [left; reflexivity|exact Hu].
  - exists 1%Z, n. split; [left; reflexivity|exact Hn].
  - exists (-1)%Z, n. split; [right; reflexivity|exact Hn].
  - exists 1%Z, n. split; [left; reflexivity|exact Hn].
  - exists (-1)%Z, n. split; [right; reflexivity|exact Hn].
Qed.

Lemma search_walks_one_way_witness :
  exists (d : Z) (n : nat),
    (d = 1%Z \/ d = (-1)%Z)
    /\ balance_point home_rising_refined
       = steps_from 2 d n (balance_point home_rising_stats).
Proof.
  apply (search_walks_one_way Qsqrt 10 2 home_rising_stats home_rising_refined).
  vm_compute. reflexivity.
Defined.

(** X14.  None of the three methods changes the home's fuel type,
    efficiency, set point or baseline usage. *)
Theorem methods_keep_home_parameters : forall (sqrt : Q -> Q)
    fuel ini mx diff nxt removed h h',
  refine_balance_point sqrt fuel ini h = Ok h'
  \/ calculate_balance_point_and_ua sqrt fuel ini mx diff nxt h = Ok h'
  \/ calculate_balance_point_and_ua_customizable sqrt fuel removed ini h = Ok h' ->
  fuel_type h' = fuel_type h
  /\ heat_sys_efficiency h' = heat_sys_efficiency h
  /\ thermostat_set_point h' = thermostat_set_point h
  /\ avg_non_heating_usage h' = avg_non_heating_usage h.
Proof.
  intros sqrt fuel ini mx diff nxt removed h h' H.
  set (P := fun x : Home =>
              fuel_type x = fuel_type h
              /\ heat_sys_efficiency x = heat_sys_efficiency h
              /\ thermostat_set_point x = thermostat_set_point h
              /\ avg_non_heating_usage x = avg_non_heating_usage h).
  assert (Ht : forall s d h1 h2, P h1 ->
            try_balance_point sqrt s d h1 = Ok (Improved h2) -> P h2).
  { intros s d h1 h2 HP Htry. apply try_improved_inv in Htry.
    destruct Htry as (bs & us & avg & pct & cur & _ & _ & _ & _ & _ & ->).
    exact HP. }
  assert (H0 : P h) by (unfold P; auto).
  destruct H as [H|[H|H]].
  - apply (refine_balance_point_invariant sqrt P Ht fuel ini h h' H0 H).
  - apply (calculate_invariant sqrt P
             (fun h1 x Hs => Hs) (fun h1 x Hs => Hs) (fun h1 x Hs => Hs)
             (fun h1 bs bs' _ _ Hs => Hs) Ht fuel ini mx diff nxt h h' H0 H).
  - apply (customizable_invariant sqrt P
             (fun h1 x Hs => Hs) (fun h1 x Hs => Hs) (fun h1 x Hs => Hs)
             (fun h1 bs bs' _ _ Hs => Hs) Ht fuel removed ini h h' H0 H).
Qed.

Lemma methods_keep_home_parameters_witness :
  fuel_type home_rising_final = fuel_type home_rising
  /\ heat_sys_efficiency home_rising_final = heat_sys_efficiency home_rising
  /\ thermostat_set_point home_rising_final = thermostat_set_point home_rising
  /\ avg_non_heating_usage home_rising_final = avg_non_heating_usage home_rising.
Proof.
  apply (methods_keep_home_parameters Qsqrt 10 2 (1 # 10) (1 # 100) (1 # 2)
           (fun _ => false) home_rising home_rising_final).
  right. left. vm_compute. reflexivity.
Defined.

(** X15.  The search never assigns [self.uas], although it rewrites the
    [ua] of every bill it commits, and it keeps the bills themselves: the
    same periods in the same order, with the inputs they were constructed
    from. *)
Theorem search_keeps_bills_and_uas : forall (sqrt : Q -> Q) fuel s h h',
  refine_balance_point sqrt fuel s h = Ok h' ->
  uas h' = uas h
  /\ option_map (map bill_inputs) (bills h') = option_map (map bill_inputs) (bills h).
Proof.
  intros sqrt fuel s h h' H.
  apply (refine_balance_point_invariant sqrt
           (fun x => uas x = uas h
                     /\ option_map (map bill_inputs) (bills x)
                        = option_map (map bill_inputs) (bills h)))
    with (3 := H); [|split; reflexivity].
  intros s0 d h1 h2 [Hu Hb] Ht. apply try_improved_inv in Ht.
  destruct Ht as (bs & us & avg & pct & cur & Hbs & _ & _ & _ & _ & ->).
  cbn. split; [exact Hu|]. rewrite <- Hb, Hbs. cbn. f_equal.
  rewrite map_map. reflexivity.
Qed.

Lemma search_keeps_bills_and_uas_witness :
  uas home_rising_refined = uas home_rising_stats
  /\ option_map (map bill_inputs) (bills home_rising_refined)
     = option_map (map bill_inputs) (bills home_rising_stats).
Proof.
  apply (search_keeps_bills_and_uas Qsqrt 10 2 home_rising_stats
           home_rising_refined).
  vm_compute. reflexivity.
Defined.

(** ** What the outlier loop does to the bills *)

Section Retained.

Variable sqrt : Q -> Q.

Lemma refine_keeps_inputs : forall fuel s h h',
  refine_balance_point sqrt fuel s h = Ok h' ->
  option_map (map bill_inputs) (bills h')
  = option_map (map bill_inputs) (bills h).
Proof.
  intros fuel s h h' H.
  apply (refine_balance_point_invariant sqrt
           (fun x => option_map (map bill_inputs) (bills x)
                     = option_map (map bill_inputs) (bills h)))
    with (3 := H); [|reflexivity].
  intros s0 d h1 h2 Hb Ht. apply try_improved_inv in Ht.
  destruct Ht as (bs & us & avg & pct & cur & Hbs & _ & _ & _ & _ & ->).
  cbn. rewrite <- Hb, Hbs. cbn. f_equal. rewrite map_map. reflexivity.
Qed.

Lemma compute_statistics_bills : forall h h1,
  compute_statistics sqrt h = Ok h1 ->
  bills h1 = bills h /\ balance_point h1 = balance_point h
  /\ exists b bs avg pct,
       bills h = Some (b :: bs) /\ avg_ua h1 = Some avg /\ ~ avg == 0
       /\ stdev_pct h1 = Some pct.
Proof.
  intros h h1 H. unfold compute_statistics in H.
  destruct (bills h) as [bs|] eqn:Eb; [|discriminate].
  cbn [getattr bind] in H. cbv zeta in H.
  destruct (mean (map ua bs)) as [m| |] eqn:Em; try discriminate.
  cbn [bind] in H.
  destruct (pstdev sqrt (map ua bs)) as [sd| |]; try discriminate.
  cbn [bind] in H.
  destruct (fdiv sd m) as [pct| |] eqn:Ed; try discriminate. cbn [bind] in H.
  injection H as <-. cbn. split; [exact Eb|]. split; [reflexivity|].
  destruct bs as [|b bs]; [discriminate|].
  apply fdiv_inv in Ed. destruct Ed as [Hnz _].
  exists b, bs, m, pct. auto.
Qed.

Lemma kept_from_refine : forall bs0 fuel s h h',
  kept_from bs0 h -> refine_balance_point sqrt fuel s h = Ok h' ->
  kept_from bs0 h'.
Proof.
  intros bs0 fuel s h h' (bs & ex & Hb & Hp) H.
  apply refine_keeps_inputs in H. rewrite Hb in H.
  destruct (bills h') as [bs'|] eqn:Eb'; [|discriminate]. cbn in H.
  injection H as H. exists bs', ex. split; [exact Eb'|]. rewrite H. exact Hp.
Qed.

Lemma kept_from_pass : forall bs0 fuel mx diff nxt h c,
  kept_from bs0 h -> outlier_body sqrt fuel mx diff nxt h = Ok c ->
  match c with Continue h' => kept_from bs0 h' | Break h' => kept_from bs0 h' end.
Proof.
  intros bs0 fuel mx diff nxt h c Hk H. apply outlier_body_inv in H.
  destruct H as (cur & _ & [[_ ->]|[_ H]]); [exact Hk|].
  destruct H as (o & h1 & us & avg & pct & He & H).
  apply exclude_outlier_inv in He.
  destruct He as (bs & a & idx & rest & sd & Hb & _ & _ & Hp & -> & _).
  apply pop_inv in Hp. destruct Hp as (_ & _ & Hperm).
  destruct Hk as (bs1 & ex & Hb1 & Hp1). rewrite Hb in Hb1.
  injection Hb1 as <-.
  destruct H as [(_ & rest' & Hr & ->)|(_ & h3 & Hr & ->)].
  - cbn in Hr. injection Hr as <-. exists (rest ++ [o]), ex.
    split; [reflexivity|].
    eapply Permutation_trans; [exact Hp1|].
    apply Permutation_app_tail. apply Permutation_map.
    eapply Permutation_trans; [exact Hperm|]. apply Permutation_cons_append.
  - apply (kept_from_refine bs0 _ _ _ _) in Hr; [exact Hr|].
    exists rest, (bill_inputs o :: ex). split; [reflexivity|].
    eapply Permutation_trans; [exact Hp1|].
    eapply Permutation_trans;
      [apply Permutation_app_tail; apply Permutation_map; exact Hperm|].
    cbn [map app]. apply Permutation_middle.
Qed.


Lemma calculate_returns : forall fuel ini mx diff nxt h h',
  calculate_balance_point_and_ua sqrt fuel ini mx diff nxt h = Ok h' ->
  exists h1 h2 h_last,
    compute_statistics sqrt h = Ok h1
    /\ refine_balance_point sqrt fuel ini h1 = Ok h2
    /\ reaches (outlier_body sqrt fuel mx diff nxt) h2 h_last
    /\ outlier_body sqrt fuel mx diff nxt h_last = Ok (Break h').
Proof.
  intros fuel ini mx diff nxt h h' H.
  unfold calculate_balance_point_and_ua in H.
  destruct (compute_statistics sqrt h) as [h1| |] eqn:E1; try discriminate.
  cbn [bind] in H.
  destruct (refine_balance_point sqrt fuel ini h1) as [h2| |] eqn:E2;
    try discriminate.
  cbn [bind] in H. apply while_loop_returns in H.
  destruct H as (hl & Hr & Hb). exists h1, h2, hl.
  split; [reflexivity|]. split; [exact E2|]. split; [exact Hr|exact Hb].
Qed.

Lemma calculate_keeps_periods : forall fuel ini mx diff nxt h h' bs0,
  bills h = Some bs0 ->
  calculate_balance_point_and_ua sqrt fuel ini mx diff nxt h = Ok h' ->
  kept_from bs0 h'.
Proof.
  intros fuel ini mx diff nxt h h' bs0 Hb H.
  apply calculate_returns in H.
  destruct H as (h1 & h2 & hl & E1 & E2 & Hr & Hbr).
  assert (K1 : kept_from bs0 h1).
  { apply compute_statistics_bills in E1. destruct E1 as (Hb1 & _).
    exists bs0, []. rewrite Hb1, app_nil_r. auto. }
  pose proof (kept_from_refine bs0 _ _ _ _ K1 E2) as K2.
  assert (Kl : kept_from bs0 hl).
  { apply (reaches_invariant _ (outlier_body sqrt fuel mx diff nxt)
             (kept_from bs0)) with (s := h2); [|exact K2|exact Hr].
    intros x x' Hx Hb'. apply (kept_from_pass bs0 _ _ _ _ _ _ Hx Hb'). }
  apply (kept_from_pass bs0 _ _ _ _ _ _ Kl Hbr).
Qed.

End Retained.

(** X16.  The periods [calculate_balance_point_and_ua] returns are
    periods the home had at entry, each at most once and with the inputs it
    was constructed from: nothing is added, an excluded period does not come
    back, and the retained list is never longer than it was. *)
Theorem calculate_retains_periods_it_started_with : forall (sqrt : Q -> Q)
    fuel ini mx diff nxt h h' bs0,
  bills h = Some bs0 ->
  calculate_balance_point_and_ua sqrt fuel ini mx diff nxt h = Ok h' ->
  exists bs excluded,
    bills h' = Some bs
    /\ Permutation (map bill_inputs bs0) (map bill_inputs bs ++ excluded)
    /\ (length bs <= length bs0)%nat.
Proof.
  intros sqrt fuel ini mx diff nxt h h' bs0 Hb H.
  destruct (calculate_keeps_periods sqrt _ _ _ _ _ _ _ _ Hb H)
    as (bs & ex & Hbs & Hp).
  exists bs, ex. split; [exact Hbs|]. split; [exact Hp|].
  apply Permutation_length in Hp.
  rewrite length_app, !length_map in Hp. lia.
Qed.

Lemma calculate_retains_periods_it_started_with_witness :
  exists bs excluded,
    bills home_rising_final = Some bs
    /\ Permutation
         (map bill_inputs
            (match bills home_rising with Some l => l | None => [] end))
         (map bill_inputs bs ++ excluded)
    /\ (length bs
        <= length (match bills home_rising with Some l => l | None => [] end))%nat.
Proof.
  apply (calculate_retains_periods_it_started_with Qsqrt 10 2 (1 # 10)
           (1 # 100) (1 # 2) home_rising home_rising_final).
  - reflexivity.
  - vm_compute. reflexivity.
Defined.

(** X17.  [calculate_balance_point_and_ua_customizable] retains exactly
    the bills of [self.bills] that are not in [bps_to_remove], in their
    order and with their inputs, and returns only if at least one is left.
    Of two bills with the same data, the one that is in the list goes and the
    other stays. *)
Theorem customizable_retains_the_periods_not_removed : forall (sqrt : Q -> Q)
    fuel removed s h h',
  calculate_balance_point_and_ua_customizable sqrt fuel removed s h = Ok h' ->
  exists bs bs',
    bills h = Some bs /\ bills h' = Some bs'
    /\ map bill_inputs bs' = map bill_inputs (bills_not_in removed bs)
    /\ bs' <> []
    /\ (forall n, (n < length bs)%nat -> removed n = false ->
          exists b b', nth_error bs n = Some b /\ In b' bs'
                       /\ bill_inputs b' = bill_inputs b).
Proof.
  intros sqrt fuel removed s h h' H.
  unfold calculate_balance_point_and_ua_customizable in H.
  destruct (bills h) as [bs|] eqn:Eb; [|discriminate]. cbn [getattr bind] in H.
  cbv zeta in H.
  destruct (mean _) as [m| |] eqn:Em; try discriminate. cbn [bind] in H.
  destruct (pstdev sqrt _) as [sd| |]; try discriminate. cbn [bind] in H.
  destruct (fdiv sd m) as [pct| |]; try discriminate. cbn [bind] in H.
  apply refine_keeps_inputs in H. cbn in H.
  destruct (bills h') as [bs'|] eqn:Eb'; [|discriminate]. cbn in H.
  injection H as H. exists bs, bs'.
  split; [reflexivity|]. split; [reflexivity|]. split; [exact H|]. split.
  - intros ->. cbn in H.
    destruct (bills_not_in removed bs); [discriminate|discriminate].
  - intros n Hn Hr.
    destruct (nth_error bs n) as [b|] eqn:En;
      [|apply nth_error_None in En; lia].
    assert (Hin : In (bill_inputs b) (map bill_inputs bs')).
    { rewrite H. apply in_map. apply (bills_not_in_position removed bs n b En Hr). }
    apply in_map_iff in Hin. destruct Hin as (b' & Hb' & Hin').
    exists b, b'. auto.
Qed.

Lemma customizable_retains_the_periods_not_removed_witness :
  exists bs bs',
    bills home_twins = Some bs /\ bills home_twins_custom = Some bs'
    /\ map bill_inputs bs' = map bill_inputs (bills_not_in (Nat.eqb 0) bs)
    /\ bs' <> []
    /\ (forall n, (n < length bs)%nat -> Nat.eqb 0 n = false ->
          exists b b', nth_error bs n = Some b /\ In b' bs'
                       /\ bill_inputs b' = bill_inputs b).
Proof.
  apply (customizable_retains_the_periods_not_removed Qsqrt 10 (Nat.eqb 0) 2
           home_twins home_twins_custom).
  vm_compute. reflexivity.
Defined.

(** X18.  With nothing removed, the customizable method is the first part
    of [calculate_balance_point_and_ua]: the statistics followed by one
    search, without the outlier loop. *)
Theorem customizable_with_nothing_removed : forall (sqrt : Q -> Q)
    fuel removed s h,
  (forall n, removed n = false) ->
  calculate_balance_point_and_ua_customizable sqrt fuel removed s h
  = first_refinement sqrt fuel s h.
Proof.
  intros sqrt fuel removed s h Hr.
  unfold calculate_balance_point_and_ua_customizable, first_refinement,
    compute_statistics.
  destruct (bills h) as [bs|] eqn:Eb; [|reflexivity]. cbn [getattr bind].
  cbv zeta.
  assert (Hf : bills_not_in removed bs = bs).
  { apply bills_not_in_none. intros n _. apply Hr. }
  rewrite Hf.
  destruct (mean (map ua bs)) as [m| |]; try reflexivity. cbn [bind].
  destruct (pstdev sqrt (map ua bs)) as [sd| |]; try reflexivity. cbn [bind].
  destruct (fdiv sd m) as [pct| |]; try reflexivity. cbn [bind].
  f_equal. destruct h. cbn in *. subst. reflexivity.
Qed.

Lemma customizable_with_nothing_removed_witness :
  calculate_balance_point_and_ua_customizable Qsqrt 10 (fun _ => false) 2
    home_close
  = first_refinement Qsqrt 10 2 home_close.
Proof.
  apply (customizable_with_nothing_removed Qsqrt 10 (fun _ => false) 2
           home_close).
  reflexivity.
Defined.

(** X19.  With every bill removed, or no bill to begin with, the
    customizable method raises [StatisticsError] before it searches; on a
    home with an empty list of bills [calculate_balance_point_and_ua] raises
    it too. *)
Theorem no_period_left_raises : forall (sqrt : Q -> Q)
    fuel ini mx diff nxt removed h bs,
  bills h = Some bs ->
  (forall n, (n < length bs)%nat -> removed n = true) ->
  calculate_balance_point_and_ua_customizable sqrt fuel removed ini h
  = Raise StatisticsError
  /\ (bs = [] ->
      calculate_balance_point_and_ua sqrt fuel ini mx diff nxt h
      = Raise StatisticsError).
Proof.
  intros sqrt fuel ini mx diff nxt removed h bs Hb Hall. split.
  - unfold calculate_balance_point_and_ua_customizable. rewrite Hb.
    cbn [getattr bind]. cbv zeta.
    assert (Hf : bills_not_in removed bs = []).
    { apply bills_not_in_all. exact Hall. }
    rewrite Hf. reflexivity.
  - intros ->. unfold calculate_balance_point_and_ua, compute_statistics.
    rewrite Hb. reflexivity.
Qed.

Lemma no_period_left_raises_witness :
  calculate_balance_point_and_ua_customizable Qsqrt 10 (fun _ => true) 2
    home_rising
  = Raise StatisticsError.
Proof.
  apply (proj1 (no_period_left_raises Qsqrt 10 2 (1 # 10) (1 # 100) (1 # 2)
                  (fun _ => true) home_rising
                  (match bills home_rising with Some l => l | None => [] end)
                  eq_refl (fun _ _ => eq_refl))).
Defined.


(** ** What a call that returns reports *)

Section Reports.

Variable sqrt : Q -> Q.

Lemma statistics_nonempty : forall us avg sd pct,
  mean us = Ok avg -> fdiv sd avg = Ok pct -> us <> [] /\ ~ avg == 0.
Proof.
  intros us avg sd pct Hm Hd. split.
  - intros ->. discriminate.
  - apply fdiv_inv in Hd. apply Hd.
Qed.

Lemma trial_statistics_inv : forall bs bp us avg pct,
  trial_statistics sqrt bs bp = Ok (us, avg, pct) ->
  length us = length bs /\ bs <> [] /\ ~ avg == 0
  /\ exists sd, mean us = Ok avg /\ pstdev sqrt us = Ok sd
                /\ fdiv sd avg = Ok pct.
Proof.
  intros bs bp us avg pct H. unfold trial_statistics in H.
  destruct (mapM _ bs) as [us'| |] eqn:E; try discriminate. cbn [bind] in H.
  destruct (mean us') as [m| |] eqn:Em; try discriminate. cbn [bind] in H.
  destruct (pstdev sqrt us') as [sd| |] eqn:Es; try discriminate.
  cbn [bind] in H.
  destruct (fdiv sd m) as [p| |] eqn:Ed; try discriminate. cbn [bind] in H.
  injection H as <- <- <-.
  destruct (statistics_nonempty _ _ _ _ Em Ed) as [Hne Hnz].
  pose proof (mapM_length _ _ _ _ _ E) as Hl.
  split; [exact Hl|]. split.
  - intros ->. destruct us'; [congruence|discriminate].
  - split; [exact Hnz|]. exists sd. auto.
Qed.

Lemma committed_trial_reportable : forall s d h h',
  try_balance_point sqrt s d h = Ok (Improved h') -> reportable h'.
Proof.
  intros s d h h' H. apply try_improved_inv in H.
  destruct H as (bs & us & avg & pct & cur & _ & _ & Hs & _ & _ & ->).
  apply trial_statistics_inv in Hs. destruct Hs as (_ & Hne & Hnz & _).
  unfold reportable. cbn. split; [|split].
  - destruct bs as [|b bs]; [congruence|]. cbn. eauto.
  - exists avg. auto.
  - exists pct. reflexivity.
Qed.

Lemma refine_reportable : forall fuel s h h',
  reportable h -> refine_balance_point sqrt fuel s h = Ok h' -> reportable h'.
Proof.
  intros fuel s h h' HR H.
  apply (refine_balance_point_invariant sqrt reportable) with (2 := HR) (3 := H).
  intros s0 d h1 h2 _ Ht. apply (committed_trial_reportable s0 d h1 h2 Ht).
Qed.

Lemma pass_reportable : forall fuel mx diff nxt h c,
  reportable h -> outlier_body sqrt fuel mx diff nxt h = Ok c ->
  match c with Continue h' => reportable h' | Break h' => reportable h' end.
Proof.
  intros fuel mx diff nxt h c HR H. apply outlier_body_inv in H.
  destruct H as (cur & _ & [[_ ->]|[_ H]]); [exact HR|].
  destruct H as (o & h1 & us & avg & pct & He & H).
  apply exclude_outlier_inv in He.
  destruct He as (bs & a & idx & rest & sd & Hb & _ & _ & Hp & -> & -> & Hm & _ & Hd).
  destruct H as [(_ & rest' & Hr & ->)|(_ & h3 & Hr & ->)].
  - cbn in Hr. injection Hr as <-. destruct HR as (_ & Ha & Hs).
    split; [|split; [exact Ha|exact Hs]].
    cbn. destruct rest; cbn; eauto.
  - apply (refine_reportable _ _ _ _) in Hr; [exact Hr|].
    destruct (statistics_nonempty _ _ _ _ Hm Hd) as [Hne Hnz].
    unfold reportable. cbn. split; [|split].
    + destruct rest as [|b r]; [exfalso; apply Hne; reflexivity|]. eauto.
    + exists avg. auto.
    + exists pct. reflexivity.
Qed.

Lemma calculate_reportable : forall fuel ini mx diff nxt h h',
  calculate_balance_point_and_ua sqrt fuel ini mx diff nxt h = Ok h' ->
  reportable h'.
Proof.
  intros fuel ini mx diff nxt h h' H. apply calculate_returns in H.
  destruct H as (h1 & h2 & hl & E1 & E2 & Hr & Hbr).
  assert (R1 : reportable h1).
  { apply compute_statistics_bills in E1.
    destruct E1 as (Hb & _ & b & bs & avg & pct & Hbs & Ha & Hnz & Hp).
    split; [|split].
    - exists b, bs. congruence.
    - exists avg. auto.
    - exists pct. exact Hp. }
  pose proof (refine_reportable _ _ _ _ R1 E2) as R2.
  assert (Rl : reportable hl).
  { apply (reaches_invariant _ (outlier_body sqrt fuel mx diff nxt) reportable)
      with (s := h2); [|exact R2|exact Hr].
    intros x x' Hx Hb. apply (pass_reportable _ _ _ _ _ _ Hx Hb). }
  apply (pass_reportable _ _ _ _ _ _ Rl Hbr).
Qed.

End Reports.

(** X20.  A call of [calculate_balance_point_and_ua] that returns leaves
    at least one bill, an [avg_ua] that is not zero and a [stdev_pct]: the
    loop cannot exclude the last period and return. *)
Theorem returned_home_has_a_period : forall (sqrt : Q -> Q)
    fuel ini mx diff nxt h h',
  calculate_balance_point_and_ua sqrt fuel ini mx diff nxt h = Ok h' ->
  (exists b bs, bills h' = Some (b :: bs))
  /\ (exists avg, avg_ua h' = Some avg /\ ~ avg == 0)
  /\ (exists pct, stdev_pct h' = Some pct).
Proof.
  intros sqrt fuel ini mx diff nxt h h' H.
  apply (calculate_reportable sqrt _ _ _ _ _ _ _ H).
Qed.

Lemma returned_home_has_a_period_witness :
  (exists b bs, bills home_rising_final = Some (b :: bs))
  /\ (exists avg, avg_ua home_rising_final = Some avg /\ ~ avg == 0)
  /\ (exists pct, stdev_pct home_rising_final = Some pct).
Proof.
  apply (returned_home_has_a_period Qsqrt 10 2 (1 # 10) (1 # 100) (1 # 2)
           home_rising home_rising_final).
  vm_compute. reflexivity.
Defined.

(** X21.  When [calculate_balance_point_and_ua] returns, either
    [stdev_pct] is within [stdev_pct_max], or it is above it and the last
    bill of the list is an outlier that was put back: without it [stdev_pct]
    would be lower by less than [max_stdev_pct_diff]. *)
Theorem calculate_ends_within_tolerance_or_turned_down : forall (sqrt : Q -> Q)
    fuel ini mx diff nxt h h',
  calculate_balance_point_and_ua sqrt fuel ini mx diff nxt h = Ok h' ->
  exists pct,
    stdev_pct h' = Some pct
    /\ (pct <= mx
        \/ (mx < pct
            /\ exists kept outlier avg_i sd_i pct_i,
                 bills h' = Some (kept ++ [outlier])
                 /\ mean (map ua kept) = Ok avg_i
                 /\ pstdev sqrt (map ua kept) = Ok sd_i
                 /\ fdiv sd_i avg_i = Ok pct_i
                 /\ pct - pct_i < diff)).
Proof.
  intros sqrt fuel ini mx diff nxt h h' H. apply calculate_returns in H.
  destruct H as (h1 & h2 & hl & _ & _ & _ & Hbr).
  apply outlier_body_inv in Hbr.
  destruct Hbr as (cur & Hc & [[Hm Heq]|[Hm H]]).
  - injection Heq as <-. exists cur. split; [exact Hc|].
    left. apply flt_false. exact Hm.
  - destruct H as (o & h1' & us & avg & pct & He & H).
    destruct H as [(Hd & rest & Hr & Heq)|(_ & h3 & _ & Heq)]; [|discriminate].
    injection Heq as ->.
    apply exclude_outlier_inv in He.
    destruct He as (bs & a & idx & rest' & sd & Hb & _ & _ & _ & -> & -> & Hmn
                    & Hsd & Hdiv).
    cbn in Hr. injection Hr as <-.
    exists cur. split; [exact Hc|]. right.
    split; [apply flt_true; exact Hm|].
    exists rest', o, avg, sd, pct.
    repeat (split; [first [reflexivity|assumption]|]).
    apply flt_true in Hd. rewrite fsub_correct in Hd. exact Hd.
Qed.

Lemma calculate_ends_within_tolerance_or_turned_down_witness :
  exists pct,
    stdev_pct home_rising_final = Some pct
    /\ (pct <= 1 # 10
        \/ (1 # 10 < pct
            /\ exists kept outlier avg_i sd_i pct_i,
                 bills home_rising_final = Some (kept ++ [outlier])
                 /\ mean (map ua kept) = Ok avg_i
                 /\ pstdev Qsqrt (map ua kept) = Ok sd_i
                 /\ fdiv sd_i avg_i = Ok pct_i
                 /\ pct - pct_i < 1 # 100)).
Proof.
  apply (calculate_ends_within_tolerance_or_turned_down Qsqrt 10 2 (1 # 10)
           (1 # 100) (1 # 2) home_rising home_rising_final).
  vm_compute. reflexivity.
Defined.

(** X22.  With [max_stdev_pct_diff] not negative, the [stdev_pct] a
    call of [calculate_balance_point_and_ua] returns is at most the one of
    the bills at entry. *)
Theorem calculate_does_not_raise_stdev_pct : forall (sqrt : Q -> Q)
    fuel ini mx diff nxt h h1 h' entry,
  0 <= diff ->
  compute_statistics sqrt h = Ok h1 ->
  stdev_pct h1 = Some entry ->
  calculate_balance_point_and_ua sqrt fuel ini mx diff nxt h = Ok h' ->
  exists final, stdev_pct h' = Some final /\ final <= entry.
Proof.
  intros sqrt fuel ini mx diff nxt h h1 h' entry Hdiff E1 He H.
  apply calculate_returns in H.
  destruct H as (h1' & h2 & hl & E1' & E2 & Hr & Hbr).
  rewrite E1 in E1'. injection E1' as <-.
  set (M := fun x : Home => exists v, stdev_pct x = Some v /\ v <= entry).
  assert (Mrefine : forall f s x x', M x ->
            refine_balance_point sqrt f s x = Ok x' -> M x').
  { intros f s x x' Hx Hrf.
    apply (refine_balance_point_invariant sqrt M) with (2 := Hx) (3 := Hrf).
    intros s0 d x1 x2 (v & Hv & Hle) Ht. apply try_improved_inv in Ht.
    destruct Ht as (bs & us & avg & pct & cur & _ & _ & _ & Hc & Hlt & ->).
    exists pct. split; [reflexivity|]. rewrite Hv in Hc. injection Hc as <-.
    lra. }
  assert (Mpass : forall x c, M x ->
            outlier_body sqrt fuel mx diff nxt x = Ok c ->
            match c with Continue x' => M x' | Break x' => M x' end).
  { intros x c (v & Hv & Hle) Hb. apply outlier_body_inv in Hb.
    destruct Hb as (cur & Hc & [[_ ->]|[_ Hb]]); [exists v; auto|].
    rewrite Hv in Hc. injection Hc as <-.
    destruct Hb as (o & x1 & us & avg & pct & Hex & Hb).
    apply exclude_outlier_inv in Hex.
    destruct Hex as (bs & a & idx & rest & sd & _ & _ & _ & _ & -> & _).
    destruct Hb as [(_ & rest' & _ & ->)|(Hd & x3 & Hrf & ->)].
    - exists v. split; [exact Hv|exact Hle].
    - apply (Mrefine _ _ _ _) in Hrf; [exact Hrf|].
      exists pct. split; [reflexivity|].
      apply flt_false in Hd. rewrite fsub_correct in Hd. lra. }
  assert (M2 : M h2).
  { apply (Mrefine fuel ini h1 h2); [|exact E2]. exists entry. split;
      [exact He|apply Qle_refl]. }
  assert (Ml : M hl).
  { apply (reaches_invariant _ (outlier_body sqrt fuel mx diff nxt) M)
      with (s := h2); [|exact M2|exact Hr].
    intros x x' Hx Hb. apply (Mpass x (Continue x') Hx Hb). }
  apply (Mpass hl (Break h') Ml Hbr).
Qed.

Lemma calculate_does_not_raise_stdev_pct_witness :
  exists final,
    stdev_pct home_rising_final = Some final
    /\ final <= 16499999999999999 # 23500000000000000.
Proof.
  apply (calculate_does_not_raise_stdev_pct Qsqrt 10 2 (1 # 10) (1 # 100)
           (1 # 2) home_rising home_rising_stats home_rising_final
           (16499999999999999 # 23500000000000000)).
  - vm_compute. discriminate.
  - vm_compute. reflexivity.
  - reflexivity.
  - vm_compute. reflexivity.
Defined.

(** ** The aggregates of a returned home *)

Lemma exact_sum_permutation : forall xs ys,
  Permutation xs ys -> exact_sum xs == exact_sum ys.
Proof.
  intros xs ys H. induction H as [|x l l' _ IH|x y l|l l' l'' _ IH1 _ IH2].
  - reflexivity.
  - cbn [exact_sum fold_right]. fold (exact_sum l). fold (exact_sum l').
    rewrite IH. reflexivity.
  - cbn [exact_sum fold_right]. fold (exact_sum l). ring.
  - rewrite IH1. exact IH2.
Qed.

Lemma mean_permutation : forall xs ys,
  Permutation xs ys -> mean xs = mean ys.
Proof.
  intros xs ys H. unfold mean.
  destruct xs as [|x xs].
  - apply Permutation_nil in H. subst. reflexivity.
  - destruct ys as [|y ys].
    + apply Permutation_sym, Permutation_nil in H. discriminate.
    + f_equal. apply Qred_complete.
      rewrite (exact_sum_permutation _ _ H), (Permutation_length H).
      reflexivity.
Qed.

Lemma pvariance_permutation : forall xs ys,
  Permutation xs ys -> pvariance xs = pvariance ys.
Proof.
  intros xs ys H. unfold pvariance. rewrite (mean_permutation _ _ H).
  destruct (mean ys) as [mu| |]; try reflexivity. cbn [bind]. f_equal.
  apply Qred_complete.
  rewrite (exact_sum_permutation _ _
             (Permutation_map (fun x => (x - mu) * (x - mu)) H)),
    (Permutation_length H).
  reflexivity.
Qed.

Section Aggregates.

Variable sqrt : Q -> Q.

Lemma pstdev_permutation : forall xs ys,
  Permutation xs ys -> pstdev sqrt xs = pstdev sqrt ys.
Proof.
  intros xs ys H. unfold pstdev. rewrite (pvariance_permutation _ _ H).
  reflexivity.
Qed.

(** The aggregates of a synced home are the statistics of its bills. *)
Lemma synced_settled_iff : forall x bs,
  synced x = true -> bills x = Some bs ->
  (settled sqrt x <->
   exists avg sd pct,
     avg_ua x = Some avg /\ stdev_pct x = Some pct
     /\ mean (map ua bs) = Ok avg /\ pstdev sqrt (map ua bs) = Ok sd
     /\ fdiv sd avg = Ok pct).
Proof.
  intros x bs Hs Hb. unfold synced in Hs. rewrite Hb in Hs.
  pose proof (synced_own_uas _ _ Hs) as Hu. split.
  - intros (bs' & avg & pct & Hb' & Ht & Ha & Hp).
    rewrite Hb in Hb'. injection Hb' as <-.
    apply (trial_statistics_inv sqrt) in Ht.
    destruct Ht as (_ & _ & _ & sd & Hm & Hsd & Hd).
    exists avg, sd, pct. auto.
  - intros (avg & sd & pct & Ha & Hp & Hm & Hsd & Hd).
    exists bs, avg, pct. split; [exact Hb|]. split; [|auto].
    unfold trial_statistics. rewrite Hu. cbn [bind]. rewrite Hm. cbn [bind].
    rewrite Hsd. cbn [bind]. rewrite Hd. reflexivity.
Qed.

(** Synced, with aggregates that are the statistics of the bills. *)
Lemma consistent_set_bills_permuted : forall x bs bs',
  synced x = true -> settled sqrt x ->
  bills x = Some bs -> Permutation bs bs' ->
  synced (set_bills x bs') = true /\ settled sqrt (set_bills x bs').
Proof.
  intros x bs bs' Hs Hset Hb Hp.
  assert (Hs' : synced (set_bills x bs') = true).
  { apply (synced_set_bills x bs bs' Hb); [|exact Hs].
    intros b Hin. apply (Permutation_in b (Permutation_sym Hp) Hin). }
  split; [exact Hs'|].
  apply (synced_settled_iff (set_bills x bs') bs' Hs' eq_refl).
  apply (synced_settled_iff x bs Hs Hb) in Hset.
  destruct Hset as (avg & sd & pct & Ha & Hpct & Hm & Hsd & Hd).
  exists avg, sd, pct. cbn.
  pose proof (Permutation_map ua Hp) as Hpu.
  rewrite <- (mean_permutation _ _ Hpu), <- (pstdev_permutation _ _ Hpu).
  auto.
Qed.

Lemma refine_consistent : forall fuel s x x',
  synced x = true -> settled sqrt x ->
  refine_balance_point sqrt fuel s x = Ok x' ->
  synced x' = true /\ settled sqrt x'.
Proof.
  intros fuel s x x' Hs Hset H. split.
  - apply (refine_balance_point_invariant sqrt (fun y => synced y = true))
      with (2 := Hs) (3 := H).
    intros s0 d y y' _ Ht. apply (committed_trial_synced sqrt s0 d y y' Ht).
  - apply (refine_result_stable sqrt fuel s x x' Hset H).
Qed.

Lemma pass_consistent : forall fuel mx diff nxt x c,
  synced x = true -> settled sqrt x ->
  outlier_body sqrt fuel mx diff nxt x = Ok c ->
  match c with
  | Continue x' => synced x' = true /\ settled sqrt x'
  | Break x' => synced x' = true /\ settled sqrt x'
  end.
Proof.
  intros fuel mx diff nxt x c Hs Hset H. apply outlier_body_inv in H.
  destruct H as (cur & _ & [[_ ->]|[_ H]]); [auto|].
  destruct H as (o & x1 & us & avg & pct & He & H).
  apply exclude_outlier_inv in He.
  destruct He as (bs & a & idx & rest & sd & Hb & _ & _ & Hp & -> & -> & Hm
                  & Hsd & Hd).
  apply pop_inv in Hp. destruct Hp as (_ & _ & Hperm).
  destruct H as [(_ & rest' & Hr & ->)|(_ & x3 & Hr & ->)].
  - cbn in Hr. injection Hr as <-.
    change (set_bills (set_bills x rest) (rest ++ [o]))
      with (set_bills x (rest ++ [o])).
    apply (consistent_set_bills_permuted x bs _ Hs Hset Hb).
    eapply Permutation_trans; [exact Hperm|]. apply Permutation_cons_append.
  - apply (refine_consistent _ _ _ _) in Hr; [exact Hr| |].
    + apply (synced_set_bills x bs rest Hb); [|exact Hs].
      intros b Hin. apply (Permutation_in b (Permutation_sym Hperm)).
      right. exact Hin.
    + assert (Hs1 : synced (set_stdev_pct
                              (set_avg_ua (set_uas (set_bills x rest)
                                                   (map ua rest)) avg) pct)
                    = true).
      { apply (synced_set_bills x bs rest Hb); [|exact Hs].
        intros b Hin. apply (Permutation_in b (Permutation_sym Hperm)).
        right. exact Hin. }
      apply (synced_settled_iff _ rest Hs1 eq_refl).
      exists avg, sd, pct. cbn. auto.
Qed.

Lemma calculate_consistent : forall fuel ini mx diff nxt h h',
  synced h = true ->
  calculate_balance_point_and_ua sqrt fuel ini mx diff nxt h = Ok h' ->
  synced h' = true /\ settled sqrt h'.
Proof.
  intros fuel ini mx diff nxt h h' Hs H. apply calculate_returns in H.
  destruct H as (h1 & h2 & hl & E1 & E2 & Hr & Hbr).
  assert (C1 : synced h1 = true /\ settled sqrt h1).
  { split; [|apply (compute_statistics_settled sqrt h h1 Hs E1)].
    apply (compute_statistics_invariant sqrt (fun y => synced y = true)
             (fun y x Hy => Hy) (fun y x Hy => Hy) (fun y x Hy => Hy)
             h h1 Hs E1). }
  destruct C1 as [S1 T1].
  pose proof (refine_consistent _ _ _ _ S1 T1 E2) as C2.
  assert (Cl : synced hl = true /\ settled sqrt hl).
  { apply (reaches_invariant _ (outlier_body sqrt fuel mx diff nxt)
             (fun y => synced y = true /\ settled sqrt y))
      with (s := h2); [|exact C2|exact Hr].
    intros y y' [Sy Ty] Hb. apply (pass_consistent _ _ _ _ _ _ Sy Ty Hb). }
  destruct Cl as [Sl Tl]. apply (pass_consistent _ _ _ _ _ _ Sl Tl Hbr).
Qed.

End Aggregates.

(** X23.  From a synced home, the home
    [calculate_balance_point_and_ua] returns is synced, and its [avg_ua] and
    [stdev_pct] are the mean and the relative standard deviation of the [ua]
    of the bills it retains, also after an outlier was put back at the end
    of the list. *)
Theorem returned_aggregates_are_those_of_the_bills : forall (sqrt : Q -> Q)
    fuel ini mx diff nxt h h',
  synced h = true ->
  calculate_balance_point_and_ua sqrt fuel ini mx diff nxt h = Ok h' ->
  synced h' = true
  /\ exists bs avg sd pct,
       bills h' = Some bs
       /\ avg_ua h' = Some avg /\ stdev_pct h' = Some pct
       /\ mean (map ua bs) = Ok avg
       /\ pstdev sqrt (map ua bs) = Ok sd
       /\ fdiv sd avg = Ok pct.
Proof.
  intros sqrt fuel ini mx diff nxt h h' Hs H.
  destruct (calculate_consistent sqrt _ _ _ _ _ _ _ Hs H) as [Hs' Hset].
  split; [exact Hs'|].
  pose proof Hs' as Hb. unfold synced in Hb.
  destruct (bills h') as [bs|] eqn:Eb; [|discriminate].
  apply (synced_settled_iff sqrt h' bs Hs' Eb) in Hset.
  destruct Hset as (avg & sd & pct & H1 & H2 & H3 & H4 & H5).
  exists bs, avg, sd, pct. auto 10.
Qed.

Lemma returned_aggregates_are_those_of_the_bills_witness :
  synced home_rising_final = true
  /\ exists bs avg sd pct,
       bills home_rising_final = Some bs
       /\ avg_ua home_rising_final = Some avg
       /\ stdev_pct home_rising_final = Some pct
       /\ mean (map ua bs) = Ok avg
       /\ pstdev Qsqrt (map ua bs) = Ok sd
       /\ fdiv sd avg = Ok pct.
Proof.
  apply (returned_aggregates_are_those_of_the_bills Qsqrt 10 2 (1 # 10)
           (1 # 100) (1 # 2) home_rising home_rising_final).
  - reflexivity.
  - vm_compute. reflexivity.
Defined.

(** X24.  From a synced home, the home the customizable method returns is
    synced, and its [avg_ua] and [stdev_pct] are the mean and the relative
    standard deviation of the [ua] of the bills that were not removed, at
    the balance point the search ended on. *)
Theorem customizable_aggregates_are_those_of_the_bills : forall (sqrt : Q -> Q)
    fuel removed s h h',
  synced h = true ->
  calculate_balance_point_and_ua_customizable sqrt fuel removed s h = Ok h' ->
  synced h' = true
  /\ exists bs avg sd pct,
       bills h' = Some bs
       /\ avg_ua h' = Some avg /\ stdev_pct h' = Some pct
       /\ mean (map ua bs) = Ok avg
       /\ pstdev sqrt (map ua bs) = Ok sd
       /\ fdiv sd avg = Ok pct.
Proof.
  intros sqrt fuel removed s h h' Hs H.
  unfold calculate_balance_point_and_ua_customizable in H.
  destruct (bills h) as [bs|] eqn:Eb; [|discriminate]. cbn [getattr bind] in H.
  cbv zeta in H.
  set (kept := bills_not_in removed bs) in *.
  destruct (mean (map ua kept)) as [m| |] eqn:Em; try discriminate.
  cbn [bind] in H.
  destruct (pstdev sqrt (map ua kept)) as [sd| |] eqn:Esd; try discriminate.
  cbn [bind] in H.
  destruct (fdiv sd m) as [pct| |] eqn:Ed; try discriminate. cbn [bind] in H.
  set (h0 := set_bills _ kept) in H.
  assert (S0 : synced h0 = true).
  { apply (synced_set_bills h bs kept Eb); [|exact Hs].
    apply bills_not_in_incl. }
  assert (T0 : settled sqrt h0).
  { apply (synced_settled_iff sqrt h0 kept S0 eq_refl).
    exists m, sd, pct. cbn. auto. }
  destruct (refine_consistent sqrt fuel s h0 h' S0 T0 H) as [Hs' Hset].
  split; [exact Hs'|].
  pose proof Hs' as Hb. unfold synced in Hb.
  destruct (bills h') as [bs'|] eqn:Eb'; [|discriminate].
  apply (synced_settled_iff sqrt h' bs' Hs' Eb') in Hset.
  destruct Hset as (avg & sd' & pct' & H1 & H2 & H3 & H4 & H5).
  exists bs', avg, sd', pct'. auto 10.
Qed.

Lemma customizable_aggregates_are_those_of_the_bills_witness :
  synced home_rising_custom = true
  /\ exists bs avg sd pct,
       bills home_rising_custom = Some bs
       /\ avg_ua home_rising_custom = Some avg
       /\ stdev_pct home_rising_custom = Some pct
       /\ mean (map ua bs) = Ok avg
       /\ pstdev Qsqrt (map ua bs) = Ok sd
       /\ fdiv sd avg = Ok pct.
Proof.
  apply (customizable_aggregates_are_those_of_the_bills Qsqrt 10
           (Nat.eqb 0) 2 home_rising home_rising_custom).
  - reflexivity.
  - vm_compute. reflexivity.
Defined.

(** * Calling [calculate_balance_point_and_ua] again *)






Section SecondCall.

Variable sqrt : Q -> Q.








End SecondCall.



